(** * BLE attribute request engine of the nRF52 advertiser (adv_ble.c)

    Shallow embedding of the read/write authorization engine, of the
    deferred-completion slot, of the connection life cycle and of the
    background worker watchdog found in [src/adv_ble.c], together with the
    properties the specification states about them.

    Modelling conventions
    - C integers are [Z]; the narrowing casts of the source ([uint8_t],
      [int8_t], [uint16_t], 32-bit [unsigned int]) are written out.
    - The global objects [_adv_ble], [_adv_ble_var], [_adv_ble_worker_engine]
      and the advertising configuration live in one [machine] record that
      every operation receives and returns.
    - A pointer to an attribute is its index in [bp_attributes]; a nullable
      pointer is an [option].  A data pointer is [NULL], the data area of a
      write event, the transient storage, or the storage of an attribute.
    - The table [bp_attributes] is any list of attributes: the repository
      defines [ADV_ERROR] alone, without reader or writer, and the engine is
      written for [ADV_COUNT] entries with optional callbacks.  A callback is
      modelled by what it returns (and, for a reader, by the meaningful
      length it leaves); it does not touch the state of the engine.
    - Calls that leave the module (SoftDevice services, reader and writer
      callbacks) are appended to [calls], oldest first.  The status a
      SoftDevice service returns is given by the [softdevice] field, a
      function of the calls issued so far and of the present call.
    - [APP_ERROR_CHECK] on a non-zero status ends in the non-returning
      [app_error_fault_handler] (adv_main.c): this is the [Fault] outcome.
    - Diagnostic traces ([MSGV]) are not modelled. *)

From Stdlib Require Import ZArith List Bool Lia.
From stdpp Require Import base numbers list.
Import ListNotations.
Local Open Scope Z_scope.

(** ** Constants of adv_ble.c *)

Definition ADV_BLE_SLEEP_DELAY_S : Z := 3600.
Definition ADV_BLE_WORKER_PACE_S : Z := 5.
Definition ADV_BLE_STALL_DELAY_S : Z := 120.
Definition ADV_CHAR_UUID_BASE : Z := 0x1001.

(** Values of the nRF5 SDK headers used by the module. *)
Definition NRF_SUCCESS : Z := 0.
Definition NRF_FAULT_ID_SDK_ASSERT : Z := 0x4002.
Definition BLE_CONN_HANDLE_INVALID : Z := 0xFFFF.
Definition BLE_UUID_TYPE_BLE : Z := 1.
Definition BLE_UUID_TYPE_VENDOR_BEGIN : Z := 2.
Definition BLE_UUID_DESCRIPTOR_CLIENT_CHAR_CONFIG : Z := 0x2902.

(** [sizeof(_adv_ble_var.pv_transient)] *)
Definition SIZEOF_pv_transient : Z := 16.
(** [SIZEOF_MEMBER(struct adv_ble_var, pv_error)] *)
Definition SIZEOF_pv_error : Z := 8.

(** ** Integer casts *)

Definition uint8 (z : Z) : Z := z mod 2 ^ 8.
Definition uint16 (z : Z) : Z := z mod 2 ^ 16.
Definition uint32 (z : Z) : Z := z mod 2 ^ 32.
Definition int8 (z : Z) : Z := (z + 2 ^ 7) mod 2 ^ 8 - 2 ^ 7.

(** ** Error codes (adv_errors.h) *)

Inductive pa_error : Set :=
| PE_NO_ERROR | PE_DEFERRED | PE_ABORT | PE_INTERNAL | PE_IO_ERROR
| PE_NOT_READY | PE_NOT_POWERED | PE_NOT_SUPPORTED | PE_OVERFLOW
| PE_INVALID_REQUEST | PE_INVALID_UUID | PE_READ_ONLY | PE_OUT_OF_RANGE
| PE_INVALID_CHANNEL | PE_INVALID_DURATION | PE_INVALID_ANTENNA
| PE_INVALID_POWER | PE_INVALID_COMMAND | PE_INVALID_SIZE | PE_BUSY
| PE_NO_DEVICE | PE_NO_SLAVE_DEVICE | PE_PROTECTED | PE_UNKNOWN | PE_COUNT.

(** The value of each enumerator. *)
Definition pa_errno (e : pa_error) : Z :=
  match e with
  | PE_NO_ERROR => 0 | PE_DEFERRED => 1 | PE_ABORT => 2 | PE_INTERNAL => 3
  | PE_IO_ERROR => 4 | PE_NOT_READY => 5 | PE_NOT_POWERED => 6
  | PE_NOT_SUPPORTED => 7 | PE_OVERFLOW => 8 | PE_INVALID_REQUEST => 9
  | PE_INVALID_UUID => 10 | PE_READ_ONLY => 11 | PE_OUT_OF_RANGE => 12
  | PE_INVALID_CHANNEL => 13 | PE_INVALID_DURATION => 14
  | PE_INVALID_ANTENNA => 15 | PE_INVALID_POWER => 16
  | PE_INVALID_COMMAND => 17 | PE_INVALID_SIZE => 18 | PE_BUSY => 19
  | PE_NO_DEVICE => 20 | PE_NO_SLAVE_DEVICE => 21 | PE_PROTECTED => 22
  | PE_UNKNOWN => 23 | PE_COUNT => 24
  end.

Coercion pa_errno : pa_error >-> Z.

(** ** Protocol types (SoftDevice API) *)

Inductive ble_gatts_op : Set :=
| BLE_GATTS_OP_INVALID
| BLE_GATTS_OP_WRITE_REQ
| BLE_GATTS_OP_WRITE_CMD
| BLE_GATTS_OP_SIGN_WRITE_CMD
| BLE_GATTS_OP_PREP_WRITE_REQ
| BLE_GATTS_OP_EXEC_WRITE_REQ_CANCEL
| BLE_GATTS_OP_EXEC_WRITE_REQ_NOW.

#[global] Instance ble_gatts_op_eq_dec : EqDecision ble_gatts_op.
Proof. solve_decision. Defined.

(** The reply statuses the module uses; [APP_FEATURE_NOT_SUPPORTED] is
    [BLE_GATT_STATUS_ATTERR_APP_BEGIN + 2]. *)
Inductive gatt_status_t : Set :=
| BLE_GATT_STATUS_SUCCESS
| BLE_GATT_STATUS_ATTERR_READ_NOT_PERMITTED
| BLE_GATT_STATUS_ATTERR_WRITE_NOT_PERMITTED
| BLE_GATT_STATUS_ATTERR_UNLIKELY_ERROR
| APP_FEATURE_NOT_SUPPORTED.

Inductive authorize_type : Set :=
| BLE_GATTS_AUTHORIZE_TYPE_INVALID
| BLE_GATTS_AUTHORIZE_TYPE_READ
| BLE_GATTS_AUTHORIZE_TYPE_WRITE.

Inductive ble_adv_mode : Set := BLE_ADV_MODE_FAST | BLE_ADV_MODE_SLOW.

Record ble_uuid_t := { uuid : Z; uuid_type : Z }.

(** Where a data pointer of the module can point. *)
Inductive data_ptr :=
| NULL
| EVT_DATA (bytes : list Z)   (**< [wr_evt->data], with the bytes it holds *)
| PV_TRANSIENT                (**< [&_adv_ble_var.pv_transient[0]] *)
| PA_VAR (ix : nat).          (**< [pa_var] of attribute [ix] *)

Definition is_null (p : data_ptr) : bool :=
  match p with NULL => true | _ => false end.

Record ble_gatts_evt_write_t := {
  wr_uuid : ble_uuid_t;
  wr_op : ble_gatts_op;
  wr_offset : Z;
  wr_len : Z;
  wr_data : list Z
}.

Record ble_gatts_evt_read_t := {
  rd_uuid : ble_uuid_t;
  rd_offset : Z
}.

(** [ble_gatts_rw_authorize_reply_params_t]: both members of the union have
    the same fields. *)
Record ble_gatts_rw_authorize_reply_params_t := {
  reply_type : authorize_type;
  gatt_status : gatt_status_t;
  update : bool;
  reply_offset : Z;
  reply_len : Z;
  p_data : data_ptr
}.

Inductive ble_gatts_evt_rw_authorize_request_t :=
| AUTHORIZE_WRITE (wr : ble_gatts_evt_write_t)
| AUTHORIZE_READ (rd : ble_gatts_evt_read_t)
| AUTHORIZE_INVALID.

(** The events [_adv_ble_evt_handler] tells apart, with the parameters it
    reads. *)
Inductive ble_evt_id :=
| BLE_GAP_EVT_CONNECTED
| BLE_GAP_EVT_DISCONNECTED
| BLE_GAP_EVT_TIMEOUT
| BLE_GAP_EVT_ADV_SET_TERMINATED
| BLE_GAP_EVT_CONN_PARAM_UPDATE
| BLE_EVT_USER_MEM_REQUEST
| BLE_GATTC_EVT_TIMEOUT
| BLE_GATTS_EVT_SYS_ATTR_MISSING
| BLE_GATTS_EVT_TIMEOUT
| BLE_GATTS_EVT_RW_AUTHORIZE_REQUEST
    (req : ble_gatts_evt_rw_authorize_request_t)
| BLE_GATTS_EVT_WRITE (wr : ble_gatts_evt_write_t)
| BLE_GATTS_EVT_HVN_TX_COMPLETE
| BLE_EVT_OTHER (id : Z).

Record ble_evt_t := { evt_id : ble_evt_id; conn_handle : Z }.

Inductive ble_adv_evt_t : Set :=
| BLE_ADV_EVT_IDLE
| BLE_ADV_EVT_DIRECTED_HIGH_DUTY
| BLE_ADV_EVT_DIRECTED
| BLE_ADV_EVT_FAST
| BLE_ADV_EVT_SLOW
| BLE_ADV_EVT_FAST_WHITELIST
| BLE_ADV_EVT_SLOW_WHITELIST
| BLE_ADV_EVT_WHITELIST_REQUEST
| BLE_ADV_EVT_PEER_ADDR_REQUEST.

(** ** Data model of the module *)

(** [struct adv_ble_attribute].  A writer receives the payload and its
    length and returns a completion code; a reader receives the attribute and
    may set its meaningful length: it maps the length on entry to the
    completion code and the length on exit. *)
Record adv_ble_attribute := {
  pa_uuid : ble_uuid_t;
  pa_size : Z;
  pa_length : Z;
  pa_reader : option (Z -> Z * Z);
  pa_writer : option (list Z -> Z -> Z);
  pa_varsize : bool
}.

Definition set_pa_length (n : Z) (a : adv_ble_attribute) : adv_ble_attribute :=
  {| pa_uuid := pa_uuid a; pa_size := pa_size a; pa_length := n;
     pa_reader := pa_reader a; pa_writer := pa_writer a;
     pa_varsize := pa_varsize a |}.

(** What a read through a pointer outside the table yields in the model. *)
#[global] Instance adv_ble_attribute_inhabited : Inhabited adv_ble_attribute :=
  populate {| pa_uuid := {| uuid := 0; uuid_type := 0 |}; pa_size := 0;
              pa_length := 0; pa_reader := None; pa_writer := None;
              pa_varsize := false |}.

(** [struct pa_error_desc] *)
Record pa_error_desc := {
  pe_errno : Z;
  pe_attr : Z;
  pe_state : Z;
  pe_comp : Z;
  pe_payload : Z
}.

(** [struct adv_ble_attr_event] *)
Record adv_ble_attr_event := {
  ae_data : data_ptr;
  ae_length : Z;
  ae_offset : Z;
  ae_attr : option nat
}.

(** The record after [memset(.., 0, ..)], or after the four fields are reset. *)
Definition no_event : adv_ble_attr_event :=
  {| ae_data := NULL; ae_length := 0; ae_offset := 0; ae_attr := None |}.

(** [struct adv_ble_worker_engine] *)
Record adv_ble_worker_engine := {
  we_enable : bool;
  we_running : bool;
  we_time : Z;
  we_last_time : Z;
  we_worker_ix : Z
}.

(** Calls that leave the module. *)
Inductive call :=
| sd_ble_gatts_rw_authorize_reply
    (conn : Z) (reply : ble_gatts_rw_authorize_reply_params_t)
| sd_ble_gap_disconnect (conn : Z)
| sd_ble_user_mem_reply (conn : Z)
| sd_ble_gatts_sys_attr_set (conn : Z)
| ble_advertising_start (mode : ble_adv_mode)
| pa_writer_call (ix : nat) (buf : list Z) (length : Z)
| pa_reader_call (ix : nat).

(** [_adv_ble], [_adv_ble_var], [_adv_ble_worker_engine], the fast
    advertising timeout of [_adv_ble_advertising], and the environment. *)
Record machine := {
  bp_attributes : list adv_ble_attribute;
  bp_conn_handle : Z;
  bp_attr_event : adv_ble_attr_event;
  bp_entering_sleep : bool;
  bp_reboot : bool;
  pv_error : pa_error_desc;
  pv_transient : list Z;
  worker_engine : adv_ble_worker_engine;
  ble_adv_fast_timeout : Z;
  calls : list call;
  softdevice : list call -> call -> Z
}.

(** Field updates of [machine]. *)
Definition set_attributes (v : list adv_ble_attribute) (s : machine) : machine :=
  {| bp_attributes := v; bp_conn_handle := bp_conn_handle s;
     bp_attr_event := bp_attr_event s;
     bp_entering_sleep := bp_entering_sleep s; bp_reboot := bp_reboot s;
     pv_error := pv_error s; pv_transient := pv_transient s;
     worker_engine := worker_engine s;
     ble_adv_fast_timeout := ble_adv_fast_timeout s; calls := calls s;
     softdevice := softdevice s |}.

Definition set_conn_handle (v : Z) (s : machine) : machine :=
  {| bp_attributes := bp_attributes s; bp_conn_handle := v;
     bp_attr_event := bp_attr_event s;
     bp_entering_sleep := bp_entering_sleep s; bp_reboot := bp_reboot s;
     pv_error := pv_error s; pv_transient := pv_transient s;
     worker_engine := worker_engine s;
     ble_adv_fast_timeout := ble_adv_fast_timeout s; calls := calls s;
     softdevice := softdevice s |}.

Definition set_attr_event (v : adv_ble_attr_event) (s : machine) : machine :=
  {| bp_attributes := bp_attributes s; bp_conn_handle := bp_conn_handle s;
     bp_attr_event := v;
     bp_entering_sleep := bp_entering_sleep s; bp_reboot := bp_reboot s;
     pv_error := pv_error s; pv_transient := pv_transient s;
     worker_engine := worker_engine s;
     ble_adv_fast_timeout := ble_adv_fast_timeout s; calls := calls s;
     softdevice := softdevice s |}.

Definition set_entering_sleep (v : bool) (s : machine) : machine :=
  {| bp_attributes := bp_attributes s; bp_conn_handle := bp_conn_handle s;
     bp_attr_event := bp_attr_event s;
     bp_entering_sleep := v; bp_reboot := bp_reboot s;
     pv_error := pv_error s; pv_transient := pv_transient s;
     worker_engine := worker_engine s;
     ble_adv_fast_timeout := ble_adv_fast_timeout s; calls := calls s;
     softdevice := softdevice s |}.

Definition set_reboot (v : bool) (s : machine) : machine :=
  {| bp_attributes := bp_attributes s; bp_conn_handle := bp_conn_handle s;
     bp_attr_event := bp_attr_event s;
     bp_entering_sleep := bp_entering_sleep s; bp_reboot := v;
     pv_error := pv_error s; pv_transient := pv_transient s;
     worker_engine := worker_engine s;
     ble_adv_fast_timeout := ble_adv_fast_timeout s; calls := calls s;
     softdevice := softdevice s |}.

Definition set_pv_error (v : pa_error_desc) (s : machine) : machine :=
  {| bp_attributes := bp_attributes s; bp_conn_handle := bp_conn_handle s;
     bp_attr_event := bp_attr_event s;
     bp_entering_sleep := bp_entering_sleep s; bp_reboot := bp_reboot s;
     pv_error := v; pv_transient := pv_transient s;
     worker_engine := worker_engine s;
     ble_adv_fast_timeout := ble_adv_fast_timeout s; calls := calls s;
     softdevice := softdevice s |}.

Definition set_pv_transient (v : list Z) (s : machine) : machine :=
  {| bp_attributes := bp_attributes s; bp_conn_handle := bp_conn_handle s;
     bp_attr_event := bp_attr_event s;
     bp_entering_sleep := bp_entering_sleep s; bp_reboot := bp_reboot s;
     pv_error := pv_error s; pv_transient := v;
     worker_engine := worker_engine s;
     ble_adv_fast_timeout := ble_adv_fast_timeout s; calls := calls s;
     softdevice := softdevice s |}.

Definition set_worker_engine (v : adv_ble_worker_engine) (s : machine) : machine :=
  {| bp_attributes := bp_attributes s; bp_conn_handle := bp_conn_handle s;
     bp_attr_event := bp_attr_event s;
     bp_entering_sleep := bp_entering_sleep s; bp_reboot := bp_reboot s;
     pv_error := pv_error s; pv_transient := pv_transient s;
     worker_engine := v;
     ble_adv_fast_timeout := ble_adv_fast_timeout s; calls := calls s;
     softdevice := softdevice s |}.

Definition set_fast_timeout (v : Z) (s : machine) : machine :=
  {| bp_attributes := bp_attributes s; bp_conn_handle := bp_conn_handle s;
     bp_attr_event := bp_attr_event s;
     bp_entering_sleep := bp_entering_sleep s; bp_reboot := bp_reboot s;
     pv_error := pv_error s; pv_transient := pv_transient s;
     worker_engine := worker_engine s;
     ble_adv_fast_timeout := v; calls := calls s;
     softdevice := softdevice s |}.

(** Record one more outgoing call. *)
Definition log (c : call) (s : machine) : machine :=
  {| bp_attributes := bp_attributes s; bp_conn_handle := bp_conn_handle s;
     bp_attr_event := bp_attr_event s;
     bp_entering_sleep := bp_entering_sleep s; bp_reboot := bp_reboot s;
     pv_error := pv_error s; pv_transient := pv_transient s;
     worker_engine := worker_engine s;
     ble_adv_fast_timeout := ble_adv_fast_timeout s;
     calls := calls s ++ [c];
     softdevice := softdevice s |}.

(** ** Operations that may end in the fault handler *)

Inductive outcome (A : Type) : Type :=
| Ret (a : A) (s : machine)       (**< the function returns *)
| Fault (err : Z) (s : machine).  (**< [app_error_fault_handler], no return *)

Arguments Ret {A} a s.
Arguments Fault {A} err s.

Definition M (A : Type) : Type := machine -> outcome A.

#[global] Instance M_ret : MRet M := fun A a s => Ret a s.
#[global] Instance M_bind : MBind M := fun A B k m s =>
  match m s with
  | Ret a s' => k a s'
  | Fault err s' => Fault err s'
  end.

(** The machine an outcome ends in, and whether control came back. *)
Definition final {A} (o : outcome A) : machine :=
  match o with Ret _ s => s | Fault _ s => s end.

Definition returned {A} (o : outcome A) : bool :=
  match o with Ret _ _ => true | Fault _ _ => false end.

Definition get : M machine := fun s => Ret s s.
Definition modify (f : machine -> machine) : M unit := fun s => Ret tt (f s).

(** Call a SoftDevice service: the call is issued, its status comes back. *)
Definition sd (c : call) : M Z :=
  fun s => Ret (softdevice s (calls s) c) (log c s).

Definition APP_ERROR_CHECK (err_code : Z) : M unit :=
  fun s => if err_code =? NRF_SUCCESS then Ret tt s else Fault err_code s.

(** ** Attribute identifiers ([enum adv_ble_attr]) *)

Definition ADV_ERROR : nat := 0.
Definition ADV_COUNT (s : machine) : nat := length (bp_attributes s).
Definition ADV_FIRST : nat := 0.
Definition ADV_LAST (s : machine) : nat := ADV_COUNT s.

(** [_adv_ble_attribute_char]: index of an attribute pointer, [ADV_COUNT]
    for a null pointer or one outside the table. *)
Definition _adv_ble_attribute_char (s : machine) (pa_attr : option nat) : nat :=
  match pa_attr with
  | None => ADV_COUNT s
  | Some ix => if (ix <? ADV_COUNT s)%nat then ix else ADV_COUNT s
  end.

(** [_adv_ble_get_attribute] *)
Definition _adv_ble_get_attribute (pa_char : nat) : M nat :=
  s ← get;
  if (ADV_FIRST <=? pa_char)%nat && (pa_char <? ADV_LAST s)%nat
  then mret pa_char
  else APP_ERROR_CHECK NRF_FAULT_ID_SDK_ASSERT;; mret pa_char.

(** [_adv_ble_set_error_on_attr]; the storage of [ADV_ERROR] is [pv_error]. *)
Definition _adv_ble_set_error_on_attr (errno : Z) (pa_char : nat) : M nat :=
  s ← get;
  let pa_char :=
    if (pa_char <? ADV_FIRST)%nat || (ADV_LAST s <=? pa_char)%nat
    then ADV_ERROR else pa_char in
  _ ← _adv_ble_get_attribute pa_char;
  pa_error ← _adv_ble_get_attribute ADV_ERROR;
  modify (fun s =>
    set_pv_error {| pe_errno := int8 errno;
                    pe_attr := uint8 (Z.of_nat pa_char);
                    pe_state := pe_state (pv_error s);
                    pe_comp := pe_comp (pv_error s);
                    pe_payload := pe_payload (pv_error s) |} s);;
  mret pa_error.

(** [_adv_ble_retrieve_attribute]: the attribute of a UUID, if any.  The
    index the source also hands back through [pa_char] is the pointer. *)
Definition _adv_ble_retrieve_attribute (ble_uuid : ble_uuid_t) : M (option nat) :=
  s ← get;
  if (uuid ble_uuid <? ADV_CHAR_UUID_BASE)
     || negb (uuid_type ble_uuid =? BLE_UUID_TYPE_VENDOR_BEGIN)
  then _adv_ble_set_error_on_attr (- PE_INVALID_UUID) ADV_ERROR;; mret None
  else
    let attr_ix := uint16 (uuid ble_uuid - ADV_CHAR_UUID_BASE) in
    if Z.of_nat (ADV_COUNT s) <=? attr_ix
    then _adv_ble_set_error_on_attr (- PE_INVALID_UUID) ADV_ERROR;; mret None
    else mret (Some (Z.to_nat attr_ix)).

(** [_adv_ble_write_attr] *)
Definition _adv_ble_write_attr (wr_evt : ble_gatts_evt_write_t) : M unit :=
  if uuid_type (wr_uuid wr_evt) =? BLE_UUID_TYPE_BLE
  then mret tt
  else _adv_ble_retrieve_attribute (wr_uuid wr_evt);; mret tt.

(** ** Background worker engine *)

Definition set_we_enable (v : bool) (we : adv_ble_worker_engine) :=
  {| we_enable := v; we_running := we_running we; we_time := we_time we;
     we_last_time := we_last_time we; we_worker_ix := we_worker_ix we |}.

Definition set_we_running (v : bool) (we : adv_ble_worker_engine) :=
  {| we_enable := we_enable we; we_running := v; we_time := we_time we;
     we_last_time := we_last_time we; we_worker_ix := we_worker_ix we |}.

Definition set_we_time (v : Z) (we : adv_ble_worker_engine) :=
  {| we_enable := we_enable we; we_running := we_running we; we_time := v;
     we_last_time := we_last_time we; we_worker_ix := we_worker_ix we |}.

Definition set_we_last_time (v : Z) (we : adv_ble_worker_engine) :=
  {| we_enable := we_enable we; we_running := we_running we;
     we_time := we_time we; we_last_time := v;
     we_worker_ix := we_worker_ix we |}.

Definition set_we_worker_ix (v : Z) (we : adv_ble_worker_engine) :=
  {| we_enable := we_enable we; we_running := we_running we;
     we_time := we_time we; we_last_time := we_last_time we;
     we_worker_ix := v |}.

Definition on_worker_engine
    (f : adv_ble_worker_engine -> adv_ble_worker_engine) (s : machine) :=
  set_worker_engine (f (worker_engine s)) s.

(** [_adv_ble_worker_update_ble_status] *)
Definition _adv_ble_worker_update_ble_status (active : bool) (s : machine) :=
  if negb active
  then on_worker_engine (set_we_enable true) s
  else on_worker_engine (set_we_enable false) s.

(** [_adv_ble_worker_feed] *)
Definition _adv_ble_worker_feed (s : machine) : machine :=
  on_worker_engine (fun we => set_we_last_time (we_time we) we) s.

(** [_adv_ble_worker_run_next]: [BW_COUNT] is 0, no worker is defined. *)
Definition _adv_ble_worker_run_next (s : machine) : machine :=
  on_worker_engine (set_we_running false) s.

(** [_adv_ble_disconnect]: the status of the service is only traced. *)
Definition _adv_ble_disconnect (s : machine) : machine :=
  if negb (bp_conn_handle s =? BLE_CONN_HANDLE_INVALID)
  then log (sd_ble_gap_disconnect (bp_conn_handle s)) s
  else s.

(** [_adv_ble_worker_timer_cb] *)
Definition _adv_ble_worker_timer_cb (s : machine) : machine :=
  let s :=
    on_worker_engine
      (fun we => set_we_time (uint32 (we_time we + ADV_BLE_WORKER_PACE_S)) we)
      s in
  let we := worker_engine s in
  if negb (we_enable we) then
    if ADV_BLE_STALL_DELAY_S <? uint32 (we_time we - we_last_time we) then
      if negb (bp_conn_handle s =? BLE_CONN_HANDLE_INVALID)
      then _adv_ble_disconnect s
      else s
    else s
  else if we_running we then s
  else
    let s := on_worker_engine (set_we_running true) s in
    let s := on_worker_engine (set_we_worker_ix 0) s in
    _adv_ble_worker_run_next s.

(** [_adv_ble_handle_disconnect] *)
Definition _adv_ble_handle_disconnect (s : machine) : machine :=
  set_attr_event no_event s.

(** [_adv_ble_enter_sleep]; the restored value is
    [_ADV_BLE_ADVERTISE_INIT.config.ble_adv_fast_timeout]. *)
Definition _adv_ble_enter_sleep (s : machine) : machine :=
  set_entering_sleep true (set_fast_timeout ADV_BLE_SLEEP_DELAY_S s).

(** [_adv_ble_adv_event_handler]; the status of [ble_advertising_start] is
    dropped by the source. *)
Definition _adv_ble_adv_event_handler (ble_adv_evt : ble_adv_evt_t)
    (s : machine) : machine :=
  match ble_adv_evt with
  | BLE_ADV_EVT_IDLE => log (ble_advertising_start BLE_ADV_MODE_SLOW) s
  | BLE_ADV_EVT_SLOW => _adv_ble_enter_sleep s
  | _ => s
  end.

(** ** Write path *)

(** The bytes a data pointer designates. *)
Definition bytes_at (s : machine) (p : data_ptr) : list Z :=
  match p with
  | EVT_DATA bytes => bytes
  | PV_TRANSIENT => pv_transient s
  | _ => []
  end.

(** [memcpy(dst, src, n)] on the arrays the pointers designate. *)
Definition memcpy (dst src : list Z) (n : Z) : list Z :=
  take (Z.to_nat n) src ++ drop (Z.to_nat n) dst.

Definition set_ae_data (p : data_ptr) (e : adv_ble_attr_event) :=
  {| ae_data := p; ae_length := ae_length e; ae_offset := ae_offset e;
     ae_attr := ae_attr e |}.

Definition set_ae_length (n : Z) (e : adv_ble_attr_event) :=
  {| ae_data := ae_data e; ae_length := n; ae_offset := ae_offset e;
     ae_attr := ae_attr e |}.

Definition set_ae_offset (n : Z) (e : adv_ble_attr_event) :=
  {| ae_data := ae_data e; ae_length := ae_length e; ae_offset := n;
     ae_attr := ae_attr e |}.

Definition set_ae_attr (a : option nat) (e : adv_ble_attr_event) :=
  {| ae_data := ae_data e; ae_length := ae_length e; ae_offset := ae_offset e;
     ae_attr := a |}.

Definition on_attr_event
    (f : adv_ble_attr_event -> adv_ble_attr_event) (s : machine) :=
  set_attr_event (f (bp_attr_event s)) s.

(** [event->ae_data || event->ae_attr] *)
Definition event_in_flight (e : adv_ble_attr_event) : bool :=
  negb (is_null (ae_data e)) || bool_decide (is_Some (ae_attr e)).

(** [_adv_ble_write_attribute] *)
Definition _adv_ble_write_attribute (pa_attr : nat)
    (wr_evt : ble_gatts_evt_write_t) : M Z :=
  s ← get;
  let attr := bp_attributes s !!! pa_attr in
  if negb (bool_decide (wr_op wr_evt = BLE_GATTS_OP_WRITE_REQ))
  then mret (- PE_INVALID_COMMAND)
  else if negb (wr_offset wr_evt =? 0)
  then mret (- PE_NOT_SUPPORTED)
  else if pa_varsize attr && (pa_size attr <? wr_len wr_evt)
  then mret (- PE_OVERFLOW)
  else if negb (pa_varsize attr) && negb (wr_len wr_evt =? pa_size attr)
  then mret (- PE_INVALID_REQUEST)
  else
    match pa_writer attr with
    | None => mret (- PE_READ_ONLY)
    | Some writer =>
      if event_in_flight (bp_attr_event s)
      then mret (- PE_BUSY)
      else
        modify _adv_ble_worker_feed;;
        modify (set_attr_event
                  {| ae_data := EVT_DATA (wr_data wr_evt);
                     ae_length := wr_len wr_evt;
                     ae_offset := wr_offset wr_evt;
                     ae_attr := Some pa_attr |});;
        if SIZEOF_pv_transient <? wr_len wr_evt
        then mret (- PE_NOT_SUPPORTED)
        else
          modify (log (pa_writer_call pa_attr (wr_data wr_evt)
                         (wr_len wr_evt)));;
          let rc := writer (wr_data wr_evt) (wr_len wr_evt) in
          (if rc =? PE_DEFERRED then
             s ← get;
             let event := bp_attr_event s in
             if 0 <? ae_length event then
               modify (set_pv_transient
                         (memcpy (pv_transient s)
                                 (bytes_at s (ae_data event))
                                 (ae_length event)));;
               modify (on_attr_event (set_ae_data PV_TRANSIENT))
             else
               modify (on_attr_event (set_ae_data NULL));;
               modify (on_attr_event (set_ae_length 0))
           else mret tt);;
          mret rc
    end.

(** [event->ae_attr->pa_length = n] *)
Definition store_pa_length (pa_attr : option nat) (n : Z) (s : machine) :=
  match pa_attr with
  | Some ix => set_attributes (alter (set_pa_length n) ix (bp_attributes s)) s
  | None => s
  end.

(** [_adv_ble_complete_write_req] *)
Definition _adv_ble_complete_write_req (retcode : Z) : M unit :=
  s ← get;
  let event := bp_attr_event s in
  let retcode :=
    if is_null (ae_data event) || negb (bool_decide (is_Some (ae_attr event)))
    then - PE_INTERNAL else retcode in
  gatt_status ←
    (if retcode <? 0 then
       if negb (retcode =? - PE_ABORT) then
         let pa_char := _adv_ble_attribute_char s (ae_attr event) in
         _adv_ble_set_error_on_attr retcode pa_char;;
         mret BLE_GATT_STATUS_ATTERR_WRITE_NOT_PERMITTED
       else mret BLE_GATT_STATUS_ATTERR_UNLIKELY_ERROR
     else
       modify (store_pa_length (ae_attr event)
                 (ae_length event + ae_offset event));;
       mret BLE_GATT_STATUS_SUCCESS);
  let auth_reply :=
    {| reply_type := BLE_GATTS_AUTHORIZE_TYPE_WRITE;
       gatt_status := gatt_status;
       update := retcode =? PE_NO_ERROR;
       reply_offset := ae_offset event;
       reply_len := ae_length event;
       p_data := ae_data event |} in
  modify (set_attr_event no_event);;
  s ← get;
  errcode ← sd (sd_ble_gatts_rw_authorize_reply (bp_conn_handle s) auth_reply);
  APP_ERROR_CHECK errcode.

(** [_adv_ble_write_req] *)
Definition _adv_ble_write_req (wr_evt : ble_gatts_evt_write_t) : M unit :=
  match wr_op wr_evt with
  | BLE_GATTS_OP_PREP_WRITE_REQ
  | BLE_GATTS_OP_EXEC_WRITE_REQ_NOW
  | BLE_GATTS_OP_EXEC_WRITE_REQ_CANCEL =>
    let auth_reply :=
      {| reply_type := BLE_GATTS_AUTHORIZE_TYPE_WRITE;
         gatt_status := APP_FEATURE_NOT_SUPPORTED;
         update := false; reply_offset := 0; reply_len := 0;
         p_data := NULL |} in
    s ← get;
    errcode ← sd (sd_ble_gatts_rw_authorize_reply (bp_conn_handle s)
                    auth_reply);
    APP_ERROR_CHECK errcode
  | _ =>
    let rc := - PE_INVALID_UUID in
    pa_attr ← _adv_ble_retrieve_attribute (wr_uuid wr_evt);
    s ← get;
    let '(pa_attr, rc) :=
      if bp_entering_sleep s then (None, - PE_ABORT) else (pa_attr, rc) in
    (* [None]: the function has returned on a deferred completion *)
    pending ←
      match pa_attr with
      | Some ix =>
        rc ← _adv_ble_write_attribute ix wr_evt;
        if rc =? PE_DEFERRED then mret None else mret (Some rc)
      | None => mret (Some rc)
      end;
    match pending with
    | None => mret tt
    | Some rc =>
      _adv_ble_complete_write_req rc;;
      s ← get;
      if (rc =? 0) && bp_reboot s
      then modify _adv_ble_disconnect
      else mret tt
    end
  end.

(** ** Read path *)

(** The attribute a (non-null) attribute pointer designates. *)
Definition attribute_at (s : machine) (pa_attr : option nat) : adv_ble_attribute :=
  match pa_attr with
  | Some ix => bp_attributes s !!! ix
  | None => inhabitant
  end.

Definition var_of (pa_attr : option nat) : data_ptr :=
  match pa_attr with
  | Some ix => PA_VAR ix
  | None => NULL
  end.

(** [_adv_ble_complete_read_req] *)
Definition _adv_ble_complete_read_req (retcode : Z) : M unit :=
  s ← get;
  let event := bp_attr_event s in
  let retcode :=
    if negb (bool_decide (is_Some (ae_attr event)))
    then - PE_INTERNAL else retcode in
  let retcode :=
    if retcode =? 0 then
      if pa_length (attribute_at s (ae_attr event)) =? 0
      then - PE_INTERNAL else retcode
    else retcode in
  errcode ←
    (if retcode =? 0 then
       let reply_auth :=
         {| reply_type := BLE_GATTS_AUTHORIZE_TYPE_READ;
            gatt_status := BLE_GATT_STATUS_SUCCESS;
            update := true;
            reply_offset := 0;
            reply_len := uint16 (pa_length (attribute_at s (ae_attr event)));
            p_data := var_of (ae_attr event) |} in
       sd (sd_ble_gatts_rw_authorize_reply (bp_conn_handle s) reply_auth)
     else
       gatt_status ←
         (if negb (retcode =? - PE_ABORT) then
            let pa_char := _adv_ble_attribute_char s (ae_attr event) in
            _adv_ble_set_error_on_attr retcode pa_char;;
            mret BLE_GATT_STATUS_ATTERR_READ_NOT_PERMITTED
          else mret BLE_GATT_STATUS_ATTERR_UNLIKELY_ERROR);
       let reply_auth :=
         {| reply_type := BLE_GATTS_AUTHORIZE_TYPE_READ;
            gatt_status := gatt_status;
            update := false; reply_offset := 0; reply_len := 0;
            p_data := NULL |} in
       sd (sd_ble_gatts_rw_authorize_reply (bp_conn_handle s) reply_auth));
  APP_ERROR_CHECK errcode;;
  modify (set_attr_event no_event).

(** Run the reader of attribute [ix] on the attribute itself. *)
Definition run_reader (ix : nat) (reader : Z -> Z * Z) : M Z :=
  s ← get;
  modify (log (pa_reader_call ix));;
  let '(rc, n) := reader (pa_length (bp_attributes s !!! ix)) in
  modify (store_pa_length (Some ix) n);;
  mret rc.

(** [_adv_ble_read_req] *)
Definition _adv_ble_read_req (rd_evt : ble_gatts_evt_read_t) : M unit :=
  let rc := - PE_INTERNAL in
  pa_attr ← _adv_ble_retrieve_attribute (rd_uuid rd_evt);
  let rc := if pa_attr is None then - PE_INVALID_UUID else rc in
  let '(pa_attr, rc) :=
    if negb (rd_offset rd_evt =? 0)
    then (None, - PE_NOT_SUPPORTED) else (pa_attr, rc) in
  s ← get;
  let '(pa_attr, rc) :=
    if bp_entering_sleep s then (None, - PE_ABORT) else (pa_attr, rc) in
  let '(pa_attr, rc) :=
    if event_in_flight (bp_attr_event s)
    then (None, - PE_BUSY) else (pa_attr, rc) in
  (* [None]: the function has returned on a deferred completion *)
  pending ←
    match pa_attr with
    | Some ix =>
      modify _adv_ble_worker_feed;;
      modify (on_attr_event (set_ae_attr (Some ix)));;
      let attr := bp_attributes s !!! ix in
      modify (store_pa_length (Some ix)
                (if pa_varsize attr then 0 else pa_size attr));;
      match pa_reader attr with
      | Some reader =>
        modify (on_attr_event (set_ae_data NULL));;
        modify (on_attr_event (set_ae_length 0));;
        modify (on_attr_event (set_ae_offset 0));;
        rc ← run_reader ix reader;
        if rc =? PE_DEFERRED then mret None else mret (Some rc)
      | None => mret (Some (PE_NO_ERROR : Z))
      end
    | None => mret (Some rc)
    end;
  match pending with
  | None => mret tt
  | Some rc => _adv_ble_complete_read_req rc
  end.

(** ** Event dispatch *)

(** [_adv_ble_evt_handler] *)
Definition _adv_ble_evt_handler (ble_evt : ble_evt_t) : M unit :=
  let dispatch : M unit :=
    match evt_id ble_evt with
    | BLE_GAP_EVT_CONNECTED =>
      modify (set_reboot false);;
      modify (_adv_ble_worker_update_ble_status true);;
      modify (set_conn_handle (conn_handle ble_evt));;
      modify (set_fast_timeout ADV_BLE_SLEEP_DELAY_S)
    | BLE_GAP_EVT_DISCONNECTED =>
      modify (set_conn_handle BLE_CONN_HANDLE_INVALID);;
      modify _adv_ble_handle_disconnect
    | BLE_GAP_EVT_TIMEOUT => mret tt
    | BLE_GAP_EVT_CONN_PARAM_UPDATE => mret tt
    | BLE_EVT_USER_MEM_REQUEST =>
      rc ← sd (sd_ble_user_mem_reply (conn_handle ble_evt));
      APP_ERROR_CHECK rc
    | BLE_GATTC_EVT_TIMEOUT =>
      rc ← sd (sd_ble_gap_disconnect (conn_handle ble_evt));
      APP_ERROR_CHECK rc
    | BLE_GATTS_EVT_SYS_ATTR_MISSING =>
      rc ← sd (sd_ble_gatts_sys_attr_set (conn_handle ble_evt));
      APP_ERROR_CHECK rc
    | BLE_GATTS_EVT_TIMEOUT =>
      rc ← sd (sd_ble_gap_disconnect (conn_handle ble_evt));
      APP_ERROR_CHECK rc
    | BLE_GATTS_EVT_RW_AUTHORIZE_REQUEST req =>
      match req with
      | AUTHORIZE_WRITE wr => _adv_ble_write_req wr
      | AUTHORIZE_READ rd => _adv_ble_read_req rd
      | AUTHORIZE_INVALID => mret tt
      end
    | BLE_GATTS_EVT_WRITE wr =>
      modify _adv_ble_worker_feed;;
      _adv_ble_write_attr wr
    | BLE_GATTS_EVT_HVN_TX_COMPLETE => mret tt
    | _ => mret tt
    end in
  s ← get;
  if bp_conn_handle s =? BLE_CONN_HANDLE_INVALID then
    match evt_id ble_evt with
    | BLE_GAP_EVT_CONNECTED => dispatch
    | BLE_GAP_EVT_TIMEOUT => mret tt
    | BLE_GAP_EVT_ADV_SET_TERMINATED => mret tt
    | BLE_GAP_EVT_DISCONNECTED => modify _adv_ble_handle_disconnect
    | BLE_GATTS_EVT_HVN_TX_COMPLETE => mret tt
    | _ => mret tt
    end
  else
    (if negb (conn_handle ble_evt =? bp_conn_handle s) then
       if negb (conn_handle ble_evt =? BLE_CONN_HANDLE_INVALID) then
         rc ← sd (sd_ble_gap_disconnect (conn_handle ble_evt));
         APP_ERROR_CHECK rc
       else mret tt
     else mret tt);;
    dispatch.

(** ** The attribute table of the repository and test tables *)

(** [_adv_ble.bp_attributes]: the only entry is [ADV_ERROR], read-on-demand,
    of fixed size, with neither reader nor writer. *)
Definition adv_error_attribute : adv_ble_attribute :=
  {| pa_uuid := {| uuid := ADV_CHAR_UUID_BASE + Z.of_nat ADV_ERROR;
                   uuid_type := 0 |};
     pa_size := SIZEOF_pv_error; pa_length := 0;
     pa_reader := None; pa_writer := None; pa_varsize := false |}.

Definition no_error_desc : pa_error_desc :=
  {| pe_errno := 0; pe_attr := 0; pe_state := 0; pe_comp := 0;
     pe_payload := 0 |}.

(** The machine after [adv_ble_init] and [adv_ble_start], with the given
    table and a SoftDevice that accepts every call. *)
Definition machine_start (attributes : list adv_ble_attribute) : machine :=
  {| bp_attributes := attributes;
     bp_conn_handle := BLE_CONN_HANDLE_INVALID;
     bp_attr_event := no_event;
     bp_entering_sleep := false; bp_reboot := false;
     pv_error := no_error_desc;
     pv_transient := repeat 0 16;
     worker_engine :=
       {| we_enable := false; we_running := false; we_time := 0;
          we_last_time := 0; we_worker_ix := 0 |};
     ble_adv_fast_timeout := ADV_BLE_SLEEP_DELAY_S;
     calls := [];
     softdevice := fun _ _ => NRF_SUCCESS |}.

Definition adv_ble_start : machine := machine_start [adv_error_attribute].

(** ** Vocabulary of the properties *)

(** The operation ended with the SoftDevice call [c], issued from a machine
    with the calls of [s], and came back exactly when the SoftDevice
    accepted that call. *)
Definition replies (s : machine) (o : outcome unit) (c : call) : Prop :=
  calls (final o) = calls s ++ [c] /\
  returned o = (softdevice s (calls s) c =? NRF_SUCCESS).

Definition on_return {A} (o : outcome A) (P : machine -> Prop) : Prop :=
  match o with
  | Ret _ s' => P s'
  | Fault _ _ => True
  end.

(** The attribute identifier [_adv_ble_set_error_on_attr] stores. *)
Definition clamp_char (s : machine) (pa_char : nat) : nat :=
  if (ADV_LAST s <=? pa_char)%nat then ADV_ERROR else pa_char.

(** The error record after [errno] is stored for [pa_char]. *)
Definition error_desc (s : machine) (errno : Z) (pa_char : nat) : pa_error_desc :=
  {| pe_errno := int8 errno; pe_attr := uint8 (Z.of_nat pa_char);
     pe_state := pe_state (pv_error s); pe_comp := pe_comp (pv_error s);
     pe_payload := pe_payload (pv_error s) |}.

(** The completion code [_adv_ble_complete_write_req] goes on with. *)
Definition write_retcode (s : machine) (retcode : Z) : Z :=
  let event := bp_attr_event s in
  if is_null (ae_data event) || negb (bool_decide (is_Some (ae_attr event)))
  then - PE_INTERNAL else retcode.

(** The reply it sends. *)
Definition write_reply (s : machine) (retcode : Z) : call :=
  let event := bp_attr_event s in
  let rc := write_retcode s retcode in
  sd_ble_gatts_rw_authorize_reply (bp_conn_handle s)
    {| reply_type := BLE_GATTS_AUTHORIZE_TYPE_WRITE;
       gatt_status :=
         if rc <? 0 then
           if negb (rc =? - PE_ABORT)
           then BLE_GATT_STATUS_ATTERR_WRITE_NOT_PERMITTED
           else BLE_GATT_STATUS_ATTERR_UNLIKELY_ERROR
         else BLE_GATT_STATUS_SUCCESS;
       update := rc =? PE_NO_ERROR;
       reply_offset := ae_offset event;
       reply_len := ae_length event;
       p_data := ae_data event |}.

(** The machine it leaves, before the pending record is reset. *)
Definition write_outcome (s : machine) (retcode : Z) : machine :=
  let event := bp_attr_event s in
  let rc := write_retcode s retcode in
  if rc <? 0 then
    if negb (rc =? - PE_ABORT)
    then set_pv_error
           (error_desc s rc
              (clamp_char s (_adv_ble_attribute_char s (ae_attr event)))) s
    else s
  else store_pa_length (ae_attr event) (ae_length event + ae_offset event) s.

(** The same three for [_adv_ble_complete_read_req]. *)
Definition read_retcode (s : machine) (retcode : Z) : Z :=
  let event := bp_attr_event s in
  let retcode :=
    if negb (bool_decide (is_Some (ae_attr event)))
    then - PE_INTERNAL else retcode in
  if retcode =? 0 then
    if pa_length (attribute_at s (ae_attr event)) =? 0
    then - PE_INTERNAL else retcode
  else retcode.

Definition read_reply (s : machine) (retcode : Z) : call :=
  let event := bp_attr_event s in
  let rc := read_retcode s retcode in
  sd_ble_gatts_rw_authorize_reply (bp_conn_handle s)
    (if rc =? 0 then
       {| reply_type := BLE_GATTS_AUTHORIZE_TYPE_READ;
          gatt_status := BLE_GATT_STATUS_SUCCESS;
          update := true; reply_offset := 0;
          reply_len := uint16 (pa_length (attribute_at s (ae_attr event)));
          p_data := var_of (ae_attr event) |}
     else
       {| reply_type := BLE_GATTS_AUTHORIZE_TYPE_READ;
          gatt_status :=
            if negb (rc =? - PE_ABORT)
            then BLE_GATT_STATUS_ATTERR_READ_NOT_PERMITTED
            else BLE_GATT_STATUS_ATTERR_UNLIKELY_ERROR;
          update := false; reply_offset := 0; reply_len := 0;
          p_data := NULL |}).

Definition read_outcome (s : machine) (retcode : Z) : machine :=
  let event := bp_attr_event s in
  let rc := read_retcode s retcode in
  if rc =? 0 then s
  else if negb (rc =? - PE_ABORT)
  then set_pv_error
         (error_desc s rc
            (clamp_char s (_adv_ble_attribute_char s (ae_attr event)))) s
  else s.

(** The pending record [_adv_ble_write_attribute] fills in. *)
Definition write_event (pa_attr : nat) (wr_evt : ble_gatts_evt_write_t) :=
  {| ae_data := EVT_DATA (wr_data wr_evt); ae_length := wr_len wr_evt;
     ae_offset := wr_offset wr_evt; ae_attr := Some pa_attr |}.

(** The machine when the writer has been called. *)
Definition writer_called (pa_attr : nat) (wr_evt : ble_gatts_evt_write_t)
    (s : machine) : machine :=
  log (pa_writer_call pa_attr (wr_data wr_evt) (wr_len wr_evt))
    (set_attr_event (write_event pa_attr wr_evt) (_adv_ble_worker_feed s)).


(** The validation failures of a plain write as the specification words
    them: a non-zero offset is not supported; at offset zero a fixed-size
    attribute wants its exact size and a variable-size one at most its
    maximum. *)
Inductive write_rejected (attr : adv_ble_attribute)
    (wr : ble_gatts_evt_write_t) : pa_error -> Prop :=
| reject_offset :
    wr_offset wr <> 0 -> write_rejected attr wr PE_NOT_SUPPORTED
| reject_fixed_size :
    wr_offset wr = 0 -> pa_varsize attr = false ->
    wr_len wr <> pa_size attr -> write_rejected attr wr PE_INVALID_REQUEST
| reject_overflow :
    wr_offset wr = 0 -> pa_varsize attr = true ->
    pa_size attr < wr_len wr -> write_rejected attr wr PE_OVERFLOW.

(** A length the validation lets through. *)
Definition admissible_length (attr : adv_ble_attribute) (len : Z) : Prop :=
  if pa_varsize attr then len <= pa_size attr else len = pa_size attr.

(** The write operations [_adv_ble_write_req] answers at once. *)
Definition prepared_op (op : ble_gatts_op) : bool :=
  match op with
  | BLE_GATTS_OP_PREP_WRITE_REQ
  | BLE_GATTS_OP_EXEC_WRITE_REQ_NOW
  | BLE_GATTS_OP_EXEC_WRITE_REQ_CANCEL => true
  | _ => false
  end.

Definition connected_evt (h : Z) : ble_evt_t :=
  {| evt_id := BLE_GAP_EVT_CONNECTED; conn_handle := h |}.

Definition disconnected_evt (h : Z) : ble_evt_t :=
  {| evt_id := BLE_GAP_EVT_DISCONNECTED; conn_handle := h |}.

(** [n] expirations of the worker timer in a row. *)
Fixpoint timer_ticks (n : nat) (s : machine) : machine :=
  match n with
  | O => s
  | S n => timer_ticks n (_adv_ble_worker_timer_cb s)
  end.

(** ** Concrete attributes, requests and machines *)

Module Fixture.

Definition deferred_writer : list Z -> Z -> Z := fun _ _ => PE_DEFERRED.
Definition accepting_writer : list Z -> Z -> Z := fun _ _ => PE_NO_ERROR.
(** Readers that leave the meaningful length as they find it. *)
Definition deferred_reader : Z -> Z * Z := fun n => (PE_DEFERRED : Z, n).
Definition silent_reader : Z -> Z * Z := fun n => (PE_NO_ERROR : Z, n).

Definition vendor_uuid (ix : nat) : ble_uuid_t :=
  {| uuid := ADV_CHAR_UUID_BASE + Z.of_nat ix;
     uuid_type := BLE_UUID_TYPE_VENDOR_BEGIN |}.

(** [ADV_ERROR] followed by four application attributes: 1 of fixed size 4
    and 2 of variable size 16 defer their writes, 3 of fixed size 4 accepts
    them, 4 is read on demand. *)
Definition attributes : list adv_ble_attribute :=
  [ adv_error_attribute;
    {| pa_uuid := vendor_uuid 1; pa_size := 4; pa_length := 0;
       pa_reader := None; pa_writer := Some deferred_writer;
       pa_varsize := false |};
    {| pa_uuid := vendor_uuid 2; pa_size := 16; pa_length := 0;
       pa_reader := Some deferred_reader; pa_writer := Some deferred_writer;
       pa_varsize := true |};
    {| pa_uuid := vendor_uuid 3; pa_size := 4; pa_length := 0;
       pa_reader := None; pa_writer := Some accepting_writer;
       pa_varsize := false |};
    {| pa_uuid := vendor_uuid 4; pa_size := 16; pa_length := 0;
       pa_reader := Some silent_reader; pa_writer := None;
       pa_varsize := true |} ].

Definition write_to (ix : nat) (offset : Z) (data : list Z) :=
  {| wr_uuid := vendor_uuid ix; wr_op := BLE_GATTS_OP_WRITE_REQ;
     wr_offset := offset; wr_len := Z.of_nat (length data);
     wr_data := data |}.

Definition read_from (ix : nat) : ble_gatts_evt_read_t :=
  {| rd_uuid := vendor_uuid ix; rd_offset := 0 |}.

(** A peer connects with handle 0. *)
Definition connect (s : machine) : machine :=
  final (_adv_ble_evt_handler (connected_evt 0) s).

(** The repository's device and the extended one, connected. *)
Definition advertiser : machine := connect adv_ble_start.
Definition device : machine := connect (machine_start attributes).

(** The repository's device when slow advertising was reached before the
    peer connected. *)
Definition sleeper : machine :=
  connect (_adv_ble_adv_event_handler BLE_ADV_EVT_SLOW adv_ble_start).

(** The extended device with a deferred write of five bytes, of no byte,
    and with a deferred read in flight. *)
Definition write_5 := write_to 2 0 [10; 20; 30; 40; 50].
Definition writing_5 : machine := final (_adv_ble_write_attribute 2 write_5 device).
Definition reading : machine := final (_adv_ble_read_req (read_from 2) device).

(** The extended device after 24 timer periods without any request. *)
Definition stalled : machine := timer_ticks 24 device.

End Fixture.

(** * The module as a reactive system *)

(** ** Entry points *)

(** What the rest of the firmware and the SoftDevice can make the module do
    once it is started: a BLE event ([_adv_ble_evt_handler], registered with
    [NRF_SDH_BLE_OBSERVER]), an advertising event
    ([_adv_ble_adv_event_handler]), an expiration of the worker timer
    ([_adv_ble_worker_timer_cb]) and the completion of a deferred request
    ([_adv_ble_complete_write_req] and [_adv_ble_complete_read_req], which
    the completion callback of a deferring writer or reader is to call). *)
Inductive stimulus :=
| BLE_EVT (ble_evt : ble_evt_t)
| ADV_EVT (ble_adv_evt : ble_adv_evt_t)
| WORKER_TIMER
| COMPLETE_WRITE (retcode : Z)
| COMPLETE_READ (retcode : Z).

Definition deliver (i : stimulus) : M unit :=
  match i with
  | BLE_EVT ble_evt => _adv_ble_evt_handler ble_evt
  | ADV_EVT ble_adv_evt => modify (_adv_ble_adv_event_handler ble_adv_evt)
  | WORKER_TIMER => modify _adv_ble_worker_timer_cb
  | COMPLETE_WRITE retcode => _adv_ble_complete_write_req retcode
  | COMPLETE_READ retcode => _adv_ble_complete_read_req retcode
  end.

(** The stimuli are served one after the other (the handlers run from the
    application scheduler, none preempts another); a fault ends the run. *)
Fixpoint deliver_all (l : list stimulus) : M unit :=
  match l with
  | [] => mret tt
  | i :: l => deliver i;; deliver_all l
  end.

(** ** Specifications of computations *)

(** [triple P m Q E]: from a machine in [P], [m] returns [a] in a machine
    in [Q a], or faults in a machine in [E]. *)
Definition triple {A} (P : machine -> Prop) (m : M A)
    (Q : A -> machine -> Prop) (E : machine -> Prop) : Prop :=
  forall s, P s ->
    match m s with
    | Ret a s' => Q a s'
    | Fault _ s' => E s'
    end.

(** [keeps I m]: [I] is an invariant of [m], on return and on fault. *)
Definition keeps {A} (I : machine -> Prop) (m : M A) : Prop :=
  triple I m (fun _ => I) I.

(** ** Vocabulary of the requests *)

(** What the module never changes of an attribute: everything but its
    meaningful length. *)
Definition static_part (a : adv_ble_attribute) : adv_ble_attribute :=
  set_pa_length 0 a.

(** The UUID under which the peer sees attribute [ix] (the characteristics
    are registered in table order from [ADV_CHAR_UUID_BASE], with the vendor
    UUID type). *)
Definition attribute_uuid (ix : nat) : ble_uuid_t :=
  {| uuid := ADV_CHAR_UUID_BASE + Z.of_nat ix;
     uuid_type := BLE_UUID_TYPE_VENDOR_BEGIN |}.

Definition invalid_uuid_desc (s : machine) : pa_error_desc :=
  error_desc s (- PE_INVALID_UUID) ADV_ERROR.

Definition success_reply (h len : Z) (p : data_ptr) : call :=
  sd_ble_gatts_rw_authorize_reply h
    {| reply_type := BLE_GATTS_AUTHORIZE_TYPE_WRITE;
       gatt_status := BLE_GATT_STATUS_SUCCESS;
       update := true; reply_offset := 0; reply_len := len; p_data := p |}.

Definition write_refusal (h len : Z) (p : data_ptr) : call :=
  sd_ble_gatts_rw_authorize_reply h
    {| reply_type := BLE_GATTS_AUTHORIZE_TYPE_WRITE;
       gatt_status := BLE_GATT_STATUS_ATTERR_WRITE_NOT_PERMITTED;
       update := false; reply_offset := 0; reply_len := len; p_data := p |}.

Definition write_abort_reply (h len : Z) (p : data_ptr) : call :=
  sd_ble_gatts_rw_authorize_reply h
    {| reply_type := BLE_GATTS_AUTHORIZE_TYPE_WRITE;
       gatt_status := BLE_GATT_STATUS_ATTERR_UNLIKELY_ERROR;
       update := false; reply_offset := 0; reply_len := len; p_data := p |}.

Definition not_supported_reply (h : Z) : call :=
  sd_ble_gatts_rw_authorize_reply h
    {| reply_type := BLE_GATTS_AUTHORIZE_TYPE_WRITE;
       gatt_status := APP_FEATURE_NOT_SUPPORTED;
       update := false; reply_offset := 0; reply_len := 0; p_data := NULL |}.

Definition read_success_reply (h len : Z) (ix : nat) : call :=
  sd_ble_gatts_rw_authorize_reply h
    {| reply_type := BLE_GATTS_AUTHORIZE_TYPE_READ;
       gatt_status := BLE_GATT_STATUS_SUCCESS;
       update := true; reply_offset := 0; reply_len := len;
       p_data := PA_VAR ix |}.

Definition read_refusal (h : Z) : call :=
  sd_ble_gatts_rw_authorize_reply h
    {| reply_type := BLE_GATTS_AUTHORIZE_TYPE_READ;
       gatt_status := BLE_GATT_STATUS_ATTERR_READ_NOT_PERMITTED;
       update := false; reply_offset := 0; reply_len := 0;
       p_data := NULL |}.

(** A write request in good standing: a plain write at offset zero, of a
    length the attribute admits and the transient storage can hold, to an
    attribute of the table that has a writer, on a device that is awake and
    has no operation in flight. *)
Record write_accepted (s : machine) (ix : nat) (wr : ble_gatts_evt_write_t)
    (writer : list Z -> Z -> Z) : Prop := {
  wa_known : (ix < ADV_COUNT s)%nat;
  wa_uuid : wr_uuid wr = attribute_uuid ix;
  wa_uuid16 : ADV_CHAR_UUID_BASE + Z.of_nat ix < 2 ^ 16;
  wa_op : wr_op wr = BLE_GATTS_OP_WRITE_REQ;
  wa_offset : wr_offset wr = 0;
  wa_length : admissible_length (bp_attributes s !!! ix) (wr_len wr);
  wa_fits : wr_len wr <= SIZEOF_pv_transient;
  wa_writer : pa_writer (bp_attributes s !!! ix) = Some writer;
  wa_awake : bp_entering_sleep s = false;
  wa_idle : event_in_flight (bp_attr_event s) = false
}.

(** A read request in good standing. *)
Record read_accepted (s : machine) (ix : nat) (rd : ble_gatts_evt_read_t)
    : Prop := {
  ra_known : (ix < ADV_COUNT s)%nat;
  ra_uuid : rd_uuid rd = attribute_uuid ix;
  ra_uuid16 : ADV_CHAR_UUID_BASE + Z.of_nat ix < 2 ^ 16;
  ra_offset : rd_offset rd = 0;
  ra_awake : bp_entering_sleep s = false;
  ra_idle : event_in_flight (bp_attr_event s) = false
}.

(** The length [_adv_ble_read_req] presets before it runs the reader. *)
Definition preset_length (attr : adv_ble_attribute) : Z :=
  if pa_varsize attr then 0 else pa_size attr.

(** The machine when a read request has been taken on: activity noted,
    attribute under operation recorded, meaningful length preset. *)
Definition read_started (ix : nat) (s : machine) : machine :=
  let attr := bp_attributes s !!! ix in
  store_pa_length (Some ix) (if pa_varsize attr then 0 else pa_size attr)
    (on_attr_event (set_ae_attr (Some ix)) (_adv_ble_worker_feed s)).

(** The machine when the reader of [ix] has been run and left [n] as the
    meaningful length. *)
Definition reader_called (ix : nat) (n : Z) (s : machine) : machine :=
  store_pa_length (Some ix) n
    (log (pa_reader_call ix)
       (set_attr_event
          {| ae_data := NULL; ae_length := 0; ae_offset := 0;
             ae_attr := Some ix |}
          (read_started ix s))).

(** The events that open or close the link. *)
Definition link_event (id : ble_evt_id) : bool :=
  match id with
  | BLE_GAP_EVT_CONNECTED | BLE_GAP_EVT_DISCONNECTED => true
  | _ => false
  end.

(** Seconds since the last activity, as [_adv_ble_worker_timer_cb] computes
    them (32-bit difference). *)
Definition idle_time (s : machine) : Z :=
  uint32 (we_time (worker_engine s) - we_last_time (worker_engine s)).

(** ** A device with application attributes *)

Module Scenario.

Definition refusing_writer : list Z -> Z -> Z := fun _ _ => - PE_OUT_OF_RANGE.
Definition accepting_writer : list Z -> Z -> Z := fun _ _ => PE_NO_ERROR.
Definition aborting_writer : list Z -> Z -> Z := fun _ _ => - PE_ABORT.
(** Readers that set a meaningful length of three bytes. *)
Definition ready_reader : Z -> Z * Z := fun _ => (PE_NO_ERROR : Z, 3).
Definition late_reader : Z -> Z * Z := fun _ => (PE_DEFERRED : Z, 3).
Definition failing_reader : Z -> Z * Z := fun n => (- PE_OUT_OF_RANGE, n).

(** [ADV_ERROR] and six application attributes: 1 of fixed size 4 refuses
    its writes, 2 of variable size 32 accepts them, 3 and 4 of variable size
    16 are read through a reader, at once and later, 5 of fixed size 2
    aborts its writes and the reader of 6 fails. *)
Definition attributes : list adv_ble_attribute :=
  [ adv_error_attribute;
    {| pa_uuid := attribute_uuid 1; pa_size := 4; pa_length := 0;
       pa_reader := None; pa_writer := Some refusing_writer;
       pa_varsize := false |};
    {| pa_uuid := attribute_uuid 2; pa_size := 32; pa_length := 0;
       pa_reader := None; pa_writer := Some accepting_writer;
       pa_varsize := true |};
    {| pa_uuid := attribute_uuid 3; pa_size := 16; pa_length := 0;
       pa_reader := Some ready_reader; pa_writer := None;
       pa_varsize := true |};
    {| pa_uuid := attribute_uuid 4; pa_size := 16; pa_length := 0;
       pa_reader := Some late_reader; pa_writer := None;
       pa_varsize := true |};
    {| pa_uuid := attribute_uuid 5; pa_size := 2; pa_length := 0;
       pa_reader := None; pa_writer := Some aborting_writer;
       pa_varsize := false |};
    {| pa_uuid := attribute_uuid 6; pa_size := 16; pa_length := 0;
       pa_reader := Some failing_reader; pa_writer := None;
       pa_varsize := true |} ].

Definition device : machine := Fixture.connect (machine_start attributes).

Definition write_to (ix : nat) (data : list Z) : ble_gatts_evt_write_t :=
  {| wr_uuid := attribute_uuid ix; wr_op := BLE_GATTS_OP_WRITE_REQ;
     wr_offset := 0; wr_len := Z.of_nat (length data); wr_data := data |}.

Definition prepare_write_to (ix : nat) (data : list Z)
    : ble_gatts_evt_write_t :=
  {| wr_uuid := attribute_uuid ix; wr_op := BLE_GATTS_OP_PREP_WRITE_REQ;
     wr_offset := 0; wr_len := Z.of_nat (length data); wr_data := data |}.

Definition read_from (ix : nat) : ble_gatts_evt_read_t :=
  {| rd_uuid := attribute_uuid ix; rd_offset := 0 |}.

Definition authorize_write (wr : ble_gatts_evt_write_t) : ble_evt_t :=
  {| evt_id := BLE_GATTS_EVT_RW_AUTHORIZE_REQUEST (AUTHORIZE_WRITE wr);
     conn_handle := 0 |}.

Definition authorize_read (rd : ble_gatts_evt_read_t) : ble_evt_t :=
  {| evt_id := BLE_GATTS_EVT_RW_AUTHORIZE_REQUEST (AUTHORIZE_READ rd);
     conn_handle := 0 |}.

(** A session: requests, a disconnection, timer expirations, slow
    advertising, a new connection and a late completion. *)
Definition session : list stimulus :=
  [ BLE_EVT (authorize_write (write_to 2 [1; 2; 3]));
    BLE_EVT (authorize_read (read_from 4));
    WORKER_TIMER;
    BLE_EVT (disconnected_evt 0);
    ADV_EVT BLE_ADV_EVT_IDLE;
    ADV_EVT BLE_ADV_EVT_SLOW;
    WORKER_TIMER;
    BLE_EVT (connected_evt 1);
    COMPLETE_READ 0;
    BLE_EVT (authorize_read (read_from 3)) ].

End Scenario.

(** A plain write the engine refuses before its writer is reached: the
    device is entering sleep, or the attribute found for the request's UUID
    (if any) fails one of the checks of [_adv_ble_write_attribute] that come
    before the pending record is filled. *)
Definition refused_early (s : machine) (wr : ble_gatts_evt_write_t) : Prop :=
  bp_entering_sleep s = true \/
  forall ix s1,
    _adv_ble_retrieve_attribute (wr_uuid wr) s = Ret (Some ix) s1 ->
    wr_op wr <> BLE_GATTS_OP_WRITE_REQ \/
    wr_offset wr <> 0 \/
    ~ admissible_length (bp_attributes s !!! ix) (wr_len wr) \/
    pa_writer (bp_attributes s !!! ix) = None.

(** * Debug traces ([adv_trace.c]) *)

(** Every [MSGV] of [adv_ble.c] ends in [pa_trace_is_traceable] and, when the
    source and the level pass, in [pa_trace_printf]. The trace module is a
    state of its own ([_pa_trace] and [_pa_trace_queue]); its environment is
    the UART driver: [nrfx_uarte_tx] is an oracle of the transfers started so
    far and of the bytes to send, the transfers it starts are logged. Signed
    arithmetic is over [Z]: the queue keeps its indices below
    [MSG_QUEUE_SIZE]. The text that a [printf]-like call produces from its
    format and arguments is an input of the model; what the module does with
    it (placement, truncation, markers) is modelled. *)

(** ** Constants and types *)

Definition ADV_TRACE_MSG_LENGTH : Z := 127.
Definition ADV_TRACE_MSG_COUNT_LOG2 : Z := 7.
Definition MSG_QUEUE_SIZE : Z := Z.shiftl 1 ADV_TRACE_MSG_COUNT_LOG2.
Definition MSG_QUEUE_MASK : Z := MSG_QUEUE_SIZE - 1.

Definition DISABLE_ALL_TRACES_MASK : Z := Z.shiftl 1 32 - 1.
Definition PTS_BITS : Z := 8 * 4.
Definition PTS_MASK : Z := PTS_BITS - 1.
Definition PTS_SHIFT : Z := 5.
Definition PTL_LVLBITS : Z := 3.
Definition PTL_BITS : Z := 4.
Definition PTL_MASK : Z := Z.shiftl 1 PTL_LVLBITS - 1.
Definition PTM_COUNT : Z := 32.
Definition PTM_BITS : Z := PTL_BITS * PTM_COUNT.
Definition PTN_WORDS : Z := (PTM_BITS + (PTS_BITS - 1)) / PTS_BITS.

(** [enum pa_trace_level]; the functions receive it as an integer (the
    macros pass [PTL_FUNC], which is no level). *)
Definition PTL_CHATTY : Z := 0.
Definition PTL_DEBUG : Z := 1.
Definition PTL_INFO : Z := 2.
Definition PTL_WARN : Z := 3.
Definition PTL_ERROR : Z := 4.
Definition PTL_FATAL : Z := 5.
Definition PTL_OFF : Z := PTL_FATAL.
Definition PTL_COUNT : Z := 6.
Definition PTL_FUNC : Z := PTL_COUNT.

(** [enum pa_trace_modules] (adv_tracesrcs.h) *)
Definition PTM_MAIN : Z := 0.
Definition PTM_SYS : Z := 1.
Definition PTM_BLE : Z := 2.

Definition int32 (z : Z) : Z := (z + 2 ^ 31) mod 2 ^ 32 - 2 ^ 31.

(** [struct pa_trace_msg] *)
Record pa_trace_msg := {
  tm_msg : list Z;
  tm_length : Z
}.

#[global] Instance pa_trace_msg_inhabited : Inhabited pa_trace_msg :=
  populate {| tm_msg := []; tm_length := 0 |}.

(** [struct pa_trace_queue] *)
Record pa_trace_queue := {
  tq_read_p : Z;
  tq_write_p : Z;
  tq_msgs : list pa_trace_msg
}.

Inductive nrfx_uarte_evt_type :=
| NRFX_UARTE_EVT_TX_DONE
| NRFX_UARTE_EVT_RX_DONE
| NRFX_UARTE_EVT_ERROR.

(** [struct pa_trace] with the queue it points to, and the UART: the
    transfers started, oldest first, and the status [nrfx_uarte_tx] gives. *)
Record pa_trace := {
  pt_masks : list Z;
  pt_initialized : bool;
  pt_count : Z;
  pt_que_active : bool;
  pt_que : pa_trace_queue;
  uarte_tx : list (list Z);
  nrfx_uarte_tx : list (list Z) -> list Z -> Z
}.

Definition set_tq_read_p (v : Z) (que : pa_trace_queue) :=
  {| tq_read_p := v; tq_write_p := tq_write_p que; tq_msgs := tq_msgs que |}.
Definition set_tq_write_p (v : Z) (que : pa_trace_queue) :=
  {| tq_read_p := tq_read_p que; tq_write_p := v; tq_msgs := tq_msgs que |}.
Definition set_tq_msgs (v : list pa_trace_msg) (que : pa_trace_queue) :=
  {| tq_read_p := tq_read_p que; tq_write_p := tq_write_p que; tq_msgs := v |}.

Definition set_pt_masks (v : list Z) (t : pa_trace) :=
  {| pt_masks := v; pt_initialized := pt_initialized t;
     pt_count := pt_count t; pt_que_active := pt_que_active t;
     pt_que := pt_que t; uarte_tx := uarte_tx t;
     nrfx_uarte_tx := nrfx_uarte_tx t |}.
Definition set_pt_initialized (v : bool) (t : pa_trace) :=
  {| pt_masks := pt_masks t; pt_initialized := v;
     pt_count := pt_count t; pt_que_active := pt_que_active t;
     pt_que := pt_que t; uarte_tx := uarte_tx t;
     nrfx_uarte_tx := nrfx_uarte_tx t |}.
Definition set_pt_count (v : Z) (t : pa_trace) :=
  {| pt_masks := pt_masks t; pt_initialized := pt_initialized t;
     pt_count := v; pt_que_active := pt_que_active t;
     pt_que := pt_que t; uarte_tx := uarte_tx t;
     nrfx_uarte_tx := nrfx_uarte_tx t |}.
Definition set_pt_que_active (v : bool) (t : pa_trace) :=
  {| pt_masks := pt_masks t; pt_initialized := pt_initialized t;
     pt_count := pt_count t; pt_que_active := v;
     pt_que := pt_que t; uarte_tx := uarte_tx t;
     nrfx_uarte_tx := nrfx_uarte_tx t |}.
Definition on_pt_que (f : pa_trace_queue -> pa_trace_queue) (t : pa_trace) :=
  {| pt_masks := pt_masks t; pt_initialized := pt_initialized t;
     pt_count := pt_count t; pt_que_active := pt_que_active t;
     pt_que := f (pt_que t); uarte_tx := uarte_tx t;
     nrfx_uarte_tx := nrfx_uarte_tx t |}.
Definition log_tx (bytes : list Z) (t : pa_trace) :=
  {| pt_masks := pt_masks t; pt_initialized := pt_initialized t;
     pt_count := pt_count t; pt_que_active := pt_que_active t;
     pt_que := pt_que t; uarte_tx := uarte_tx t ++ [bytes];
     nrfx_uarte_tx := nrfx_uarte_tx t |}.

(** ** The message queue *)

(** [_pa_trace_queue_flush] *)
Definition _pa_trace_queue_flush (que : pa_trace_queue) : pa_trace_queue :=
  set_tq_read_p (tq_write_p que) que.

(** [_pa_trace_queue_count_free] *)
Definition _pa_trace_queue_count_free (que : pa_trace_queue) : Z :=
  let bytes := tq_read_p que - tq_write_p que in
  let bytes := if bytes <=? 0 then bytes + MSG_QUEUE_SIZE else bytes in
  bytes - 1.

(** [_pa_trace_queue_count_avail] *)
Definition _pa_trace_queue_count_avail (que : pa_trace_queue) : Z :=
  let bytes := tq_write_p que - tq_read_p que in
  if bytes <? 0 then bytes + MSG_QUEUE_SIZE else bytes.

(** [_pa_trace_queue_is_empty] *)
Definition _pa_trace_queue_is_empty (que : pa_trace_queue) : bool :=
  tq_read_p que =? tq_write_p que.

(** [_pa_trace_queue_is_full] *)
Definition _pa_trace_queue_is_full (que : pa_trace_queue) : bool :=
  _pa_trace_queue_count_free que <=? 0.

(** [_pa_trace_queue_r_next] *)
Definition _pa_trace_queue_r_next (que : pa_trace_queue) : pa_trace_queue :=
  set_tq_read_p (Z.land (tq_read_p que + 1) MSG_QUEUE_MASK) que.

(** [_pa_trace_queue_w_next] *)
Definition _pa_trace_queue_w_next (que : pa_trace_queue) : pa_trace_queue :=
  set_tq_write_p (Z.land (tq_write_p que + 1) MSG_QUEUE_MASK) que.

(** ** Trace levels *)

(** Where the level of [source] is kept: word [mask_pos] of [pt_masks], from
    bit [mask_src] on. A negative [source] passes the sanity checks of the
    source and indexes outside the array (undefined in C): the model reads
    zero and stores nothing there, and no property relies on it. *)
Definition mask_pos (source : Z) : nat :=
  Z.to_nat (Z.shiftr (uint32 (PTL_BITS * uint32 source)) PTS_SHIFT).
Definition mask_src (source : Z) : Z :=
  Z.land (uint32 (PTL_BITS * uint32 source)) PTS_MASK.

(** The enumeration [pa_trace_level] has no negative value and is an
    unsigned type: a function receives its [level] argument as an unsigned
    32-bit value, a negative one as a large one, and compares it as
    such. *)

(** [pa_trace_is_traceable] *)
Definition pa_trace_is_traceable (source level : Z) (t : pa_trace) : bool :=
  let level := uint32 level in
  if (PTM_COUNT <=? source) || negb (pt_initialized t) then false
  else
    let pos := mask_pos source in
    let src := mask_src source in
    Z.land (Z.shiftr (pt_masks t !!! pos) src) PTL_MASK <=? level.

(** [pa_trace_is_funcable] *)
Definition pa_trace_is_funcable (source : Z) (t : pa_trace) : bool :=
  pa_trace_is_traceable source PTL_CHATTY t.

(** [pa_trace_set_source] *)
Definition pa_trace_set_source (source level : Z) (t : pa_trace) : pa_trace :=
  let level := uint32 level in
  if PTM_COUNT <=? source then t
  else if PTL_COUNT <=? level then t
  else
    let pos := mask_pos source in
    let src := mask_src source in
    let masks :=
      alter (fun w => Z.land w (uint32 (Z.lnot (Z.shiftl PTL_MASK src))))
        pos (pt_masks t) in
    let masks :=
      alter (fun w => Z.lor w (uint32 (Z.shiftl level src))) pos masks in
    set_pt_masks masks t.

(** [pa_trace_get_source] *)
Definition pa_trace_get_source (source : Z) (t : pa_trace) : Z :=
  let pos := mask_pos source in
  let src := mask_src source in
  Z.land (Z.shiftr (pt_masks t !!! pos) src) PTL_MASK.

(** ** Transmission *)

(** [_pa_trace_context]: the exception number of the IPSR, zero in thread
    mode. *)
Definition _pa_trace_context (ipsr : Z) : Z := Z.land ipsr 255.

(** [pa_trace_is_irq] *)
Definition pa_trace_is_irq (ipsr : Z) : bool :=
  negb (_pa_trace_context ipsr =? 0).

(** The bytes a transfer of [msg] sends. *)
Definition msg_bytes (msg : pa_trace_msg) : list Z :=
  take (Z.to_nat (tm_length msg)) (tm_msg msg).

(** [_pa_trace_pop_queue]: start the transfer of the oldest message the
    driver accepts, dropping those it refuses. The loop of the source is
    bounded here by [fuel] iterations; [pop_queue_returns] shows that
    [MSG_QUEUE_SIZE] iterations are enough. *)
Fixpoint _pa_trace_pop_queue (fuel : nat) (t : pa_trace) : option pa_trace :=
  match fuel with
  | O => None
  | S fuel =>
    let que := pt_que t in
    let empty := _pa_trace_queue_is_empty que in
    let msg := tq_msgs que !!! Z.to_nat (tq_read_p que) in
    if empty then Some (set_pt_que_active false t)
    else
      let t := set_pt_que_active true t in
      let rc := nrfx_uarte_tx t (uarte_tx t) (msg_bytes msg) in
      if rc =? NRF_SUCCESS then Some (log_tx (msg_bytes msg) t)
      else _pa_trace_pop_queue fuel (on_pt_que _pa_trace_queue_r_next t)
  end.

Definition pop_queue (t : pa_trace) : option pa_trace :=
  _pa_trace_pop_queue (Z.to_nat MSG_QUEUE_SIZE) t.

(** [_pa_trace_start_queue] *)
Definition _pa_trace_start_queue (t : pa_trace) : option pa_trace :=
  if negb (pt_que_active t) then pop_queue t else Some t.

(** [_nd_trace_uart_event_handler] *)
Definition _nd_trace_uart_event_handler (type : nrfx_uarte_evt_type)
    (t : pa_trace) : option pa_trace :=
  match type with
  | NRFX_UARTE_EVT_RX_DONE => Some t
  | NRFX_UARTE_EVT_TX_DONE | NRFX_UARTE_EVT_ERROR =>
    pop_queue (on_pt_que _pa_trace_queue_r_next t)
  end.

(** The slot the next message goes to, and its commit. *)
Definition store_msg (msg : pa_trace_msg) (que : pa_trace_queue)
    : pa_trace_queue :=
  set_tq_msgs (<[Z.to_nat (tq_write_p que) := msg]> (tq_msgs que)) que.

(** [pa_print] *)
Definition pa_print (ipsr : Z) (message : list Z) (len : Z) (t : pa_trace)
    : option (Z * pa_trace) :=
  let que := pt_que t in
  if negb (pt_initialized t) then Some (0, t)
  else if negb (_pa_trace_context ipsr =? 0)
  then Some (0, set_pt_count (uint8 (pt_count t + 1)) t)
  else if _pa_trace_queue_is_full que
  then Some (0, set_pt_count (uint8 (pt_count t + 1)) t)
  else
    let msg := tq_msgs que !!! Z.to_nat (tq_write_p que) in
    let tm_length :=
      uint8 (if len <? ADV_TRACE_MSG_LENGTH
             then len else ADV_TRACE_MSG_LENGTH) in
    let msg :=
      {| tm_msg := memcpy (tm_msg msg) message tm_length;
         tm_length := tm_length |} in
    let t := on_pt_que (store_msg msg) t in
    let t := set_pt_count (uint8 (pt_count t + 1)) t in
    let t := on_pt_que _pa_trace_queue_w_next t in
    t ← _pa_trace_start_queue t;
    Some (int32 len, t).

(** [pa_trace_fatal_error]: the status of [nrfx_uarte_tx] is dropped. *)
Definition pa_trace_fatal_error (message : list Z) (length : Z)
    (t : pa_trace) : pa_trace :=
  let t := set_pt_que_active true t in
  let bytes := take (Z.to_nat (uint8 length)) message in
  if nrfx_uarte_tx t (uarte_tx t) bytes =? NRF_SUCCESS
  then log_tx bytes t else t.

(** [ADV_TRACE_DEFAULT_LEVELS] *)
Definition ADV_TRACE_DEFAULT_LEVELS : list Z :=
  [PTL_DEBUG; PTL_DEBUG; PTL_CHATTY].

(** [pa_trace_init]; [banner] is the start-up message as formatted, which
    fits the 80 bytes of its buffer. *)
Definition pa_trace_init (ipsr : Z) (banner : list Z) (t : pa_trace)
    : option pa_trace :=
  let t := set_pt_masks ((fun _ => DISABLE_ALL_TRACES_MASK) <$> pt_masks t) t in
  let t := set_pt_initialized true t in
  '(_, t) ← pa_print ipsr banner (Z.of_nat (length banner)) t;
  Some (foldl (fun t six =>
                 pa_trace_set_source (Z.of_nat six)
                   (ADV_TRACE_DEFAULT_LEVELS !!! six) t)
          t (seq 0 (length ADV_TRACE_DEFAULT_LEVELS))).

(** The indices of a queue are array indices. *)
Definition queue_ok (que : pa_trace_queue) : Prop :=
  0 <= tq_read_p que < MSG_QUEUE_SIZE /\
  0 <= tq_write_p que < MSG_QUEUE_SIZE.

(** ** Formatted output *)

(** Characters are their codes. [hex_digit d] is the lower-case digit of
    [d < 16]; [fmt_0x n v] is what [%0<n>x] prints for a value [v] of at
    most [n] hexadecimal digits. *)
Definition hex_digit (d : Z) : Z := if d <? 10 then 48 + d else 87 + d.

Fixpoint fmt_0x (n : nat) (v : Z) : list Z :=
  match n with
  | O => []
  | S n => fmt_0x n (v / 16) ++ [hex_digit (v mod 16)]
  end.

(** Storing [bytes] from index [off] of a buffer. *)
Definition write_at (buf : list Z) (off : Z) (bytes : list Z) : list Z :=
  take (Z.to_nat off) buf ++ bytes
  ++ drop (Z.to_nat off + length bytes) buf.

(** [snprintf(&str[off], size, ...)] when the format and its arguments
    produce [text]: at most [size - 1] characters and the terminator are
    stored, nothing at all when [size] is zero; the length of [text] is
    returned. *)
Definition snprintf (str : list Z) (off size : Z) (text : list Z)
    : list Z * Z :=
  (if 0 <? size
   then write_at str off (take (Z.to_nat (size - 1)) text ++ [0])
   else str,
   Z.of_nat (length text)).

(** [ADV_TRACE_LOGLEVELS], the string "CDIWEF." *)
Definition ADV_TRACE_LOGLEVELS : list Z := [67; 68; 73; 87; 69; 70; 46; 0].

(** [ADV_TRACE_FMT_HEADER] with its arguments: "^%08x :%02x " (time and
    count are shown, the context is not). *)
Definition trace_header (rt count : Z) : list Z :=
  [94] ++ fmt_0x 8 (uint32 rt) ++ [32] ++ [58] ++ fmt_0x 2 (uint8 count)
  ++ [32].

(** [pa_trace_printf]; [rt] is the value of [_pa_trace_time()] and [body]
    the text that [fmt] and its arguments produce. *)
Definition pa_trace_printf (ipsr rt level : Z) (body : list Z) (t : pa_trace)
    : option (Z * pa_trace) :=
  let level := uint32 level in
  if negb (pt_initialized t) then Some (0, t)
  else if negb (_pa_trace_context ipsr =? 0)
  then Some (0, set_pt_count (uint8 (pt_count t + 1)) t)
  else
    let que := pt_que t in
    if _pa_trace_queue_is_full que
    then Some (0, set_pt_count (uint8 (pt_count t + 1)) t)
    else
      let msg := tq_msgs que !!! Z.to_nat (tq_write_p que) in
      let msg_buf := tm_msg msg in
      let rt := if pt_initialized t then rt else 0 in
      let '(msg_buf, ret) :=
        snprintf msg_buf 0 ADV_TRACE_MSG_LENGTH
          (trace_header rt (pt_count t)) in
      let '(msg_buf, ret) :=
        if (level <? PTL_COUNT) && (ret <? ADV_TRACE_MSG_LENGTH - 2)
        then (<[Z.to_nat (ret + 1) := 32]>
                (<[Z.to_nat ret := ADV_TRACE_LOGLEVELS !!! Z.to_nat level]>
                   msg_buf),
              ret + 2)
        else (msg_buf, ret) in
      let '(msg_buf, n) :=
        snprintf msg_buf ret (uint32 (ADV_TRACE_MSG_LENGTH - ret - 1)) body in
      let ret := ret + n in
      let '(msg_buf, ret) :=
        if ADV_TRACE_MSG_LENGTH <=? ret
        then (<[Z.to_nat (ADV_TRACE_MSG_LENGTH - 1) := 0]>
                (<[Z.to_nat (ADV_TRACE_MSG_LENGTH - 2) := 10]>
                   (<[Z.to_nat (ADV_TRACE_MSG_LENGTH - 3) := 46]>
                      (<[Z.to_nat (ADV_TRACE_MSG_LENGTH - 4) := 46]>
                         (<[Z.to_nat (ADV_TRACE_MSG_LENGTH - 5) := 46]>
                            msg_buf)))),
              ADV_TRACE_MSG_LENGTH)
        else (msg_buf, ret) in
      let t := set_pt_count (uint8 (pt_count t + 1)) t in
      let msg := {| tm_msg := msg_buf; tm_length := uint8 ret |} in
      let t := on_pt_que (store_msg msg) t in
      let t := on_pt_que _pa_trace_queue_w_next t in
      t ← _pa_trace_start_queue t;
      Some (ret, t).

(** ** The trace module as a reactive system *)

Inductive trace_stimulus :=
| PRINT (ipsr : Z) (message : list Z) (len : Z)
| PRINTF (ipsr rt level : Z) (body : list Z)
| UART_EVT (type : nrfx_uarte_evt_type).

Definition trace_deliver (i : trace_stimulus) (t : pa_trace)
    : option pa_trace :=
  match i with
  | PRINT ipsr message len => snd <$> pa_print ipsr message len t
  | PRINTF ipsr rt level body => snd <$> pa_trace_printf ipsr rt level body t
  | UART_EVT type => _nd_trace_uart_event_handler type t
  end.

Fixpoint trace_run (l : list trace_stimulus) (t : pa_trace)
    : option pa_trace :=
  match l with
  | [] => Some t
  | i :: l => t ← trace_deliver i t; trace_run l t
  end.

(** ** What the host is to see *)

(** The line a trace is to give: header, level letter, text. The level is
    the unsigned value the function receives: past [PTL_FATAL] it has no
    letter. A line of more than 126 characters ends in an ellipsis, a line
    feed and a terminator; a line of exactly 126 characters has a terminator
    for last character. *)
Definition trace_line (rt count level : Z) (body : list Z) : list Z :=
  let level := uint32 level in
  let head :=
    trace_header rt count
    ++ (if level <? PTL_COUNT
        then [ADV_TRACE_LOGLEVELS !!! Z.to_nat level; 32] else []) in
  let room := (Z.to_nat ADV_TRACE_MSG_LENGTH - length head)%nat in
  if (length body <=? room - 2)%nat then head ++ body
  else if (length body =? room - 1)%nat
  then head ++ take (room - 2) body ++ [0]
  else head ++ take (room - 5) body ++ [46; 46; 46; 10; 0].

(** A bounded first-in first-out buffer in front of a transmitter: the
    messages transmitted, the messages waiting (the first of which is being
    transmitted) and the count of the messages submitted. *)
Record fifo := {
  fifo_count : Z;
  fifo_sent : list (list Z);
  fifo_pending : list (list Z)
}.

Definition fifo_submit (ipsr : Z) (text : list Z) (f : fifo) : fifo :=
  {| fifo_count := uint8 (fifo_count f + 1);
     fifo_sent := fifo_sent f;
     fifo_pending :=
       if pa_trace_is_irq ipsr
          || (MSG_QUEUE_SIZE - 1 <=? Z.of_nat (length (fifo_pending f)))
       then fifo_pending f
       else fifo_pending f ++ [text] |}.

Definition fifo_step (i : trace_stimulus) (f : fifo) : fifo :=
  match i with
  | PRINT ipsr message len =>
    fifo_submit ipsr
      (take (Z.to_nat (Z.min len ADV_TRACE_MSG_LENGTH)) message) f
  | PRINTF ipsr rt level body =>
    fifo_submit ipsr (trace_line rt (fifo_count f) level body) f
  | UART_EVT NRFX_UARTE_EVT_RX_DONE => f
  | UART_EVT _ =>
    match fifo_pending f with
    | [] => f
    | m :: p =>
      {| fifo_count := fifo_count f; fifo_sent := fifo_sent f ++ [m];
         fifo_pending := p |}
    end
  end.

(** The stimuli the environment can give: a message is printed with a
    length within its buffer, and the UART reports the end of a transfer
    only when one is under way. *)
Definition timely (i : trace_stimulus) (f : fifo) : bool :=
  match i with
  | PRINT _ message len =>
    (0 <=? len) && (len <=? Z.of_nat (length message))
  | PRINTF _ _ level _ => 0 <=? level
  | UART_EVT NRFX_UARTE_EVT_RX_DONE => true
  | UART_EVT _ => negb (bool_decide (fifo_pending f = []))
  end.

Fixpoint all_timely (l : list trace_stimulus) (f : fifo) : bool :=
  match l with
  | [] => true
  | i :: l => timely i f && all_timely l (fifo_step i f)
  end.

(** The trace module holds the buffer [f]: initialised, on a UART that
    accepts every transfer, its queue holds the waiting messages from the
    read index on, the first one is under transfer, and the transfers
    started so far are those of the messages sent and of that one. *)
Record holds (t : pa_trace) (f : fifo) : Prop := {
  h_initialized : pt_initialized t = true;
  h_uart : forall log bytes, nrfx_uarte_tx t log bytes = NRF_SUCCESS;
  h_queue : queue_ok (pt_que t);
  h_slots : Z.of_nat (length (tq_msgs (pt_que t))) = MSG_QUEUE_SIZE;
  h_buffers :
    Forall (fun msg => Z.of_nat (length (tm_msg msg)) = ADV_TRACE_MSG_LENGTH)
      (tq_msgs (pt_que t));
  h_count : pt_count t = fifo_count f;
  h_avail :
    _pa_trace_queue_count_avail (pt_que t)
    = Z.of_nat (length (fifo_pending f));
  h_pending :
    forall (i : nat) text,
      fifo_pending f !! i = Some text ->
      msg_bytes (tq_msgs (pt_que t)
                   !!! Z.to_nat ((tq_read_p (pt_que t) + Z.of_nat i)
                                 mod MSG_QUEUE_SIZE)) = text;
  h_active : pt_que_active t = negb (bool_decide (fifo_pending f = []));
  h_tx : uarte_tx t = fifo_sent f ++ take 1 (fifo_pending f)
}.

(** The module after [pa_trace_init] on a UART that accepts every transfer,
    before the start-up message. *)
Definition trace_start : pa_trace :=
  {| pt_masks := replicate (Z.to_nat PTN_WORDS) DISABLE_ALL_TRACES_MASK;
     pt_initialized := true; pt_count := 0; pt_que_active := false;
     pt_que :=
       {| tq_read_p := 0; tq_write_p := 0;
          tq_msgs :=
            replicate (Z.to_nat MSG_QUEUE_SIZE)
              {| tm_msg := replicate (Z.to_nat ADV_TRACE_MSG_LENGTH) 0;
                 tm_length := 0 |} |};
     uarte_tx := [];
     nrfx_uarte_tx := fun _ _ => NRF_SUCCESS |}.

Definition fifo_start : fifo :=
  {| fifo_count := 0; fifo_sent := []; fifo_pending := [] |}.

Fixpoint fifo_run (l : list trace_stimulus) (f : fifo) : fifo :=
  match l with
  | [] => f
  | i :: l => fifo_run l (fifo_step i f)
  end.

(** The text "tick" and a session: two traces, the end of the first
    transfer, a trace from an interrupt handler, the end of the second
    transfer. *)
Definition tick_text : list Z := [116; 105; 99; 107].

Definition trace_session : list trace_stimulus :=
  [ PRINTF 0 4096 PTL_INFO tick_text;
    PRINT 0 tick_text 4;
    UART_EVT NRFX_UARTE_EVT_TX_DONE;
    PRINTF 16 4100 PTL_ERROR tick_text;
    UART_EVT NRFX_UARTE_EVT_TX_DONE ].

(** * Strings *)

(** A string buffer is the memory from its first character on: writing past
    the size that the caller announces is writing into what follows the
    buffer. *)

(** ** [_adv_ble_mac_addr_to_str] ([adv_ble.c]) *)

(** [ble_gap_addr_t]: the six bytes of the address, least significant
    first. *)
Definition BLE_GAP_ADDR_LEN : Z := 6.

(** The loop of [_adv_ble_mac_addr_to_str], with [n] bytes left to format
    from index [bix]; [pos] is how far [str] has been advanced. *)
Fixpoint mac_addr_loop (n : nat) (bix : Z) (addr str : list Z) (pos rem : Z)
    : list Z :=
  match n with
  | O => str
  | S n =>
    let byte := uint8 (addr !!! Z.to_nat (BLE_GAP_ADDR_LEN - 1 - bix)) in
    let '(str, len) :=
      snprintf str pos (uint32 (Z.max 0 rem))
        (fmt_0x 2 byte ++ (if bix <? BLE_GAP_ADDR_LEN - 1 then [58] else []))
    in
    if rem <? len then write_at str pos [0]
    else mac_addr_loop n (bix + 1) addr str (pos + len) (rem - len)
  end.

Definition _adv_ble_mac_addr_to_str (str : list Z) (length : Z)
    (addr : list Z) : list Z :=
  mac_addr_loop (Z.to_nat BLE_GAP_ADDR_LEN) 0 addr str 0 (int32 length).

(** The text of an address: its bytes from the most significant one, two
    digits each, colons in between. *)
Definition mac_text (addr : list Z) : list Z :=
  drop 1 (flat_map (fun byte => 58 :: fmt_0x 2 (uint8 byte)) (rev addr)).

(** ** [pa_trace_build_hex] ([adv_trace.c]) *)

(** The loop over the bytes to dump; [hexp] is an index in [dst]. *)
Fixpoint build_hex_loop (buffer dst : list Z) (hexp rem : Z) : list Z * Z :=
  match buffer with
  | [] => (dst, hexp)
  | byte :: buffer =>
    let '(dst, count) :=
      snprintf dst hexp (uint32 (Z.max 0 rem))
        (fmt_0x 2 (uint8 byte) ++ [32]) in
    if rem <=? count then (dst, hexp)
    else build_hex_loop buffer dst (hexp + count) (rem - count)
  end.

Definition pa_trace_build_hex (dst : list Z) (dlen : Z) (buffer : list Z)
    (blen : Z) : list Z * Z :=
  let '(dst, hexp) :=
    build_hex_loop (take (Z.to_nat blen) buffer) dst 0 (int32 dlen) in
  let hexp := if 0 <? hexp then hexp - 1 else hexp in
  (write_at dst hexp [0], hexp + 1).

(** The dump of bytes: two digits and a space each, without the last
    space. *)
Definition hex_bytes (buffer : list Z) : list Z :=
  flat_map (fun byte => fmt_0x 2 (uint8 byte) ++ [32]) buffer.

Definition hex_text (buffer : list Z) : list Z :=
  take (length (hex_bytes buffer) - 1) (hex_bytes buffer).

(** An address and some memory. *)
Definition sample_addr : list Z := [52; 18; 0; 238; 255; 192].
Definition sample_memory : list Z := replicate 24 255.

(** The texts that [n] iterations of the loop format from index [bix], and
    the loop over texts. *)
Fixpoint mac_text_list (n : nat) (bix : Z) (addr : list Z)
    : list (list Z) :=
  match n with
  | O => []
  | S n =>
    (fmt_0x 2 (uint8 (addr !!! Z.to_nat (BLE_GAP_ADDR_LEN - 1 - bix)))
     ++ (if bix <? BLE_GAP_ADDR_LEN - 1 then [58] else []))
    :: mac_text_list n (bix + 1) addr
  end.

Fixpoint texts_loop (texts : list (list Z)) (str : list Z) (pos rem : Z)
    : list Z :=
  match texts with
  | [] => str
  | text :: texts =>
    let '(str, len) := snprintf str pos (uint32 (Z.max 0 rem)) text in
    if rem <? len then write_at str pos [0]
    else texts_loop texts str (pos + len) (rem - len)
  end.

(** * Properties *)

(** Unfold the sequencing of operations. *)
Ltac run :=
  cbv [mbind M_bind mret M_ret get modify sd APP_ERROR_CHECK]; cbn beta iota.

(** ** The error recorder *)

Lemma get_attribute_ok (s : machine) (pa_char : nat) :
  (pa_char < ADV_COUNT s)%nat ->
  _adv_ble_get_attribute pa_char s = Ret pa_char s.
Proof.
  intros Hlt. unfold _adv_ble_get_attribute. run.
  assert (Hc : (ADV_FIRST <=? pa_char)%nat && (pa_char <? ADV_LAST s)%nat
               = true).
  { apply andb_true_intro; split;
      [apply Nat.leb_le; unfold ADV_FIRST; lia | apply Nat.ltb_lt; exact Hlt]. }
  rewrite Hc. reflexivity.
Qed.

Lemma clamp_char_lt (s : machine) (pa_char : nat) :
  (0 < ADV_COUNT s)%nat -> (clamp_char s pa_char < ADV_COUNT s)%nat.
Proof.
  intros Hn. unfold clamp_char, ADV_LAST, ADV_ERROR.
  destruct (Nat.leb_spec (ADV_COUNT s) pa_char); lia.
Qed.

(** With [ADV_ERROR] in the table the recorder always returns, and only the
    code and the attribute of the error record change. *)
Lemma set_error_on_attr_ok (s : machine) (errno : Z) (pa_char : nat) :
  (0 < ADV_COUNT s)%nat ->
  _adv_ble_set_error_on_attr errno pa_char s =
  Ret ADV_ERROR (set_pv_error (error_desc s errno (clamp_char s pa_char)) s).
Proof.
  intros Hn. unfold _adv_ble_set_error_on_attr. run.
  change ((pa_char <? ADV_FIRST)%nat || (ADV_LAST s <=? pa_char)%nat)
    with (ADV_LAST s <=? pa_char)%nat.
  fold (clamp_char s pa_char).
  rewrite (get_attribute_ok s (clamp_char s pa_char))
    by (apply clamp_char_lt; exact Hn).
  rewrite (get_attribute_ok s ADV_ERROR) by exact Hn.
  reflexivity.
Qed.

Lemma attribute_char_in_table (s : machine) (ix : nat) :
  (ix < ADV_COUNT s)%nat ->
  clamp_char s (_adv_ble_attribute_char s (Some ix)) = ix.
Proof.
  intros Hlt. unfold clamp_char, _adv_ble_attribute_char, ADV_LAST.
  destruct (Nat.ltb_spec ix (ADV_COUNT s)); [|lia].
  destruct (Nat.leb_spec (ADV_COUNT s) ix); [lia|reflexivity].
Qed.

(** A UUID lookup returns, having at most recorded [PE_INVALID_UUID]. *)
Lemma retrieve_attribute_run (s : machine) (u : ble_uuid_t) :
  (0 < ADV_COUNT s)%nat ->
  exists r s1,
    _adv_ble_retrieve_attribute u s = Ret r s1 /\
    (s1 = s \/
     s1 = set_pv_error (error_desc s (- PE_INVALID_UUID) ADV_ERROR) s).
Proof.
  intros Hn. unfold _adv_ble_retrieve_attribute. run.
  assert (Hcl : clamp_char s ADV_ERROR = ADV_ERROR).
  { unfold clamp_char, ADV_LAST, ADV_ERROR.
    destruct (Nat.leb_spec (ADV_COUNT s) 0); [lia|reflexivity]. }
  destruct (_ || _).
  - run. rewrite set_error_on_attr_ok, Hcl by exact Hn. eauto.
  - destruct (_ <=? _).
    + run. rewrite set_error_on_attr_ok, Hcl by exact Hn. eauto.
    + eauto.
Qed.

(** ** Completion, step by step *)

Lemma complete_write_req_run (s : machine) (retcode : Z) :
  (0 < ADV_COUNT s)%nat ->
  _adv_ble_complete_write_req retcode s =
  APP_ERROR_CHECK (softdevice s (calls s) (write_reply s retcode))
    (log (write_reply s retcode)
       (set_attr_event no_event (write_outcome s retcode))).
Proof.
  intros Hn. unfold _adv_ble_complete_write_req, write_reply, write_outcome.
  run. fold (write_retcode s retcode).
  destruct (write_retcode s retcode <? 0) eqn:Hneg.
  - destruct (negb (write_retcode s retcode =? - PE_ABORT)) eqn:Hab.
    + run. rewrite set_error_on_attr_ok by exact Hn. reflexivity.
    + reflexivity.
  - unfold store_pa_length. destruct (ae_attr (bp_attr_event s)); reflexivity.
Qed.

Lemma complete_read_req_run (s : machine) (retcode : Z) :
  (0 < ADV_COUNT s)%nat ->
  _adv_ble_complete_read_req retcode s =
  (APP_ERROR_CHECK (softdevice s (calls s) (read_reply s retcode));;
   modify (set_attr_event no_event))
    (log (read_reply s retcode) (read_outcome s retcode)).
Proof.
  intros Hn. unfold _adv_ble_complete_read_req, read_reply, read_outcome.
  run. fold (read_retcode s retcode).
  destruct (read_retcode s retcode =? 0) eqn:Hz.
  - reflexivity.
  - destruct (negb (read_retcode s retcode =? - PE_ABORT)) eqn:Hab.
    + run. rewrite set_error_on_attr_ok by exact Hn. reflexivity.
    + reflexivity.
Qed.

Lemma calls_write_outcome (s : machine) (retcode : Z) :
  calls (write_outcome s retcode) = calls s.
Proof.
  unfold write_outcome, store_pa_length.
  repeat match goal with |- context [if ?b then _ else _] => destruct b end;
    try reflexivity.
  destruct (ae_attr (bp_attr_event s)); reflexivity.
Qed.

Lemma calls_read_outcome (s : machine) (retcode : Z) :
  calls (read_outcome s retcode) = calls s.
Proof.
  unfold read_outcome.
  repeat match goal with |- context [if ?b then _ else _] => destruct b end;
    reflexivity.
Qed.

Lemma replies_check (s s1 : machine) (c : call) :
  calls s1 = calls s ->
  replies s (APP_ERROR_CHECK (softdevice s (calls s) c) (log c s1)) c.
Proof.
  intros Hc. unfold replies, APP_ERROR_CHECK.
  destruct (softdevice s (calls s) c =? NRF_SUCCESS); cbn; rewrite Hc; auto.
Qed.

(** C3: [_adv_ble_complete_write_req] and [_adv_ble_complete_read_req]
    send one reply and reset the four fields of the pending-operation record
    before they return, whatever the completion code and whatever the
    record held; they return exactly when the SoftDevice accepts the reply.
    The table holds [ADV_ERROR], as the enumeration makes it. *)
Theorem complete_req_clears_pending (s : machine) (retcode : Z) :
  (0 < ADV_COUNT s)%nat ->
  let ow := _adv_ble_complete_write_req retcode s in
  let or := _adv_ble_complete_read_req retcode s in
  (bp_attr_event (final ow) = no_event /\
   replies s ow (write_reply s retcode)) /\
  (on_return or (fun s' => bp_attr_event s' = no_event) /\
   replies s or (read_reply s retcode)).
Proof.
  intros Hn ow or. subst ow or.
  rewrite complete_write_req_run, complete_read_req_run by exact Hn.
  split; split.
  - unfold APP_ERROR_CHECK. destruct (_ =? NRF_SUCCESS); reflexivity.
  - apply replies_check, calls_write_outcome.
  - run. destruct (_ =? NRF_SUCCESS); cbn; auto.
  - unfold replies. run.
    destruct (_ =? NRF_SUCCESS); cbn; rewrite calls_read_outcome; auto.
Qed.

Lemma complete_req_clears_pending_witness :
  (0 < ADV_COUNT Fixture.writing_5)%nat /\
  bp_attr_event Fixture.writing_5 <> no_event /\
  bp_attr_event
    (final (_adv_ble_complete_write_req (- PE_IO_ERROR) Fixture.writing_5))
  = no_event.
Proof.
  assert (Hn : (0 < ADV_COUNT Fixture.writing_5)%nat) by (vm_compute; lia).
  split; [exact Hn|]. split; [discriminate|].
  exact (proj1 (proj1
    (complete_req_clears_pending Fixture.writing_5 (- PE_IO_ERROR) Hn))).
Defined.

(** ** The write-attribute routine *)







(** C5: on a plain write request ([BLE_GATTS_OP_WRITE_REQ]) a non-zero
    offset is answered [PE_NOT_SUPPORTED]; at offset zero a fixed-size
    attribute answers [PE_INVALID_REQUEST] to any length but its size and a
    variable-size attribute [PE_OVERFLOW] to any length above its maximum.
    In the three cases the routine returns with the machine as it found it:
    no writer was called. *)
Theorem write_validation_rejects (s : machine) (ix : nat)
    (wr : ble_gatts_evt_write_t) (e : pa_error) :
  wr_op wr = BLE_GATTS_OP_WRITE_REQ ->
  write_rejected (bp_attributes s !!! ix) wr e ->
  _adv_ble_write_attribute ix wr s = Ret (- e) s.
Proof.
  intros Hop Hrej. unfold _adv_ble_write_attribute. run.
  rewrite Hop, bool_decide_eq_true_2 by reflexivity. cbn [negb].
  destruct Hrej as [Hoff | Hoff Hfix Hlen | Hoff Hvar Hlen].
  - destruct (Z.eqb_spec (wr_offset wr) 0); [contradiction|reflexivity].
  - rewrite Hoff, Hfix. cbn [Z.eqb negb andb].
    destruct (Z.eqb_spec (wr_len wr) (pa_size (bp_attributes s !!! ix)));
      [contradiction|reflexivity].
  - rewrite Hoff, Hvar. cbn [Z.eqb negb andb].
    destruct (Z.ltb_spec (pa_size (bp_attributes s !!! ix)) (wr_len wr));
      [reflexivity|lia].
Qed.

Lemma write_validation_rejects_witness :
  _adv_ble_write_attribute 1 (Fixture.write_to 1 0 [1; 2; 3]) Fixture.device
    = Ret (- PE_INVALID_REQUEST) Fixture.device /\
  _adv_ble_write_attribute 2 (Fixture.write_to 2 0 (repeat 0 20))
    Fixture.device
    = Ret (- PE_OVERFLOW) Fixture.device /\
  _adv_ble_write_attribute 1 (Fixture.write_to 1 2 [1; 2; 3; 4])
    Fixture.device
    = Ret (- PE_NOT_SUPPORTED) Fixture.device.
Proof.
  split; [|split].
  - apply (write_validation_rejects Fixture.device 1
             (Fixture.write_to 1 0 [1; 2; 3]) PE_INVALID_REQUEST).
    + reflexivity.
    + apply reject_fixed_size; [reflexivity|reflexivity|].
      vm_compute. discriminate.
  - apply (write_validation_rejects Fixture.device 2
             (Fixture.write_to 2 0 (repeat 0 20)) PE_OVERFLOW).
    + reflexivity.
    + apply reject_overflow; reflexivity.
  - apply (write_validation_rejects Fixture.device 1
             (Fixture.write_to 1 2 [1; 2; 3; 4]) PE_NOT_SUPPORTED).
    + reflexivity.
    + apply reject_offset. vm_compute. discriminate.
Defined.

(** ** A request while an operation is in flight *)

(** At the routine, a plain write at offset zero, of a length the attribute
    admits, to an attribute with a writer, is answered [PE_BUSY] while the
    pending record is in use; the routine returns with the machine as it
    found it, so that it neither overwrites the record nor calls a
    writer. *)
Theorem write_while_pending_is_busy (s : machine) (ix : nat)
    (wr : ble_gatts_evt_write_t) (writer : list Z -> Z -> Z) :
  wr_op wr = BLE_GATTS_OP_WRITE_REQ ->
  wr_offset wr = 0 ->
  admissible_length (bp_attributes s !!! ix) (wr_len wr) ->
  pa_writer (bp_attributes s !!! ix) = Some writer ->
  event_in_flight (bp_attr_event s) = true ->
  _adv_ble_write_attribute ix wr s = Ret (- PE_BUSY) s.
Proof.
  intros Hop Hoff Hlen Hw Hbusy. unfold _adv_ble_write_attribute. run.
  rewrite Hop, bool_decide_eq_true_2 by reflexivity.
  rewrite Hoff, Hw, Hbusy. cbn [negb Z.eqb].
  unfold admissible_length in Hlen.
  destruct (pa_varsize (bp_attributes s !!! ix)); cbn [negb andb].
  - destruct (Z.ltb_spec (pa_size (bp_attributes s !!! ix)) (wr_len wr));
      [lia|reflexivity].
  - rewrite Hlen, Z.eqb_refl. reflexivity.
Qed.

Lemma write_while_pending_is_busy_witness :
  event_in_flight (bp_attr_event Fixture.writing_5) = true /\
  _adv_ble_write_attribute 1 (Fixture.write_to 1 0 [1; 2; 3; 4])
    Fixture.writing_5
  = Ret (- PE_BUSY) Fixture.writing_5.
Proof.
  split; [reflexivity|].
  apply (write_while_pending_is_busy Fixture.writing_5 1
           (Fixture.write_to 1 0 [1; 2; 3; 4]) Fixture.deferred_writer);
    reflexivity.
Defined.

(** The busy test of the routine comes after its checks of the request:
    with a deferred write in flight, a write request with a non-zero offset
    is answered [PE_NOT_SUPPORTED], not [PE_BUSY], and that is the code the
    request records. *)
Lemma pending_write_not_always_busy :
  event_in_flight (bp_attr_event Fixture.writing_5) = true /\
  (~ exists s',
       _adv_ble_write_attribute 1 (Fixture.write_to 1 1 [1; 2; 3; 4])
         Fixture.writing_5 = Ret (- PE_BUSY) s') /\
  pe_errno
    (pv_error
       (final (_adv_ble_write_req (Fixture.write_to 1 1 [1; 2; 3; 4])
                 Fixture.writing_5)))
  = - PE_NOT_SUPPORTED.
Proof.
  split; [reflexivity|]. split; [|reflexivity].
  intros [s' H]. vm_compute in H. discriminate H.
Qed.

(** While an operation is in flight, [_adv_ble_write_attribute] refuses
    every request and leaves the machine as it found it. *)
Lemma write_attribute_in_flight (s : machine) (ix : nat)
    (wr : ble_gatts_evt_write_t) :
  event_in_flight (bp_attr_event s) = true ->
  exists rc, _adv_ble_write_attribute ix wr s = Ret rc s /\ rc < 0.
Proof.
  intros Hbusy. unfold _adv_ble_write_attribute. run. rewrite Hbusy.
  repeat match goal with
         | |- context [if ?b then _ else _] => destruct b
         | |- context [match ?x with Some _ => _ | None => _ end] =>
           destruct x
         end;
    eexists; (split; [reflexivity|reflexivity]).
Qed.

(** At the request, whatever the routine answered, the refusal is completed
    on the record of the operation in flight, which is reset. *)
Lemma write_req_resets_record_in_flight (s : machine)
    (wr : ble_gatts_evt_write_t) :
  (0 < ADV_COUNT s)%nat ->
  prepared_op (wr_op wr) = false ->
  event_in_flight (bp_attr_event s) = true ->
  bp_attr_event (final (_adv_ble_write_req wr s)) = no_event.
Proof.
  intros Hn Hop Hbusy.
  destruct (retrieve_attribute_run s (wr_uuid wr) Hn) as (r & s1 & Hr & Hs1).
  assert (Hn1 : (0 < ADV_COUNT s1)%nat)
    by (destruct Hs1 as [->| ->]; exact Hn).
  assert (Hbusy1 : event_in_flight (bp_attr_event s1) = true)
    by (destruct Hs1 as [->| ->]; exact Hbusy).
  assert (Hrun : exists rc, rc < 0 /\ _adv_ble_write_req wr s =
    (_adv_ble_complete_write_req rc;;
     s ← get;
     if (rc =? 0) && bp_reboot s
     then modify _adv_ble_disconnect else mret tt) s1).
  { assert (Hkeep : forall rc, rc < 0 -> (rc =? PE_DEFERRED) = false).
    { intros rc Hrc. apply Z.eqb_neq. unfold pa_errno. lia. }
    destruct (bp_entering_sleep s1) eqn:Hsleep.
    - exists (- PE_ABORT). split; [reflexivity|].
      unfold _adv_ble_write_req.
      destruct (wr_op wr); try discriminate Hop;
        run; rewrite Hr, Hsleep; reflexivity.
    - destruct r as [ix|].
      + destruct (write_attribute_in_flight s1 ix wr Hbusy1)
          as (rc & Hwa & Hrc).
        exists rc. split; [exact Hrc|].
        unfold _adv_ble_write_req.
        destruct (wr_op wr); try discriminate Hop;
          run; rewrite Hr, Hsleep; run; rewrite Hwa, (Hkeep rc Hrc);
          reflexivity.
      + exists (- PE_INVALID_UUID). split; [reflexivity|].
        unfold _adv_ble_write_req.
        destruct (wr_op wr); try discriminate Hop;
          run; rewrite Hr, Hsleep; reflexivity. }
  destruct Hrun as (rc & Hneg & Hrun). rewrite Hrun. run.
  assert (Hnz : (rc =? 0) = false) by (apply Z.eqb_neq; lia).
  rewrite complete_write_req_run by exact Hn1.
  unfold APP_ERROR_CHECK. rewrite Hnz. cbn [andb].
  destruct (_ =? NRF_SUCCESS); reflexivity.
Qed.


(** ** Read completion *)

(** C6: [_adv_ble_complete_read_req] called with [PE_NO_ERROR] while the
    attribute under operation has a meaningful length of zero records
    [PE_INTERNAL] for that attribute and replies that the read is not
    permitted. *)
Theorem complete_read_zero_length_is_internal (s : machine) (ix : nat)
    (attr : adv_ble_attribute) :
  ae_attr (bp_attr_event s) = Some ix ->
  bp_attributes s !! ix = Some attr ->
  pa_length attr = 0 ->
  let o := _adv_ble_complete_read_req PE_NO_ERROR s in
  replies s o
    (sd_ble_gatts_rw_authorize_reply (bp_conn_handle s)
       {| reply_type := BLE_GATTS_AUTHORIZE_TYPE_READ;
          gatt_status := BLE_GATT_STATUS_ATTERR_READ_NOT_PERMITTED;
          update := false; reply_offset := 0; reply_len := 0;
          p_data := NULL |}) /\
  pe_errno (pv_error (final o)) = - PE_INTERNAL /\
  pe_attr (pv_error (final o)) = uint8 (Z.of_nat ix).
Proof.
  intros Hev Hat Hlen o. subst o.
  pose proof (lookup_lt_Some _ _ _ Hat) as Hix. fold (ADV_COUNT s) in Hix.
  assert (Hrc : read_retcode s PE_NO_ERROR = - PE_INTERNAL).
  { unfold read_retcode, attribute_at. rewrite Hev.
    rewrite (list_lookup_total_correct _ _ _ Hat), Hlen. reflexivity. }
  assert (Hreply : read_reply s PE_NO_ERROR =
    sd_ble_gatts_rw_authorize_reply (bp_conn_handle s)
       {| reply_type := BLE_GATTS_AUTHORIZE_TYPE_READ;
          gatt_status := BLE_GATT_STATUS_ATTERR_READ_NOT_PERMITTED;
          update := false; reply_offset := 0; reply_len := 0;
          p_data := NULL |}).
  { unfold read_reply. rewrite Hrc. reflexivity. }
  assert (Herr : pv_error (read_outcome s PE_NO_ERROR) =
                 error_desc s (- PE_INTERNAL) ix).
  { unfold read_outcome. rewrite Hrc, Hev.
    change (- PE_INTERNAL =? 0) with false.
    change (negb (- PE_INTERNAL =? - PE_ABORT)) with true. cbn iota.
    rewrite attribute_char_in_table by exact Hix. reflexivity. }
  rewrite complete_read_req_run by lia. rewrite Hreply.
  unfold replies. run.
  destruct (_ =? NRF_SUCCESS);
    cbn [final returned log set_attr_event pv_error calls];
    rewrite Herr, calls_read_outcome; auto.
Qed.

Lemma complete_read_zero_length_is_internal_witness :
  let o := _adv_ble_complete_read_req PE_NO_ERROR Fixture.reading in
  ae_attr (bp_attr_event Fixture.reading) = Some 2%nat /\
  replies Fixture.reading o
    (sd_ble_gatts_rw_authorize_reply 0
       {| reply_type := BLE_GATTS_AUTHORIZE_TYPE_READ;
          gatt_status := BLE_GATT_STATUS_ATTERR_READ_NOT_PERMITTED;
          update := false; reply_offset := 0; reply_len := 0;
          p_data := NULL |}) /\
  pe_errno (pv_error (final o)) = -3 /\
  pe_attr (pv_error (final o)) = 2.
Proof.
  split; [reflexivity|].
  apply (complete_read_zero_length_is_internal Fixture.reading 2
           (bp_attributes Fixture.reading !!! 2%nat)); reflexivity.
Defined.

(** The same through [_adv_ble_read_req]: the reader of attribute 4 answers
    [PE_NO_ERROR] and leaves the length at the zero the request set. *)
Example silent_reader_is_internal :
  let o := _adv_ble_read_req (Fixture.read_from 4) Fixture.device in
  calls (final o) =
    [pa_reader_call 4;
     sd_ble_gatts_rw_authorize_reply 0
       {| reply_type := BLE_GATTS_AUTHORIZE_TYPE_READ;
          gatt_status := BLE_GATT_STATUS_ATTERR_READ_NOT_PERMITTED;
          update := false; reply_offset := 0; reply_len := 0;
          p_data := NULL |}] /\
  pe_errno (pv_error (final o)) = - PE_INTERNAL /\
  pe_attr (pv_error (final o)) = 4.
Proof. vm_compute. repeat split. Qed.

(** ** Disconnection *)

Lemma disconnect_when_disconnected (s : machine) (h : Z) :
  bp_conn_handle s = BLE_CONN_HANDLE_INVALID ->
  _adv_ble_evt_handler (disconnected_evt h) s =
  Ret tt (_adv_ble_handle_disconnect s).
Proof.
  intros Hc. unfold _adv_ble_evt_handler. run. rewrite Hc. reflexivity.
Qed.

(** With a connection, an event for another valid handle first asks the
    SoftDevice to close that one. *)
Lemma disconnect_when_connected (s : machine) (h : Z) :
  bp_conn_handle s <> BLE_CONN_HANDLE_INVALID ->
  _adv_ble_evt_handler (disconnected_evt h) s =
  (if negb (h =? bp_conn_handle s) && negb (h =? BLE_CONN_HANDLE_INVALID)
   then
     let s1 := log (sd_ble_gap_disconnect h) s in
     let rc := softdevice s (calls s) (sd_ble_gap_disconnect h) in
     if rc =? NRF_SUCCESS
     then Ret tt (_adv_ble_handle_disconnect
                    (set_conn_handle BLE_CONN_HANDLE_INVALID s1))
     else Fault rc s1
   else Ret tt (_adv_ble_handle_disconnect
                  (set_conn_handle BLE_CONN_HANDLE_INVALID s))).
Proof.
  intros Hc. unfold _adv_ble_evt_handler. run.
  destruct (Z.eqb_spec (bp_conn_handle s) BLE_CONN_HANDLE_INVALID);
    [contradiction|].
  cbn [conn_handle evt_id disconnected_evt].
  destruct (negb (h =? bp_conn_handle s)); cbn [andb]; [|reflexivity].
  destruct (negb (h =? BLE_CONN_HANDLE_INVALID)); [|reflexivity].
  run. destruct (_ =? NRF_SUCCESS); reflexivity.
Qed.

(** C7: when [_adv_ble_evt_handler] returns from a disconnect event, the
    pending record is reset and the connection handle is invalid, whatever
    they were, and any further disconnect event leaves that machine as it
    is.  The handler fails to return only when the event names a valid
    handle other than the current one and the SoftDevice refuses to close
    it. *)
Theorem disconnect_clears_and_is_idempotent (s : machine) (h : Z) :
  match _adv_ble_evt_handler (disconnected_evt h) s with
  | Ret _ s' =>
    bp_attr_event s' = no_event /\
    bp_conn_handle s' = BLE_CONN_HANDLE_INVALID /\
    forall h', _adv_ble_evt_handler (disconnected_evt h') s' = Ret tt s'
  | Fault err _ =>
    bp_conn_handle s <> BLE_CONN_HANDLE_INVALID /\
    h <> bp_conn_handle s /\ h <> BLE_CONN_HANDLE_INVALID /\
    err = softdevice s (calls s) (sd_ble_gap_disconnect h) /\
    err <> NRF_SUCCESS
  end.
Proof.
  assert (Hagain : forall s' : machine,
             bp_conn_handle s' = BLE_CONN_HANDLE_INVALID ->
             bp_attr_event s' = no_event ->
             forall h',
               _adv_ble_evt_handler (disconnected_evt h') s' = Ret tt s').
  { intros s' Hc' He' h'. rewrite disconnect_when_disconnected by exact Hc'.
    destruct s'; cbn in *. subst. reflexivity. }
  destruct (Z.eq_dec (bp_conn_handle s) BLE_CONN_HANDLE_INVALID) as [Hc|Hc].
  - rewrite disconnect_when_disconnected by exact Hc.
    split; [reflexivity|]. split; [exact Hc|].
    apply Hagain; [exact Hc|reflexivity].
  - rewrite disconnect_when_connected by exact Hc.
    destruct (Z.eqb_spec h (bp_conn_handle s)) as [He|Hne]; cbn [negb andb].
    + split; [reflexivity|]. split; [reflexivity|].
      apply Hagain; reflexivity.
    + destruct (Z.eqb_spec h BLE_CONN_HANDLE_INVALID) as [Hi|Hni];
        cbn [negb].
      * split; [reflexivity|]. split; [reflexivity|].
        apply Hagain; reflexivity.
      * cbv zeta.
        destruct (Z.eqb_spec
                    (softdevice s (calls s) (sd_ble_gap_disconnect h))
                    NRF_SUCCESS) as [Hok|Hko].
        -- split; [reflexivity|]. split; [reflexivity|].
           apply Hagain; reflexivity.
        -- repeat split; assumption.
Qed.

(** ** The stalled-connection watchdog *)

Lemma timer_cb_no_connection (s : machine) :
  we_enable (worker_engine s) = false ->
  bp_conn_handle s = BLE_CONN_HANDLE_INVALID ->
  let s' := _adv_ble_worker_timer_cb s in
  we_enable (worker_engine s') = false /\
  bp_conn_handle s' = BLE_CONN_HANDLE_INVALID /\
  calls s' = calls s.
Proof.
  intros Hen Hc. unfold _adv_ble_worker_timer_cb.
  cbn [worker_engine on_worker_engine set_worker_engine set_we_time
       we_enable bp_conn_handle we_time we_last_time].
  rewrite Hen, Hc. cbn [negb].
  destruct (_ <? _); cbn; auto.
Qed.

Lemma ticks_no_connection (n : nat) (s : machine) :
  we_enable (worker_engine s) = false ->
  bp_conn_handle s = BLE_CONN_HANDLE_INVALID ->
  calls (timer_ticks n s) = calls s.
Proof.
  revert s. induction n as [|n IH]; intros s Hen Hc; cbn [timer_ticks].
  - reflexivity.
  - destruct (timer_cb_no_connection _ Hen Hc) as (H1 & H2 & H3).
    rewrite IH by assumption. exact H3.
Qed.

(** C8: a timer expiration with the workers disabled, a connection handle
    set, and more than [ADV_BLE_STALL_DELAY_S] between the advanced engine
    time and the last activity asks the SoftDevice to close the connection;
    once the disconnect event has invalidated the handle, no number of
    further expirations issues another call. *)
Theorem stall_watchdog_disconnects_once (s : machine) (n : nat) :
  we_enable (worker_engine s) = false ->
  bp_conn_handle s <> BLE_CONN_HANDLE_INVALID ->
  let time := uint32 (we_time (worker_engine s) + ADV_BLE_WORKER_PACE_S) in
  ADV_BLE_STALL_DELAY_S < uint32 (time - we_last_time (worker_engine s)) ->
  let s1 := _adv_ble_worker_timer_cb s in
  let s2 := final (_adv_ble_evt_handler
                     (disconnected_evt (bp_conn_handle s)) s1) in
  calls s1 = calls s ++ [sd_ble_gap_disconnect (bp_conn_handle s)] /\
  bp_conn_handle s2 = BLE_CONN_HANDLE_INVALID /\
  calls (timer_ticks n s2) = calls s1.
Proof.
  intros Hen Hc time Hstall s1 s2.
  assert (Hs1 : s1 = log (sd_ble_gap_disconnect (bp_conn_handle s))
                       (on_worker_engine (set_we_time time) s)).
  { subst s1 time. unfold _adv_ble_worker_timer_cb, _adv_ble_disconnect.
    cbn [worker_engine on_worker_engine set_worker_engine set_we_time
         we_enable bp_conn_handle we_time we_last_time].
    rewrite Hen. cbn [negb].
    destruct (Z.ltb_spec ADV_BLE_STALL_DELAY_S
                (uint32 (uint32 (we_time (worker_engine s)
                                 + ADV_BLE_WORKER_PACE_S)
                         - we_last_time (worker_engine s)))); [|lia].
    destruct (Z.eqb_spec (bp_conn_handle s) BLE_CONN_HANDLE_INVALID);
      [contradiction|reflexivity]. }
  assert (Hs2 : s2 = _adv_ble_handle_disconnect
                       (set_conn_handle BLE_CONN_HANDLE_INVALID s1)).
  { subst s2. rewrite disconnect_when_connected
      by (rewrite Hs1; exact Hc).
    replace (bp_conn_handle s1) with (bp_conn_handle s)
      by (rewrite Hs1; reflexivity).
    rewrite Z.eqb_refl. reflexivity. }
  split; [rewrite Hs1; reflexivity|].
  split; [rewrite Hs2; reflexivity|].
  assert (Hen2 : we_enable (worker_engine s2) = false)
    by (rewrite Hs2, Hs1; exact Hen).
  assert (Hc2 : bp_conn_handle s2 = BLE_CONN_HANDLE_INVALID)
    by (rewrite Hs2; reflexivity).
  rewrite (ticks_no_connection n s2 Hen2 Hc2), Hs2. reflexivity.
Qed.

Lemma stall_watchdog_disconnects_once_witness :
  let s := Fixture.stalled in
  (we_time (worker_engine s) = 120 /\ bp_conn_handle s = 0) /\
  let s1 := _adv_ble_worker_timer_cb s in
  let s2 := final (_adv_ble_evt_handler
                     (disconnected_evt (bp_conn_handle s)) s1) in
  calls s1 = calls s ++ [sd_ble_gap_disconnect (bp_conn_handle s)] /\
  bp_conn_handle s2 = BLE_CONN_HANDLE_INVALID /\
  calls (timer_ticks 100 s2) = calls s1.
Proof.
  split; [vm_compute; split; reflexivity|].
  apply (stall_watchdog_disconnects_once Fixture.stalled 100).
  - vm_compute. reflexivity.
  - vm_compute. discriminate.
  - vm_compute. reflexivity.
Defined.

(** ** Requests while the device is entering sleep *)

(** A write request that is not a prepared or queued one, received with the
    sleep flag set and no operation pending, reaches the completion with
    [PE_ABORT]; the completion finds a nil event, turns the code into
    [PE_INTERNAL], records it and replies that the write is not permitted. *)
Lemma write_req_entering_sleep (s : machine) (wr : ble_gatts_evt_write_t) :
  (0 < ADV_COUNT s)%nat ->
  prepared_op (wr_op wr) = false ->
  bp_entering_sleep s = true ->
  bp_attr_event s = no_event ->
  let o := _adv_ble_write_req wr s in
  replies s o
    (sd_ble_gatts_rw_authorize_reply (bp_conn_handle s)
       {| reply_type := BLE_GATTS_AUTHORIZE_TYPE_WRITE;
          gatt_status := BLE_GATT_STATUS_ATTERR_WRITE_NOT_PERMITTED;
          update := false; reply_offset := 0; reply_len := 0;
          p_data := NULL |}) /\
  pe_errno (pv_error (final o)) = - PE_INTERNAL.
Proof.
  intros Hn Hop Hsleep Hidle o. subst o.
  destruct (retrieve_attribute_run s (wr_uuid wr) Hn) as (r & s1 & Hr & Hs1).
  assert (Hrun : _adv_ble_write_req wr s =
    (_adv_ble_complete_write_req (- PE_ABORT);;
     s ← get;
     if ((- PE_ABORT) =? 0) && bp_reboot s
     then modify _adv_ble_disconnect else mret tt) s1).
  { unfold _adv_ble_write_req.
    destruct (wr_op wr); try discriminate Hop;
      run; rewrite Hr;
      (replace (bp_entering_sleep s1) with true
         by (destruct Hs1 as [->| ->]; symmetry; exact Hsleep));
      reflexivity. }
  rewrite Hrun. run.
  assert (Hn1 : (0 < ADV_COUNT s1)%nat)
    by (destruct Hs1 as [->| ->]; exact Hn).
  assert (He1 : bp_attr_event s1 = no_event)
    by (destruct Hs1 as [->| ->]; exact Hidle).
  rewrite complete_write_req_run by exact Hn1.
  assert (Hrc : write_retcode s1 (- PE_ABORT) = - PE_INTERNAL)
    by (unfold write_retcode; rewrite He1; reflexivity).
  assert (Hreply : write_reply s1 (- PE_ABORT) =
    sd_ble_gatts_rw_authorize_reply (bp_conn_handle s)
       {| reply_type := BLE_GATTS_AUTHORIZE_TYPE_WRITE;
          gatt_status := BLE_GATT_STATUS_ATTERR_WRITE_NOT_PERMITTED;
          update := false; reply_offset := 0; reply_len := 0;
          p_data := NULL |}).
  { unfold write_reply. rewrite Hrc, He1.
    destruct Hs1 as [->| ->]; reflexivity. }
  assert (Herr : pe_errno (pv_error (write_outcome s1 (- PE_ABORT)))
                 = - PE_INTERNAL).
  { unfold write_outcome. rewrite Hrc. reflexivity. }
  assert (Hcalls : calls s1 = calls s)
    by (destruct Hs1 as [->| ->]; reflexivity).
  assert (Hsd : softdevice s1 = softdevice s)
    by (destruct Hs1 as [->| ->]; reflexivity).
  rewrite Hreply, Hsd, Hcalls. unfold replies, APP_ERROR_CHECK.
  change (- PE_ABORT =? 0) with false. cbn [andb].
  destruct (_ =? NRF_SUCCESS);
    cbn [final returned log set_attr_event pv_error calls];
    rewrite Herr, calls_write_outcome, Hcalls; auto.
Qed.

(** A read request received with the sleep flag set never gets the abort
    status: the busy check or the completion replaces [PE_ABORT], the error
    is recorded and the read is answered as not permitted. *)
Lemma read_req_entering_sleep (s : machine) (rd : ble_gatts_evt_read_t) :
  (0 < ADV_COUNT s)%nat ->
  bp_entering_sleep s = true ->
  let o := _adv_ble_read_req rd s in
  replies s o
    (sd_ble_gatts_rw_authorize_reply (bp_conn_handle s)
       {| reply_type := BLE_GATTS_AUTHORIZE_TYPE_READ;
          gatt_status := BLE_GATT_STATUS_ATTERR_READ_NOT_PERMITTED;
          update := false; reply_offset := 0; reply_len := 0;
          p_data := NULL |}) /\
  (pe_errno (pv_error (final o)) = - PE_INTERNAL \/
   pe_errno (pv_error (final o)) = - PE_BUSY).
Proof.
  intros Hn Hsleep o. subst o.
  destruct (retrieve_attribute_run s (rd_uuid rd) Hn) as (r & s1 & Hr & Hs1).
  assert (Hsl1 : bp_entering_sleep s1 = true)
    by (destruct Hs1 as [->| ->]; exact Hsleep).
  assert (Hrun : _adv_ble_read_req rd s =
    _adv_ble_complete_read_req
      (if event_in_flight (bp_attr_event s1) then - PE_BUSY else - PE_ABORT)
      s1).
  { unfold _adv_ble_read_req. run. rewrite Hr.
    destruct (negb (rd_offset rd =? 0)); cbn beta iota; rewrite Hsl1;
      destruct (event_in_flight (bp_attr_event s1)); reflexivity. }
  rewrite Hrun. clear Hrun.
  set (rc := if event_in_flight (bp_attr_event s1)
             then - PE_BUSY else - PE_ABORT).
  assert (Hn1 : (0 < ADV_COUNT s1)%nat)
    by (destruct Hs1 as [->| ->]; exact Hn).
  assert (Hrc : read_retcode s1 rc = - PE_INTERNAL \/
                read_retcode s1 rc = - PE_BUSY).
  { unfold read_retcode, rc, event_in_flight.
    destruct (ae_attr (bp_attr_event s1)) as [ix|].
    - rewrite bool_decide_eq_true_2 by eauto.
      rewrite orb_true_r. right. reflexivity.
    - rewrite bool_decide_eq_false_2 by (intros [? ?]; discriminate).
      left. reflexivity. }
  assert (Hreply : read_reply s1 rc =
    sd_ble_gatts_rw_authorize_reply (bp_conn_handle s)
       {| reply_type := BLE_GATTS_AUTHORIZE_TYPE_READ;
          gatt_status := BLE_GATT_STATUS_ATTERR_READ_NOT_PERMITTED;
          update := false; reply_offset := 0; reply_len := 0;
          p_data := NULL |}).
  { unfold read_reply.
    replace (bp_conn_handle s1) with (bp_conn_handle s)
      by (destruct Hs1 as [->| ->]; reflexivity).
    destruct Hrc as [-> | ->]; reflexivity. }
  assert (Herr : pe_errno (pv_error (read_outcome s1 rc))
                 = read_retcode s1 rc).
  { unfold read_outcome. destruct Hrc as [-> | ->]; reflexivity. }
  assert (Hcalls : calls s1 = calls s)
    by (destruct Hs1 as [->| ->]; reflexivity).
  assert (Hsd : softdevice s1 = softdevice s)
    by (destruct Hs1 as [->| ->]; reflexivity).
  rewrite complete_read_req_run by exact Hn1.
  rewrite Hreply, Hsd, Hcalls. unfold replies. run.
  destruct (_ =? NRF_SUCCESS);
    cbn [final returned log set_attr_event pv_error calls];
    rewrite Herr, calls_read_outcome, Hcalls; auto.
Qed.

(** C1 does not hold on the code: on the repository's device, connected
    after slow advertising raised the sleep flag, a write request and a read
    request for [ADV_ERROR] are answered "not permitted", not with the
    abort status [BLE_GATT_STATUS_ATTERR_UNLIKELY_ERROR], and the error
    record, empty before, holds [PE_INTERNAL] afterwards. *)
Theorem entering_sleep_request_not_aborted :
  let wr := Fixture.write_to ADV_ERROR 0 [1; 2; 3; 4; 5; 6; 7; 8] in
  let ow := _adv_ble_write_req wr Fixture.sleeper in
  let or := _adv_ble_read_req (Fixture.read_from ADV_ERROR) Fixture.sleeper in
  (bp_entering_sleep Fixture.sleeper = true /\
   bp_attr_event Fixture.sleeper = no_event /\
   pv_error Fixture.sleeper = no_error_desc /\
   calls Fixture.sleeper = []) /\
  (returned ow = true /\
   calls (final ow) =
     [sd_ble_gatts_rw_authorize_reply 0
        {| reply_type := BLE_GATTS_AUTHORIZE_TYPE_WRITE;
           gatt_status := BLE_GATT_STATUS_ATTERR_WRITE_NOT_PERMITTED;
           update := false; reply_offset := 0; reply_len := 0;
           p_data := NULL |}] /\
   pe_errno (pv_error (final ow)) = - PE_INTERNAL) /\
  (returned or = true /\
   calls (final or) =
     [sd_ble_gatts_rw_authorize_reply 0
        {| reply_type := BLE_GATTS_AUTHORIZE_TYPE_READ;
           gatt_status := BLE_GATT_STATUS_ATTERR_READ_NOT_PERMITTED;
           update := false; reply_offset := 0; reply_len := 0;
           p_data := NULL |}] /\
   pe_errno (pv_error (final or)) = - PE_INTERNAL).
Proof. vm_compute. repeat split. Qed.

(** Without the sleep flag the same read is served. *)
Example awake_read_is_served :
  calls (final (_adv_ble_read_req (Fixture.read_from ADV_ERROR)
                  Fixture.advertiser)) =
  [sd_ble_gatts_rw_authorize_reply 0
     {| reply_type := BLE_GATTS_AUTHORIZE_TYPE_READ;
        gatt_status := BLE_GATT_STATUS_SUCCESS;
        update := true; reply_offset := 0; reply_len := 8;
        p_data := PA_VAR ADV_ERROR |}].
Proof. vm_compute. reflexivity. Qed.

(** The abort status is reached only when the completion finds a record in
    flight: here the deferred write of another request, which the refused
    request then resets. *)
Example abort_status_needs_pending_record :
  let s := set_entering_sleep true Fixture.writing_5 in
  let o := _adv_ble_write_req (Fixture.write_to 1 0 [1; 2; 3; 4]) s in
  calls (final o) = calls s ++
    [sd_ble_gatts_rw_authorize_reply 0
       {| reply_type := BLE_GATTS_AUTHORIZE_TYPE_WRITE;
          gatt_status := BLE_GATT_STATUS_ATTERR_UNLIKELY_ERROR;
          update := false; reply_offset := 0; reply_len := 5;
          p_data := PV_TRANSIENT |}] /\
  pv_error (final o) = pv_error s /\
  bp_attr_event (final o) = no_event.
Proof. vm_compute. repeat split. Qed.

(** ** The disconnection handler *)

(** At every machine, all [_adv_ble_handle_disconnect] does is reset the
    pending record. *)
Lemma handle_disconnect_only_resets (s : machine) :
  _adv_ble_handle_disconnect s = set_attr_event no_event s.
Proof. reflexivity. Qed.


(** * The module as a reactive system: properties *)

(** ** Rules for specifications *)

Section Triples.
Context {A B : Type}.
Implicit Types (P E : machine -> Prop).

Lemma triple_ret P E (Q : A -> machine -> Prop) (a : A) :
  (forall s, P s -> Q a s) -> triple P (mret a) Q E.
Proof. intros H s Hs. apply H, Hs. Qed.

Lemma triple_bind P E (m : M A) (k : A -> M B) (Q : A -> machine -> Prop)
    (R : B -> machine -> Prop) :
  triple P m Q E -> (forall a, triple (Q a) (k a) R E) ->
  triple P (m ≫= k) R E.
Proof.
  intros Hm Hk s Hs. specialize (Hm s Hs).
  unfold mbind, M_bind. destruct (m s) as [a s'|err s'].
  - apply Hk, Hm.
  - exact Hm.
Qed.

Lemma triple_weaken P P' E (m : M A) (Q Q' : A -> machine -> Prop) :
  triple P' m Q' E -> (forall s, P s -> P' s) ->
  (forall a s, Q' a s -> Q a s) -> triple P m Q E.
Proof.
  intros Hm HP HQ s Hs. specialize (Hm s (HP s Hs)).
  destruct (m s); auto.
Qed.
End Triples.

Lemma triple_get P E : triple P get (fun a s => a = s /\ P s) E.
Proof. intros s Hs. split; [reflexivity|exact Hs]. Qed.

Lemma triple_modify P E (f : machine -> machine) (Q : unit -> machine -> Prop) :
  (forall s, P s -> Q tt (f s)) -> triple P (modify f) Q E.
Proof. intros H s Hs. apply H, Hs. Qed.

Lemma triple_sd P E (c : call) (Q : Z -> machine -> Prop) :
  (forall s, P s -> Q (softdevice s (calls s) c) (log c s)) ->
  triple P (sd c) Q E.
Proof. intros H s Hs. apply H, Hs. Qed.

Lemma triple_check P (E : machine -> Prop) (err : Z) (Q : unit -> machine -> Prop) :
  (forall s, P s -> Q tt s) -> (forall s, P s -> E s) ->
  triple P (APP_ERROR_CHECK err) Q E.
Proof.
  intros HQ HE s Hs. unfold APP_ERROR_CHECK.
  destruct (err =? NRF_SUCCESS); auto.
Qed.

Lemma keeps_ret {A} I (a : A) : keeps I (mret a).
Proof. apply triple_ret. auto. Qed.

Lemma keeps_bind {A B} I (m : M A) (k : A -> M B) :
  keeps I m -> (forall a, keeps I (k a)) -> keeps I (m ≫= k).
Proof. intros Hm Hk. eapply triple_bind; [exact Hm|exact Hk]. Qed.

Lemma keeps_get I : keeps I get.
Proof. intros s Hs. exact Hs. Qed.

Lemma keeps_modify I (f : machine -> machine) :
  (forall s, I s -> I (f s)) -> keeps I (modify f).
Proof. intros H. apply triple_modify, H. Qed.

Lemma keeps_sd I (c : call) :
  (forall s, I s -> I (log c s)) -> keeps I (sd c).
Proof. intros H. apply triple_sd, H. Qed.

Lemma keeps_check I (err : Z) : keeps I (APP_ERROR_CHECK err).
Proof. apply triple_check; auto. Qed.

Ltac keeps_step :=
  match goal with
  | |- keeps _ (mret _) => apply keeps_ret
  | |- keeps _ (_ ≫= _) => apply keeps_bind; [|intros ?]
  | |- keeps _ get => apply keeps_get
  | |- keeps _ (modify _) => apply keeps_modify
  | |- keeps _ (sd _) => apply keeps_sd
  | |- keeps _ (APP_ERROR_CHECK _) => apply keeps_check
  | |- keeps _ (if ?b then _ else _) => destruct b
  | |- keeps _ (match (if ?b then _ else _) with _ => _ end) => destruct b
  | |- keeps _ (match ?x with _ => _ end) => destruct x
  end.

Lemma triple_pure {A} (P E : machine -> Prop) (phi : Prop) (m : M A)
    (Q : A -> machine -> Prop) :
  (phi -> triple P m Q E) -> triple (fun s => P s /\ phi) m Q E.
Proof. intros H s [Hs Hphi]. apply H; assumption. Qed.

Section Frame.

Variable I : machine -> Prop.
Variable ok : nat -> Prop.
Hypothesis I_pv_error : forall v s, I s -> I (set_pv_error v s).
Hypothesis I_pv_transient : forall v s, I s -> I (set_pv_transient v s).
Hypothesis I_event_same :
  forall e s, ae_attr e = ae_attr (bp_attr_event s) ->
              I s -> I (set_attr_event e s).
Hypothesis I_event_none :
  forall e s, ae_attr e = None -> I s -> I (set_attr_event e s).
Hypothesis I_event_some :
  forall e ix s, ae_attr e = Some ix -> ok ix ->
                 I s -> I (set_attr_event e s).
Hypothesis I_retrieved :
  forall s z, I s -> (Z.of_nat (ADV_COUNT s) <=? uint16 z) = false ->
              ok (Z.to_nat (uint16 z)).
Hypothesis I_pa_length :
  forall p n s, I s -> I (store_pa_length p n s).
Hypothesis I_conn_handle : forall v s, I s -> I (set_conn_handle v s).
Hypothesis I_reboot : forall s, I s -> I (set_reboot false s).
Hypothesis I_fast_timeout : forall v s, I s -> I (set_fast_timeout v s).
Hypothesis I_log : forall c s, I s -> I (log c s).
Hypothesis I_feed : forall s, I s -> I (_adv_ble_worker_feed s).
Hypothesis I_ble_status :
  forall s, I s -> I (_adv_ble_worker_update_ble_status true s).
Hypothesis I_timer : forall s, I s -> I (_adv_ble_worker_timer_cb s).
Hypothesis I_adv : forall e s, I s -> I (_adv_ble_adv_event_handler e s).

Local Hint Resolve I_pv_error I_pv_transient I_pa_length
  I_conn_handle I_reboot I_fast_timeout I_log I_feed I_ble_status I_timer
  I_adv : core.

Lemma I_event_data p s : I s -> I (on_attr_event (set_ae_data p) s).
Proof. intros. apply I_event_same; auto. Qed.

Lemma I_event_length n s : I s -> I (on_attr_event (set_ae_length n) s).
Proof. intros. apply I_event_same; auto. Qed.

Lemma I_event_offset n s : I s -> I (on_attr_event (set_ae_offset n) s).
Proof. intros. apply I_event_same; auto. Qed.

Lemma I_event_reset s : I s -> I (set_attr_event no_event s).
Proof. intros. apply I_event_none; auto. Qed.

Lemma I_disconnect s : I s -> I (_adv_ble_disconnect s).
Proof. unfold _adv_ble_disconnect. destruct (negb _); auto. Qed.

Lemma I_handle_disconnect s : I s -> I (_adv_ble_handle_disconnect s).
Proof. unfold _adv_ble_handle_disconnect. apply I_event_reset. Qed.

Local Hint Resolve I_event_data I_event_length I_event_offset I_event_reset
  I_disconnect I_handle_disconnect : core.

Ltac frame := repeat keeps_step; auto.

Lemma keeps_get_attribute c : keeps I (_adv_ble_get_attribute c).
Proof. unfold _adv_ble_get_attribute. frame. Qed.

Lemma keeps_set_error_on_attr e c : keeps I (_adv_ble_set_error_on_attr e c).
Proof.
  unfold _adv_ble_set_error_on_attr. repeat keeps_step;
    auto using keeps_get_attribute.
Qed.

(** A UUID lookup only returns attributes of the table. *)
Lemma triple_retrieve_attribute u :
  triple I (_adv_ble_retrieve_attribute u)
    (fun r s => I s /\ forall ix, r = Some ix -> ok ix) I.
Proof.
  intros s Hs. unfold _adv_ble_retrieve_attribute. run.
  pose proof (keeps_set_error_on_attr (- PE_INVALID_UUID) ADV_ERROR s Hs)
    as Herr.
  destruct (_ || _).
  - run. destruct (_adv_ble_set_error_on_attr _ _ s);
      [split; [exact Herr|discriminate]|exact Herr].
  - destruct (Z.of_nat (ADV_COUNT s) <=? _) eqn:Hix.
    + run. destruct (_adv_ble_set_error_on_attr _ _ s);
        [split; [exact Herr|discriminate]|exact Herr].
    + split; [exact Hs|].
      intros ix [= <-]. eapply I_retrieved; eassumption.
Qed.

Lemma keeps_retrieve_attribute u : keeps I (_adv_ble_retrieve_attribute u).
Proof.
  eapply triple_weaken; [apply triple_retrieve_attribute|auto|].
  intros a s [Hs _]. exact Hs.
Qed.

Lemma keeps_write_attr wr : keeps I (_adv_ble_write_attr wr).
Proof.
  unfold _adv_ble_write_attr. repeat keeps_step;
    auto using keeps_retrieve_attribute.
Qed.

Lemma keeps_write_attribute ix wr :
  ok ix -> keeps I (_adv_ble_write_attribute ix wr).
Proof.
  intros Hok. unfold _adv_ble_write_attribute. repeat keeps_step; auto.
  intros s Hs. eapply I_event_some; eauto.
Qed.

Lemma keeps_complete_write_req rc : keeps I (_adv_ble_complete_write_req rc).
Proof.
  unfold _adv_ble_complete_write_req. repeat keeps_step;
    auto using keeps_set_error_on_attr.
Qed.

Lemma keeps_complete_read_req rc : keeps I (_adv_ble_complete_read_req rc).
Proof.
  unfold _adv_ble_complete_read_req. repeat keeps_step;
    auto using keeps_set_error_on_attr.
Qed.

Lemma keeps_write_req wr : keeps I (_adv_ble_write_req wr).
Proof.
  unfold _adv_ble_write_req.
  destruct (wr_op wr); try (repeat keeps_step; auto; fail);
    (eapply triple_bind; [apply triple_retrieve_attribute|]; intros r;
     apply triple_pure; intros Hok;
     match goal with |- triple ?J ?m _ _ => change (keeps J m) end;
     repeat keeps_step;
     auto using keeps_complete_write_req;
     try (apply keeps_write_attribute, Hok; reflexivity)).
Qed.

Lemma keeps_run_reader ix reader : keeps I (run_reader ix reader).
Proof. unfold run_reader. frame. Qed.

Lemma keeps_read_req rd : keeps I (_adv_ble_read_req rd).
Proof.
  unfold _adv_ble_read_req.
  eapply triple_bind; [apply triple_retrieve_attribute|]. intros r.
  apply triple_pure. intros Hok.
  match goal with |- triple ?J ?m _ _ => change (keeps J m) end.
  repeat keeps_step;
    auto using keeps_run_reader, keeps_complete_read_req;
    intros s Hs; eapply I_event_some; eauto.
Qed.

Lemma keeps_evt_handler ble_evt : keeps I (_adv_ble_evt_handler ble_evt).
Proof.
  unfold _adv_ble_evt_handler. repeat keeps_step;
    auto using keeps_write_req, keeps_read_req, keeps_write_attr.
Qed.

Lemma keeps_deliver i : keeps I (deliver i).
Proof.
  destruct i; cbn [deliver];
    auto using keeps_evt_handler, keeps_complete_write_req,
      keeps_complete_read_req, keeps_modify.
Qed.

Lemma keeps_deliver_all l : keeps I (deliver_all l).
Proof.
  induction l as [|i l IH]; cbn [deliver_all].
  - apply keeps_ret.
  - apply keeps_bind; [apply keeps_deliver|intros _; exact IH].
Qed.

End Frame.

(** ** Invariants of every run *)

Lemma keeps_final {A} (I : machine -> Prop) (m : M A) (s : machine) :
  keeps I m -> I s -> I (final (m s)).
Proof. intros H Hs. specialize (H s Hs). destruct (m s); exact H. Qed.

Ltac frame_case :=
  match goal with
  | |- context [match ?x with _ => _ end] => destruct x
  end.

Lemma keeps_entering_sleep (l : list stimulus) :
  keeps (fun s => bp_entering_sleep s = true) (deliver_all l).
Proof.
  apply (keeps_deliver_all _ (fun _ => True));
    try (intros; assumption); try (intros; exact Logic.I).
  - intros p n s0 H0. destruct p; exact H0.
  - intros s0 H0.
    unfold _adv_ble_worker_timer_cb, _adv_ble_disconnect,
      _adv_ble_worker_run_next. cbn.
    repeat frame_case; exact H0.
  - intros e s0 H0. destruct e; cbn; auto.
Qed.

(** The reboot flag is never raised: the module clears [bp_reboot] when a
    peer connects and reads it after a successful write, and no entry point
    sets it. The disconnection that [_adv_ble_write_req] requests on a
    raised flag is therefore never requested. *)
Lemma keeps_reboot_clear (l : list stimulus) :
  keeps (fun s => bp_reboot s = false) (deliver_all l).
Proof.
  apply (keeps_deliver_all _ (fun _ => True));
    try (intros; assumption); try (intros; exact Logic.I);
    try (intros; reflexivity).
  - intros p n s0 H0. destruct p; exact H0.
  - intros s0 H0.
    unfold _adv_ble_worker_timer_cb, _adv_ble_disconnect,
      _adv_ble_worker_run_next. cbn.
    repeat frame_case; exact H0.
  - intros e s0 H0. destruct e; cbn; auto.
Qed.

Lemma reboot_flag_never_set (l : list stimulus) (s : machine) :
  bp_reboot s = false ->
  bp_reboot (final (deliver_all l s)) = false.
Proof. intros H. exact (keeps_final _ _ s (keeps_reboot_clear l) H). Qed.

Lemma static_part_alter (n : Z) (ix : nat) (l : list adv_ble_attribute) :
  static_part <$> alter (set_pa_length n) ix l = static_part <$> l.
Proof.
  rewrite (list_fmap_alter static_part (set_pa_length n) id)
    by (apply Forall_forall; intros; reflexivity).
  apply list_alter_id. reflexivity.
Qed.

Lemma keeps_static_part (l : list stimulus) (t : list adv_ble_attribute) :
  keeps (fun s => static_part <$> bp_attributes s = t) (deliver_all l).
Proof.
  apply (keeps_deliver_all _ (fun _ => True)); cbn beta;
    try (intros; assumption); try (intros; exact Logic.I).
  - intros p n s0 H0. destruct p; [|exact H0].
    cbn. rewrite static_part_alter. exact H0.
  - intros s0 H0.
    unfold _adv_ble_worker_timer_cb, _adv_ble_disconnect,
      _adv_ble_worker_run_next. cbn.
    repeat frame_case; exact H0.
  - intros e s0 H0. destruct e; exact H0.
Qed.

Lemma deliver_all_count (l : list stimulus) (s : machine) :
  ADV_COUNT (final (deliver_all l s)) = ADV_COUNT s.
Proof.
  pose proof (keeps_final _ _ s
                (keeps_static_part l (static_part <$> bp_attributes s))
                eq_refl) as H.
  cbn beta in H. apply (f_equal length) in H.
  rewrite !length_fmap in H. exact H.
Qed.

(** ** The frame of the module *)

(** X16: the sleep flag is never lowered. Once [bp_entering_sleep] is set,
    it is still set after any sequence of BLE events, advertising events,
    timer expirations and completions: nothing in the module resets it. *)
Theorem sleep_flag_never_lowered (l : list stimulus) (s : machine) :
  bp_entering_sleep s = true ->
  bp_entering_sleep (final (deliver_all l s)) = true.
Proof.
  intros Hs.
  exact (keeps_final (fun s => bp_entering_sleep s = true)
           (deliver_all l) s (keeps_entering_sleep l) Hs).
Qed.

Lemma sleep_flag_never_lowered_witness :
  let s := _adv_ble_adv_event_handler BLE_ADV_EVT_SLOW Scenario.device in
  bp_entering_sleep s = true /\
  bp_entering_sleep (final (deliver_all Scenario.session s)) = true.
Proof.
  split; [reflexivity|].
  apply (sleep_flag_never_lowered Scenario.session
           (_adv_ble_adv_event_handler BLE_ADV_EVT_SLOW Scenario.device)).
  reflexivity.
Defined.

(** X17: the background workers never start. If the worker engine is
    disabled (as [adv_ble_start] leaves it), then after any sequence of
    stimuli it is still disabled, no worker runs and the worker index has
    not moved: [_adv_ble_worker_update_ble_status] is only ever called with
    a connected status, which never enables the engine. *)
Theorem workers_never_enabled (l : list stimulus) (s : machine) :
  we_enable (worker_engine s) = false ->
  let s' := final (deliver_all l s) in
  we_enable (worker_engine s') = false /\
  we_running (worker_engine s') = we_running (worker_engine s) /\
  we_worker_ix (worker_engine s') = we_worker_ix (worker_engine s).
Proof.
  intros Hs s'. subst s'.
  set (I := fun s' : machine =>
              we_enable (worker_engine s') = false /\
              we_running (worker_engine s') = we_running (worker_engine s) /\
              we_worker_ix (worker_engine s')
                = we_worker_ix (worker_engine s)).
  assert (H : keeps I (deliver_all l)).
  { apply (keeps_deliver_all _ (fun _ => True)); subst I; cbn beta;
      try (intros; assumption); try (intros; exact Logic.I).
    - intros p n s0 H0. destruct p; exact H0.
    - intros s0 (H1 & H2 & H3). cbn. auto.
    - intros s0 (H1 & H2 & H3).
      unfold _adv_ble_worker_timer_cb, _adv_ble_disconnect.
      cbn. rewrite H1. cbn. repeat frame_case; cbn; auto.
    - intros e s0 H0. destruct e; exact H0. }
  assert (H0 : I s) by (subst I; cbn; auto).
  specialize (H s H0). destruct (deliver_all l s); exact H.
Qed.

Lemma workers_never_enabled_witness :
  let s := Scenario.device in
  let s' := final (deliver_all Scenario.session s) in
  we_enable (worker_engine s') = false /\
  we_running (worker_engine s') = we_running (worker_engine s) /\
  we_worker_ix (worker_engine s') = we_worker_ix (worker_engine s).
Proof.
  apply (workers_never_enabled Scenario.session Scenario.device).
  reflexivity.
Defined.

(** X18: the attribute table is static. After any sequence of stimuli the
    table has the same entries in the same order, each with the same UUID,
    size, reader, writer and size policy: only meaningful lengths change. *)
Theorem attribute_table_is_static (l : list stimulus) (s : machine) :
  let s' := final (deliver_all l s) in
  static_part <$> bp_attributes s' = static_part <$> bp_attributes s.
Proof.
  exact (keeps_final _ (deliver_all l) s
           (keeps_static_part l (static_part <$> bp_attributes s)) eq_refl).
Qed.

(** X19: the attribute under operation is always an attribute of the table.
    If the pending record names no attribute outside the table, then after
    any sequence of stimuli the table has the same number of entries and the
    record still names no attribute outside it. *)
Theorem pending_attribute_stays_in_table (l : list stimulus) (s : machine) :
  (forall ix, ae_attr (bp_attr_event s) = Some ix -> (ix < ADV_COUNT s)%nat) ->
  let s' := final (deliver_all l s) in
  ADV_COUNT s' = ADV_COUNT s /\
  forall ix, ae_attr (bp_attr_event s') = Some ix -> (ix < ADV_COUNT s')%nat.
Proof.
  intros Hs s'. subst s'.
  set (n := ADV_COUNT s).
  set (I := fun s' : machine =>
              ADV_COUNT s' = n /\
              forall ix, ae_attr (bp_attr_event s') = Some ix -> (ix < n)%nat).
  assert (H : keeps I (deliver_all l)).
  { apply (keeps_deliver_all _ (fun ix => (ix < n)%nat)); subst I; cbn beta;
      try (intros; assumption).
    - intros e s0 He [H1 H2]. split; [exact H1|].
      intros ix. cbn. rewrite He. apply H2.
    - intros e s0 He [H1 H2]. split; [exact H1|].
      intros ix. cbn. rewrite He. discriminate.
    - intros e ix s0 He Hix [H1 H2]. split; [exact H1|].
      intros ix'. cbn. rewrite He. intros [= <-]. exact Hix.
    - intros s0 z [H1 _] Hz. rewrite H1 in Hz.
      apply Z.leb_gt in Hz.
      assert (0 <= uint16 z) by (unfold uint16; apply Z.mod_pos_bound; lia).
      lia.
    - intros p m s0 [H1 H2]. destruct p; [|split; assumption].
      split; [|exact H2]. unfold ADV_COUNT in *. cbn.
      rewrite length_alter. exact H1.
    - intros s0 [H1 H2]. unfold _adv_ble_worker_timer_cb, _adv_ble_disconnect,
        _adv_ble_worker_run_next. cbn.
      repeat frame_case; split; assumption.
    - intros e s0 H0. destruct e; exact H0. }
  assert (H0 : I s) by (subst I; cbn; auto).
  specialize (H s H0).
  destruct (deliver_all l s) as [a s'|err s']; cbn [final];
    destruct H as [H1 H2]; rewrite H1; auto.
Qed.

Lemma pending_attribute_stays_in_table_witness :
  let s := Scenario.device in
  let s' := final (deliver_all Scenario.session s) in
  ADV_COUNT s' = ADV_COUNT s /\
  forall ix, ae_attr (bp_attr_event s') = Some ix -> (ix < ADV_COUNT s')%nat.
Proof.
  apply (pending_attribute_stays_in_table Scenario.session Scenario.device).
  intros ix H. vm_compute in H. discriminate H.
Defined.

(** ** Attribute look-up *)

(** X1: [_adv_ble_retrieve_attribute] returns an attribute exactly for the
    UUIDs of the table. On a table that holds [ADV_ERROR] and for a 16-bit
    UUID value, the routine always returns; when it returns attribute [ix],
    [ix] is in the table, the UUID is the vendor UUID of [ix] and the machine
    is unchanged; when it returns none, the UUID is that of no attribute of
    the table and the only change is the error record, set to
    [PE_INVALID_UUID] on [ADV_ERROR]. *)
Theorem retrieve_attribute_spec (s : machine) (u : ble_uuid_t) :
  (0 < ADV_COUNT s)%nat ->
  0 <= uuid u < 2 ^ 16 ->
  exists r s',
    _adv_ble_retrieve_attribute u s = Ret r s' /\
    match r with
    | Some ix => (ix < ADV_COUNT s)%nat /\ u = attribute_uuid ix /\ s' = s
    | None =>
      (forall ix, (ix < ADV_COUNT s)%nat -> u <> attribute_uuid ix) /\
      s' = set_pv_error (invalid_uuid_desc s) s
    end.
Proof.
  intros Hn Hu. unfold _adv_ble_retrieve_attribute. run.
  assert (Hcl : clamp_char s ADV_ERROR = ADV_ERROR).
  { unfold clamp_char, ADV_LAST, ADV_ERROR.
    destruct (Nat.leb_spec (ADV_COUNT s) 0); [lia|reflexivity]. }
  destruct u as [v t]. cbn [uuid uuid_type] in *.
  destruct (Z.ltb_spec v ADV_CHAR_UUID_BASE) as [Hlt|Hge]; cbn [orb].
  - run. rewrite set_error_on_attr_ok, Hcl by exact Hn.
    eexists _, _. split; [reflexivity|]. split; [|reflexivity].
    intros ix _ [= Hv _]. lia.
  - destruct (Z.eqb_spec t BLE_UUID_TYPE_VENDOR_BEGIN) as [Ht|Ht]; cbn [negb].
    + assert (Hix : uint16 (v - ADV_CHAR_UUID_BASE) = v - ADV_CHAR_UUID_BASE).
      { unfold uint16. apply Z.mod_small. unfold ADV_CHAR_UUID_BASE in *. lia. }
      rewrite Hix.
      destruct (Z.leb_spec (Z.of_nat (ADV_COUNT s)) (v - ADV_CHAR_UUID_BASE))
        as [Hout|Hin].
      * run. rewrite set_error_on_attr_ok, Hcl by exact Hn.
        eexists _, _. split; [reflexivity|]. split; [|reflexivity].
        intros ix Hlt [= Hv _]. lia.
      * eexists _, _. split; [reflexivity|].
        split; [lia|]. split; [|reflexivity].
        unfold attribute_uuid. subst t. f_equal. lia.
    + run. rewrite set_error_on_attr_ok, Hcl by exact Hn.
      eexists _, _. split; [reflexivity|]. split; [|reflexivity].
      intros ix _ [= _ Hv]. contradiction.
Qed.

Lemma retrieve_attribute_spec_witness :
  exists r s',
    _adv_ble_retrieve_attribute (attribute_uuid 2) Scenario.device
      = Ret r s' /\
    match r with
    | Some ix =>
      (ix < ADV_COUNT Scenario.device)%nat /\
      attribute_uuid 2 = attribute_uuid ix /\ s' = Scenario.device
    | None =>
      (forall ix, (ix < ADV_COUNT Scenario.device)%nat ->
                  attribute_uuid 2 <> attribute_uuid ix) /\
      s' = set_pv_error (invalid_uuid_desc Scenario.device) Scenario.device
    end.
Proof.
  apply (retrieve_attribute_spec Scenario.device (attribute_uuid 2)).
  - vm_compute. lia.
  - split; [vm_compute; discriminate|reflexivity].
Defined.

Lemma retrieve_known (s : machine) (ix : nat) :
  (ix < ADV_COUNT s)%nat ->
  ADV_CHAR_UUID_BASE + Z.of_nat ix < 2 ^ 16 ->
  _adv_ble_retrieve_attribute (attribute_uuid ix) s = Ret (Some ix) s.
Proof.
  intros Hix Hu. unfold _adv_ble_retrieve_attribute. run.
  cbn [attribute_uuid uuid uuid_type].
  destruct (Z.ltb_spec (ADV_CHAR_UUID_BASE + Z.of_nat ix) ADV_CHAR_UUID_BASE);
    [lia|].
  rewrite Z.eqb_refl. cbn [orb negb].
  replace (ADV_CHAR_UUID_BASE + Z.of_nat ix - ADV_CHAR_UUID_BASE)
    with (Z.of_nat ix) by lia.
  assert (Hw : uint16 (Z.of_nat ix) = Z.of_nat ix).
  { unfold uint16. apply Z.mod_small. unfold ADV_CHAR_UUID_BASE in Hu. lia. }
  rewrite Hw.
  destruct (Z.leb_spec (Z.of_nat (ADV_COUNT s)) (Z.of_nat ix)); [lia|].
  rewrite Nat2Z.id. reflexivity.
Qed.

(** ** Write requests *)

Lemma write_attribute_runs_writer (s : machine) (ix : nat)
    (wr : ble_gatts_evt_write_t) (writer : list Z -> Z -> Z) :
  wr_op wr = BLE_GATTS_OP_WRITE_REQ ->
  wr_offset wr = 0 ->
  admissible_length (bp_attributes s !!! ix) (wr_len wr) ->
  pa_writer (bp_attributes s !!! ix) = Some writer ->
  event_in_flight (bp_attr_event s) = false ->
  wr_len wr <= SIZEOF_pv_transient ->
  writer (wr_data wr) (wr_len wr) <> PE_DEFERRED ->
  _adv_ble_write_attribute ix wr s =
  Ret (writer (wr_data wr) (wr_len wr)) (writer_called ix wr s).
Proof.
  intros Hop Hoff Hlen Hw Hidle Hfit Hrc.
  unfold _adv_ble_write_attribute. run.
  rewrite Hop, bool_decide_eq_true_2 by reflexivity.
  destruct (Z.eqb_spec (wr_offset wr) 0) as [_|Hne]; [|contradiction].
  rewrite Hw, Hidle. cbn [negb].
  assert (Hv : (pa_varsize (bp_attributes s !!! ix)
                && (pa_size (bp_attributes s !!! ix) <? wr_len wr)) = false
               /\ (negb (pa_varsize (bp_attributes s !!! ix))
                   && negb (wr_len wr =? pa_size (bp_attributes s !!! ix)))
                  = false).
  { unfold admissible_length in Hlen.
    destruct (pa_varsize (bp_attributes s !!! ix)); cbn [negb andb].
    - split; [|reflexivity]. apply Z.ltb_ge. exact Hlen.
    - split; [reflexivity|]. rewrite Hlen, Z.eqb_refl. reflexivity. }
  destruct Hv as [-> ->]. run.
  destruct (Z.ltb_spec SIZEOF_pv_transient (wr_len wr)); [lia|]. run.
  destruct (Z.eqb_spec (writer (wr_data wr) (wr_len wr)) PE_DEFERRED);
    [contradiction|reflexivity].
Qed.

(** X2: an accepted write is committed. For a write request in good
    standing whose writer returns [PE_NO_ERROR], on a device with no reboot
    scheduled, [_adv_ble_write_req] calls the writer once with the payload
    and then sends one reply, the success reply with the request's length
    and payload; it returns exactly when the SoftDevice accepts the reply.
    Afterwards the attribute's meaningful length is the request's length,
    the pending record is empty, the error record is unchanged and the
    activity time is the current time (the stall watchdog was fed). *)
Theorem write_req_commits (s : machine) (ix : nat)
    (wr : ble_gatts_evt_write_t) (writer : list Z -> Z -> Z) :
  write_accepted s ix wr writer ->
  writer (wr_data wr) (wr_len wr) = PE_NO_ERROR ->
  bp_reboot s = false ->
  let o := _adv_ble_write_req wr s in
  let called := pa_writer_call ix (wr_data wr) (wr_len wr) in
  let reply :=
    success_reply (bp_conn_handle s) (wr_len wr) (EVT_DATA (wr_data wr)) in
  calls (final o) = calls s ++ [called; reply] /\
  returned o = (softdevice s (calls s ++ [called]) reply =? NRF_SUCCESS) /\
  pa_length (bp_attributes (final o) !!! ix) = wr_len wr /\
  bp_attr_event (final o) = no_event /\
  pv_error (final o) = pv_error s /\
  we_last_time (worker_engine (final o)) = we_time (worker_engine s).
Proof.
  intros [Hix Hu Hu16 Hop Hoff Hlen Hfit Hw Hawake Hidle] Hrc Hreboot o.
  subst o. cbv zeta.
  assert (Hrun : _adv_ble_write_req wr s =
    (_adv_ble_complete_write_req PE_NO_ERROR;;
     s ← get;
     if ((PE_NO_ERROR : Z) =? 0) && bp_reboot s
     then modify _adv_ble_disconnect else mret tt) (writer_called ix wr s)).
  { unfold _adv_ble_write_req. rewrite Hop, Hu. run.
    rewrite retrieve_known by assumption. rewrite Hawake. run.
    rewrite (write_attribute_runs_writer s ix wr writer)
      by (try assumption; rewrite Hrc; discriminate).
    rewrite Hrc. reflexivity. }
  rewrite Hrun. clear Hrun. run.
  set (s1 := writer_called ix wr s).
  assert (Hn1 : (0 < ADV_COUNT s1)%nat) by (unfold s1, ADV_COUNT in *; cbn; lia).
  rewrite complete_write_req_run by exact Hn1.
  assert (Hreply : write_reply s1 PE_NO_ERROR =
    success_reply (bp_conn_handle s) (wr_len wr) (EVT_DATA (wr_data wr))).
  { unfold write_reply, write_retcode, success_reply. subst s1. cbn.
    rewrite Hoff. reflexivity. }
  assert (Hout : write_outcome s1 PE_NO_ERROR =
                 store_pa_length (Some ix) (wr_len wr + 0) s1).
  { unfold write_outcome, write_retcode. subst s1. cbn.
    rewrite Hoff. reflexivity. }
  rewrite Hreply, Hout. unfold APP_ERROR_CHECK.
  change (calls s1) with
    (calls s ++ [pa_writer_call ix (wr_data wr) (wr_len wr)]).
  change (softdevice s1) with (softdevice s).
  destruct (_ =? NRF_SUCCESS).
  - cbn [final returned]. 
    change ((PE_NO_ERROR : Z) =? 0) with true. cbn [andb].
    replace (bp_reboot _) with false by (symmetry; exact Hreboot).
    cbn [final]. repeat split.
    + cbn. rewrite <- app_assoc. reflexivity.
    + cbn. rewrite list_lookup_total_alter_eq by exact Hix. cbn. lia.
  - cbn [final returned]. repeat split.
    + cbn. rewrite <- app_assoc. reflexivity.
    + cbn. rewrite list_lookup_total_alter_eq by exact Hix. cbn. lia.
Qed.

Lemma write_req_commits_witness :
  let s := Scenario.device in
  let wr := Scenario.write_to 2 [1; 2; 3] in
  let o := _adv_ble_write_req wr s in
  let called := pa_writer_call 2 (wr_data wr) (wr_len wr) in
  let reply :=
    success_reply (bp_conn_handle s) (wr_len wr) (EVT_DATA (wr_data wr)) in
  calls (final o) = calls s ++ [called; reply] /\
  returned o = (softdevice s (calls s ++ [called]) reply =? NRF_SUCCESS) /\
  pa_length (bp_attributes (final o) !!! 2%nat) = wr_len wr /\
  bp_attr_event (final o) = no_event /\
  pv_error (final o) = pv_error s /\
  we_last_time (worker_engine (final o)) = we_time (worker_engine s).
Proof.
  apply (write_req_commits Scenario.device 2 (Scenario.write_to 2 [1; 2; 3])
           Scenario.accepting_writer).
  - constructor; try reflexivity; vm_compute; try lia; discriminate.
  - reflexivity.
  - reflexivity.
Defined.

(** X3: a write the writer refuses is reported to the peer and recorded.
    For a write request in good standing whose writer returns a negative code
    other than the abort code, [_adv_ble_write_req] calls the writer once and
    then replies [BLE_GATT_STATUS_ATTERR_WRITE_NOT_PERMITTED]; the error
    record holds the writer's code and the attribute, the table is unchanged
    (the meaningful length is not updated) and the pending record is
    empty. *)
Theorem write_req_writer_error (s : machine) (ix : nat)
    (wr : ble_gatts_evt_write_t) (writer : list Z -> Z -> Z) :
  write_accepted s ix wr writer ->
  let rc := writer (wr_data wr) (wr_len wr) in
  rc < 0 -> rc <> - PE_ABORT ->
  let o := _adv_ble_write_req wr s in
  let called := pa_writer_call ix (wr_data wr) (wr_len wr) in
  let reply :=
    write_refusal (bp_conn_handle s) (wr_len wr) (EVT_DATA (wr_data wr)) in
  calls (final o) = calls s ++ [called; reply] /\
  returned o = (softdevice s (calls s ++ [called]) reply =? NRF_SUCCESS) /\
  pv_error (final o) = error_desc s rc ix /\
  bp_attributes (final o) = bp_attributes s /\
  bp_attr_event (final o) = no_event.
Proof.
  intros [Hix Hu Hu16 Hop Hoff Hlen Hfit Hw Hawake Hidle] rc Hneg Habort o.
  subst o. cbv zeta.
  assert (Hnz : (rc =? 0) = false) by (apply Z.eqb_neq; lia).
  assert (Hrun : _adv_ble_write_req wr s =
    (_adv_ble_complete_write_req rc;;
     s ← get;
     if (rc =? 0) && bp_reboot s
     then modify _adv_ble_disconnect else mret tt) (writer_called ix wr s)).
  { unfold _adv_ble_write_req. rewrite Hop, Hu. run.
    rewrite retrieve_known by assumption. rewrite Hawake. run.
    rewrite (write_attribute_runs_writer s ix wr writer)
      by (try assumption; fold rc; unfold pa_errno; lia).
    fold rc.
    destruct (Z.eqb_spec rc PE_DEFERRED) as [He|_];
      [unfold pa_errno in He; lia|reflexivity]. }
  rewrite Hrun, Hnz. clear Hrun. run.
  set (s1 := writer_called ix wr s).
  assert (Hn1 : (0 < ADV_COUNT s1)%nat) by (unfold s1, ADV_COUNT in *; cbn; lia).
  assert (Hix1 : (ix < ADV_COUNT s1)%nat) by exact Hix.
  rewrite complete_write_req_run by exact Hn1.
  assert (Hrc : write_retcode s1 rc = rc) by reflexivity.
  assert (Hneg' : (rc <? 0) = true) by (apply Z.ltb_lt; exact Hneg).
  assert (Hab' : negb (rc =? - PE_ABORT) = true)
    by (apply negb_true_iff, Z.eqb_neq; exact Habort).
  assert (Hreply : write_reply s1 rc =
    write_refusal (bp_conn_handle s) (wr_len wr) (EVT_DATA (wr_data wr))).
  { unfold write_reply. rewrite Hrc, Hneg', Hab'. subst s1. cbn.
    rewrite Hoff. change (pa_errno PE_NO_ERROR) with 0. rewrite Hnz.
    reflexivity. }
  assert (Hout : write_outcome s1 rc = set_pv_error (error_desc s rc ix) s1).
  { unfold write_outcome. rewrite Hrc, Hneg', Hab'.
    replace (ae_attr (bp_attr_event s1)) with (Some ix) by reflexivity.
    rewrite attribute_char_in_table by exact Hix1. reflexivity. }
  rewrite Hreply, Hout. unfold APP_ERROR_CHECK.
  change (calls (set_pv_error (error_desc s rc ix) s1)) with
    (calls s ++ [pa_writer_call ix (wr_data wr) (wr_len wr)]).
  change (softdevice (set_pv_error (error_desc s rc ix) s1))
    with (softdevice s).
  destruct (_ =? NRF_SUCCESS); cbn [final returned andb];
    repeat split; cbn; rewrite <- app_assoc; reflexivity.
Qed.

Lemma write_req_writer_error_witness :
  let s := Scenario.device in
  let wr := Scenario.write_to 1 [1; 2; 3; 4] in
  let o := _adv_ble_write_req wr s in
  let called := pa_writer_call 1 (wr_data wr) (wr_len wr) in
  let reply :=
    write_refusal (bp_conn_handle s) (wr_len wr) (EVT_DATA (wr_data wr)) in
  calls (final o) = calls s ++ [called; reply] /\
  returned o = (softdevice s (calls s ++ [called]) reply =? NRF_SUCCESS) /\
  pv_error (final o) = error_desc s (- PE_OUT_OF_RANGE) 1 /\
  bp_attributes (final o) = bp_attributes s /\
  bp_attr_event (final o) = no_event.
Proof.
  apply (write_req_writer_error Scenario.device 1
           (Scenario.write_to 1 [1; 2; 3; 4]) Scenario.refusing_writer).
  - constructor; try reflexivity; vm_compute; try lia; discriminate.
  - reflexivity.
  - vm_compute. discriminate.
Defined.

(** X4: only a callback can abort a request. For a write request in good
    standing whose writer returns [-PE_ABORT], [_adv_ble_write_req] calls
    the writer once and then replies
    [BLE_GATT_STATUS_ATTERR_UNLIKELY_ERROR]; no error is recorded, the table
    is unchanged and the pending record is empty. *)
Theorem write_req_writer_abort (s : machine) (ix : nat)
    (wr : ble_gatts_evt_write_t) (writer : list Z -> Z -> Z) :
  write_accepted s ix wr writer ->
  writer (wr_data wr) (wr_len wr) = - PE_ABORT ->
  let o := _adv_ble_write_req wr s in
  let called := pa_writer_call ix (wr_data wr) (wr_len wr) in
  let reply :=
    write_abort_reply (bp_conn_handle s) (wr_len wr) (EVT_DATA (wr_data wr)) in
  calls (final o) = calls s ++ [called; reply] /\
  returned o = (softdevice s (calls s ++ [called]) reply =? NRF_SUCCESS) /\
  pv_error (final o) = pv_error s /\
  bp_attributes (final o) = bp_attributes s /\
  bp_attr_event (final o) = no_event.
Proof.
  intros [Hix Hu Hu16 Hop Hoff Hlen Hfit Hw Hawake Hidle] Hrc o.
  subst o. cbv zeta.
  assert (Hrun : _adv_ble_write_req wr s =
    (_adv_ble_complete_write_req (- PE_ABORT);;
     s ← get;
     if (- PE_ABORT =? 0) && bp_reboot s
     then modify _adv_ble_disconnect else mret tt) (writer_called ix wr s)).
  { unfold _adv_ble_write_req. rewrite Hop, Hu. run.
    rewrite retrieve_known by assumption. rewrite Hawake. run.
    rewrite (write_attribute_runs_writer s ix wr writer)
      by (try assumption; rewrite Hrc; discriminate).
    rewrite Hrc. reflexivity. }
  rewrite Hrun. clear Hrun. change (- PE_ABORT =? 0) with false. run.
  set (s1 := writer_called ix wr s).
  assert (Hn1 : (0 < ADV_COUNT s1)%nat) by (unfold s1, ADV_COUNT in *; cbn; lia).
  rewrite complete_write_req_run by exact Hn1.
  assert (Hreply : write_reply s1 (- PE_ABORT) =
    write_abort_reply (bp_conn_handle s) (wr_len wr) (EVT_DATA (wr_data wr))).
  { unfold write_reply, write_retcode, write_abort_reply. subst s1. cbn.
    rewrite Hoff. reflexivity. }
  assert (Hout : write_outcome s1 (- PE_ABORT) = s1) by reflexivity.
  rewrite Hreply, Hout. unfold APP_ERROR_CHECK.
  change (calls s1) with
    (calls s ++ [pa_writer_call ix (wr_data wr) (wr_len wr)]).
  change (softdevice s1) with (softdevice s).
  destruct (_ =? NRF_SUCCESS); cbn [final returned andb];
    repeat split; cbn; rewrite <- app_assoc; reflexivity.
Qed.

Lemma write_req_writer_abort_witness :
  let s := Scenario.device in
  let wr := Scenario.write_to 5 [1; 2] in
  let o := _adv_ble_write_req wr s in
  let called := pa_writer_call 5 (wr_data wr) (wr_len wr) in
  let reply :=
    write_abort_reply (bp_conn_handle s) (wr_len wr) (EVT_DATA (wr_data wr)) in
  calls (final o) = calls s ++ [called; reply] /\
  returned o = (softdevice s (calls s ++ [called]) reply =? NRF_SUCCESS) /\
  pv_error (final o) = pv_error s /\
  bp_attributes (final o) = bp_attributes s /\
  bp_attr_event (final o) = no_event.
Proof.
  apply (write_req_writer_abort Scenario.device 5
           (Scenario.write_to 5 [1; 2]) Scenario.aborting_writer).
  - constructor; try reflexivity; vm_compute; try lia; discriminate.
  - reflexivity.
Defined.

(** X5: an attribute without writer is read-only. A plain write at offset
    zero of an admissible length to an attribute that has no writer makes
    [_adv_ble_write_attribute] return [-PE_READ_ONLY] with the machine
    unchanged, whether or not an operation is in flight. *)
Theorem write_without_writer_is_read_only (s : machine) (ix : nat)
    (wr : ble_gatts_evt_write_t) :
  wr_op wr = BLE_GATTS_OP_WRITE_REQ ->
  wr_offset wr = 0 ->
  admissible_length (bp_attributes s !!! ix) (wr_len wr) ->
  pa_writer (bp_attributes s !!! ix) = None ->
  _adv_ble_write_attribute ix wr s = Ret (- PE_READ_ONLY) s.
Proof.
  intros Hop Hoff Hlen Hw. unfold _adv_ble_write_attribute. run.
  rewrite Hop, bool_decide_eq_true_2 by reflexivity.
  rewrite Hoff, Hw. cbn [negb Z.eqb].
  unfold admissible_length in Hlen.
  destruct (pa_varsize (bp_attributes s !!! ix)); cbn [negb andb].
  - destruct (Z.ltb_spec (pa_size (bp_attributes s !!! ix)) (wr_len wr));
      [lia|reflexivity].
  - rewrite Hlen, Z.eqb_refl. reflexivity.
Qed.

Lemma write_without_writer_is_read_only_witness :
  _adv_ble_write_attribute ADV_ERROR
    (Scenario.write_to ADV_ERROR [1; 2; 3; 4; 5; 6; 7; 8]) Fixture.advertiser
  = Ret (- PE_READ_ONLY) Fixture.advertiser.
Proof.
  apply (write_without_writer_is_read_only Fixture.advertiser ADV_ERROR
           (Scenario.write_to ADV_ERROR [1; 2; 3; 4; 5; 6; 7; 8]));
    reflexivity.
Defined.

(** X6: a payload larger than the transient storage never reaches the
    writer. A plain write that passes every check (a variable-size attribute
    of more than 16 bytes admits it) but is longer than [pv_transient] makes
    [_adv_ble_write_attribute] return [-PE_NOT_SUPPORTED]: no call is made,
    the transient storage is untouched; the activity time is updated and the
    pending record already describes the request. *)
Theorem oversized_write_never_stored (s : machine) (ix : nat)
    (wr : ble_gatts_evt_write_t) (writer : list Z -> Z -> Z) :
  wr_op wr = BLE_GATTS_OP_WRITE_REQ ->
  wr_offset wr = 0 ->
  admissible_length (bp_attributes s !!! ix) (wr_len wr) ->
  pa_writer (bp_attributes s !!! ix) = Some writer ->
  event_in_flight (bp_attr_event s) = false ->
  SIZEOF_pv_transient < wr_len wr ->
  _adv_ble_write_attribute ix wr s =
  Ret (- PE_NOT_SUPPORTED)
    (set_attr_event (write_event ix wr) (_adv_ble_worker_feed s)).
Proof.
  intros Hop Hoff Hlen Hw Hidle Hbig.
  unfold _adv_ble_write_attribute. run.
  rewrite Hop, bool_decide_eq_true_2 by reflexivity.
  destruct (Z.eqb_spec (wr_offset wr) 0) as [_|Hne]; [|contradiction].
  rewrite Hw, Hidle. cbn [negb].
  unfold admissible_length in Hlen.
  destruct (pa_varsize (bp_attributes s !!! ix)); cbn [negb andb].
  - destruct (Z.ltb_spec (pa_size (bp_attributes s !!! ix)) (wr_len wr));
      [lia|]. run.
    destruct (Z.ltb_spec SIZEOF_pv_transient (wr_len wr)); [reflexivity|lia].
  - rewrite Hlen, Z.eqb_refl. cbn [negb]. run. rewrite <- Hlen.
    destruct (Z.ltb_spec SIZEOF_pv_transient (wr_len wr)); [reflexivity|lia].
Qed.

Lemma oversized_write_never_stored_witness :
  let wr := Scenario.write_to 2 (repeat 7 20) in
  _adv_ble_write_attribute 2 wr Scenario.device =
  Ret (- PE_NOT_SUPPORTED)
    (set_attr_event (write_event 2 wr)
       (_adv_ble_worker_feed Scenario.device)).
Proof.
  apply (oversized_write_never_stored Scenario.device 2
           (Scenario.write_to 2 (repeat 7 20)) Scenario.accepting_writer);
    try reflexivity.
  vm_compute. discriminate.
Defined.

(** X7: the copy into the transient storage stays within it. Whatever the
    request and the writer's answer, [_adv_ble_write_attribute] leaves
    [pv_transient] with its 16 bytes, provided the request length is the
    number of payload bytes. *)
Theorem transient_storage_keeps_size (s : machine) (ix : nat)
    (wr : ble_gatts_evt_write_t) :
  Z.of_nat (length (pv_transient s)) = SIZEOF_pv_transient ->
  Z.of_nat (length (wr_data wr)) = wr_len wr ->
  let s' := final (_adv_ble_write_attribute ix wr s) in
  Z.of_nat (length (pv_transient s')) = SIZEOF_pv_transient.
Proof.
  intros Htr Hdata. cbv zeta.
  unfold _adv_ble_write_attribute. run.
  destruct (negb (bool_decide _)); [exact Htr|].
  destruct (negb (wr_offset wr =? 0)); [exact Htr|].
  destruct (_ && _); [exact Htr|].
  destruct (_ && _); [exact Htr|].
  destruct (pa_writer (bp_attributes s !!! ix)) as [writer|]; [|exact Htr].
  destruct (event_in_flight _); [exact Htr|].
  run.
  destruct (Z.ltb_spec SIZEOF_pv_transient (wr_len wr)) as [Hbig|Hfit];
    [exact Htr|].
  run.
  destruct (writer (wr_data wr) (wr_len wr) =? PE_DEFERRED);
    run; cbn [bp_attr_event log set_attr_event ae_length]; [|exact Htr].
  destruct (Z.ltb_spec 0 (wr_len wr)) as [Hpos|Hz]; run; [|exact Htr].
  cbn. unfold memcpy. unfold SIZEOF_pv_transient in *.
  rewrite length_app, length_take, length_drop. lia.
Qed.

Lemma transient_storage_keeps_size_witness :
  Z.of_nat (length (pv_transient
                      (final (_adv_ble_write_attribute 2 Fixture.write_5
                                Fixture.device))))
  = SIZEOF_pv_transient.
Proof.
  apply (transient_storage_keeps_size Fixture.device 2 Fixture.write_5);
    reflexivity.
Defined.

(** X8: prepared and execute writes are not supported, in every state. On
    a connected device, an authorize request for a queued write (prepare,
    execute now, execute cancel) on the current connection is answered with
    [APP_FEATURE_NOT_SUPPORTED] and changes nothing else: no look-up, no
    error record, the pending record and the activity time as they were. *)
Theorem prepared_write_not_supported (s : machine) (ble_evt : ble_evt_t)
    (wr : ble_gatts_evt_write_t) :
  bp_conn_handle s <> BLE_CONN_HANDLE_INVALID ->
  conn_handle ble_evt = bp_conn_handle s ->
  evt_id ble_evt = BLE_GATTS_EVT_RW_AUTHORIZE_REQUEST (AUTHORIZE_WRITE wr) ->
  prepared_op (wr_op wr) = true ->
  let reply := not_supported_reply (bp_conn_handle s) in
  let o := _adv_ble_evt_handler ble_evt s in
  final o = log reply s /\
  returned o = (softdevice s (calls s) reply =? NRF_SUCCESS).
Proof.
  intros Hc Hh Hid Hop. cbv zeta.
  unfold _adv_ble_evt_handler. run. rewrite Hid, Hh, Z.eqb_refl.
  destruct (Z.eqb_spec (bp_conn_handle s) BLE_CONN_HANDLE_INVALID);
    [contradiction|].
  cbn [negb]. run. unfold _adv_ble_write_req.
  destruct (wr_op wr); try discriminate Hop; run;
    unfold not_supported_reply; destruct (_ =? NRF_SUCCESS); split; reflexivity.
Qed.

Lemma prepared_write_not_supported_witness :
  let s := Fixture.writing_5 in
  let reply := not_supported_reply (bp_conn_handle s) in
  let o :=
    _adv_ble_evt_handler
      (Scenario.authorize_write (Scenario.prepare_write_to 1 [1; 2; 3; 4]))
      s in
  final o = log reply s /\
  returned o = (softdevice s (calls s) reply =? NRF_SUCCESS).
Proof.
  apply (prepared_write_not_supported Fixture.writing_5
           (Scenario.authorize_write
              (Scenario.prepare_write_to 1 [1; 2; 3; 4]))
           (Scenario.prepare_write_to 1 [1; 2; 3; 4])).
  - vm_compute. discriminate.
  - reflexivity.
  - reflexivity.
  - reflexivity.
Defined.

(** ** Read requests *)

Lemma read_req_runs (s : machine) (ix : nat) (rd : ble_gatts_evt_read_t) :
  read_accepted s ix rd ->
  _adv_ble_read_req rd s =
  match pa_reader (bp_attributes s !!! ix) with
  | Some reader =>
    (modify (on_attr_event (set_ae_data NULL));;
     modify (on_attr_event (set_ae_length 0));;
     modify (on_attr_event (set_ae_offset 0));;
     rc ← run_reader ix reader;
     if rc =? PE_DEFERRED then mret tt else _adv_ble_complete_read_req rc)
      (read_started ix s)
  | None => _adv_ble_complete_read_req PE_NO_ERROR (read_started ix s)
  end.
Proof.
  intros [Hix Hu Hu16 Hoff Hawake Hidle].
  unfold _adv_ble_read_req. rewrite Hu. run.
  rewrite retrieve_known by assumption. cbn beta iota.
  rewrite Hoff. cbn [negb Z.eqb]. cbn beta iota.
  rewrite Hawake, Hidle. run.
  destruct (pa_reader (bp_attributes s !!! ix)) as [reader|]; run.
  - unfold run_reader. run.
    destruct (reader _) as [rc n]. run.
    destruct (rc =? PE_DEFERRED); reflexivity.
  - reflexivity.
Qed.

Lemma read_started_lookup (s : machine) (ix : nat) :
  (ix < ADV_COUNT s)%nat ->
  pa_length (bp_attributes (read_started ix s) !!! ix) =
  (if pa_varsize (bp_attributes s !!! ix) then 0
   else pa_size (bp_attributes s !!! ix)).
Proof.
  intros Hix. unfold read_started. cbn.
  rewrite list_lookup_total_alter_eq by exact Hix. reflexivity.
Qed.

(** X9: a read of an attribute without reader serves the stored value. For
    a read request in good standing to an attribute that has no reader,
    [_adv_ble_read_req] sends one reply and returns exactly when the
    SoftDevice accepts it, with the pending record empty. A fixed-size
    attribute of non-zero size is served in full: success reply of its size
    from its storage, error record unchanged, meaningful length set to the
    size. A variable-size attribute (or one of size zero) is refused with
    [BLE_GATT_STATUS_ATTERR_READ_NOT_PERMITTED] and [PE_INTERNAL] is
    recorded, whatever length had been stored for it: the preset to zero
    discards it. *)
Theorem read_without_reader (s : machine) (ix : nat)
    (rd : ble_gatts_evt_read_t) :
  read_accepted s ix rd ->
  pa_reader (bp_attributes s !!! ix) = None ->
  let attr := bp_attributes s !!! ix in
  let o := _adv_ble_read_req rd s in
  bp_attr_event (final o) = (if returned o then no_event
                             else set_ae_attr (Some ix) (bp_attr_event s)) /\
  if pa_varsize attr || (pa_size attr =? 0) then
    replies s o (read_refusal (bp_conn_handle s)) /\
    pv_error (final o) = error_desc s (- PE_INTERNAL) ix
  else
    replies s o
      (read_success_reply (bp_conn_handle s) (uint16 (pa_size attr)) ix) /\
    pv_error (final o) = pv_error s /\
    pa_length (bp_attributes (final o) !!! ix) = pa_size attr.
Proof.
  intros Hacc Hreader attr o. subst o.
  rewrite (read_req_runs s ix rd Hacc), Hreader.
  destruct Hacc as [Hix Hu Hu16 Hoff Hawake Hidle].
  set (s1 := read_started ix s).
  assert (Hn1 : (0 < ADV_COUNT s1)%nat).
  { subst s1. unfold read_started, ADV_COUNT in *. cbn.
    rewrite length_alter. lia. }
  assert (Hix1 : (ix < ADV_COUNT s1)%nat).
  { subst s1. unfold read_started, ADV_COUNT in *. cbn.
    rewrite length_alter. lia. }
  assert (Hev : ae_attr (bp_attr_event s1) = Some ix) by reflexivity.
  assert (Hlen : pa_length (attribute_at s1 (ae_attr (bp_attr_event s1))) =
                 (if pa_varsize attr then 0 else pa_size attr)).
  { rewrite Hev. cbn [attribute_at]. apply read_started_lookup, Hix. }
  assert (Hcalls : calls s1 = calls s) by reflexivity.
  assert (Hsd : softdevice s1 = softdevice s) by reflexivity.
  assert (Hh : bp_conn_handle s1 = bp_conn_handle s) by reflexivity.
  assert (Herr0 : pv_error s1 = pv_error s) by reflexivity.
  assert (He1 : bp_attr_event s1 = set_ae_attr (Some ix) (bp_attr_event s))
    by reflexivity.
  rewrite complete_read_req_run by exact Hn1.
  destruct (pa_varsize attr || (pa_size attr =? 0)) eqn:Hbad.
  - assert (Hrc : read_retcode s1 PE_NO_ERROR = - PE_INTERNAL).
    { unfold read_retcode. rewrite Hlen, Hev.
      apply orb_true_iff in Hbad. destruct Hbad as [Hv|Hz].
      - rewrite Hv. reflexivity.
      - destruct (pa_varsize attr); [reflexivity|].
        apply Z.eqb_eq in Hz. rewrite Hz. reflexivity. }
    assert (Hreply : read_reply s1 PE_NO_ERROR
                     = read_refusal (bp_conn_handle s)).
    { unfold read_reply. rewrite Hrc, Hh. reflexivity. }
    assert (Hout : read_outcome s1 PE_NO_ERROR =
                   set_pv_error (error_desc s (- PE_INTERNAL) ix) s1).
    { unfold read_outcome. rewrite Hrc, Hev.
      change (- PE_INTERNAL =? 0) with false.
      change (negb (- PE_INTERNAL =? - PE_ABORT)) with true. cbn iota.
      rewrite attribute_char_in_table by exact Hix1. reflexivity. }
    rewrite Hreply, Hout, Hsd, Hcalls. unfold replies. run.
    destruct (_ =? NRF_SUCCESS); cbn; auto.
  - apply orb_false_iff in Hbad. destruct Hbad as [Hv Hz].
    apply Z.eqb_neq in Hz. rewrite Hv in Hlen.
    assert (Hrc : read_retcode s1 PE_NO_ERROR = 0).
    { unfold read_retcode. rewrite Hlen, Hev.
      destruct (Z.eqb_spec (pa_size attr) 0); [contradiction|reflexivity]. }
    assert (Hreply : read_reply s1 PE_NO_ERROR =
      read_success_reply (bp_conn_handle s) (uint16 (pa_size attr)) ix).
    { unfold read_reply. rewrite Hrc, Hlen, Hh, Hev. reflexivity. }
    assert (Hout : read_outcome s1 PE_NO_ERROR = s1).
    { unfold read_outcome. rewrite Hrc. reflexivity. }
    rewrite Hreply, Hout, Hsd, Hcalls. unfold replies. run.
    assert (Hl : pa_length (bp_attributes s1 !!! ix) = pa_size attr).
    { subst s1. rewrite read_started_lookup by exact Hix.
      fold attr. rewrite Hv. reflexivity. }
    destruct (_ =? NRF_SUCCESS); cbn; auto.
Qed.

Lemma read_without_reader_witness :
  let s := Fixture.advertiser in
  let rd := Scenario.read_from ADV_ERROR in
  let attr := bp_attributes s !!! ADV_ERROR in
  let o := _adv_ble_read_req rd s in
  bp_attr_event (final o) =
    (if returned o then no_event
     else set_ae_attr (Some ADV_ERROR) (bp_attr_event s)) /\
  if pa_varsize attr || (pa_size attr =? 0) then
    replies s o (read_refusal (bp_conn_handle s)) /\
    pv_error (final o) = error_desc s (- PE_INTERNAL) ADV_ERROR
  else
    replies s o
      (read_success_reply (bp_conn_handle s) (uint16 (pa_size attr))
         ADV_ERROR) /\
    pv_error (final o) = pv_error s /\
    pa_length (bp_attributes (final o) !!! ADV_ERROR) = pa_size attr.
Proof.
  apply (read_without_reader Fixture.advertiser ADV_ERROR
           (Scenario.read_from ADV_ERROR)).
  - constructor; try reflexivity; vm_compute; lia.
  - reflexivity.
Defined.

Lemma read_req_runs_reader (s : machine) (ix : nat)
    (rd : ble_gatts_evt_read_t) (reader : Z -> Z * Z) (rc n : Z) :
  read_accepted s ix rd ->
  pa_reader (bp_attributes s !!! ix) = Some reader ->
  reader (preset_length (bp_attributes s !!! ix)) = (rc, n) ->
  _adv_ble_read_req rd s =
  (if rc =? PE_DEFERRED then mret tt else _adv_ble_complete_read_req rc)
    (reader_called ix n s).
Proof.
  intros Hacc Hreader Hrun.
  rewrite (read_req_runs s ix rd Hacc), Hreader.
  destruct Hacc as [Hix Hu Hu16 Hoff Hawake Hidle].
  run. unfold run_reader. run.
  cbn [bp_attributes on_attr_event set_attr_event].
  rewrite read_started_lookup by exact Hix.
  fold (preset_length (bp_attributes s !!! ix)). rewrite Hrun. run.
  reflexivity.
Qed.

(** X11: a deferred read is answered by its completion. For a read request
    in good standing whose reader returns [PE_DEFERRED] and leaves a non-zero
    meaningful length, [_adv_ble_read_req] returns without any reply, having
    called the reader once and recorded the attribute as under operation;
    [_adv_ble_complete_read_req] with a success code then sends the success
    reply of that length and empties the pending record. *)
Theorem read_deferred_then_completed (s : machine) (ix : nat)
    (rd : ble_gatts_evt_read_t) (reader : Z -> Z * Z) (n : Z) :
  read_accepted s ix rd ->
  pa_reader (bp_attributes s !!! ix) = Some reader ->
  reader (preset_length (bp_attributes s !!! ix)) = (PE_DEFERRED : Z, n) ->
  n <> 0 ->
  let o1 := _adv_ble_read_req rd s in
  let s1 := final o1 in
  let o2 := _adv_ble_complete_read_req PE_NO_ERROR s1 in
  (returned o1 = true /\
   calls s1 = calls s ++ [pa_reader_call ix] /\
   bp_attr_event s1 =
     {| ae_data := NULL; ae_length := 0; ae_offset := 0;
        ae_attr := Some ix |}) /\
  (replies s1 o2 (read_success_reply (bp_conn_handle s) (uint16 n) ix) /\
   on_return o2 (fun s2 => bp_attr_event s2 = no_event)).
Proof.
  intros Hacc Hreader Hrun Hn o1 s1 o2. subst o2 s1 o1.
  rewrite (read_req_runs_reader s ix rd reader PE_DEFERRED n Hacc Hreader Hrun).
  destruct Hacc as [Hix Hu Hu16 Hoff Hawake Hidle].
  change ((PE_DEFERRED : Z) =? PE_DEFERRED) with true. cbn iota.
  change (final ((mret tt : M unit) (reader_called ix n s)))
    with (reader_called ix n s).
  change (returned ((mret tt : M unit) (reader_called ix n s))) with true.
  set (s1 := reader_called ix n s).
  split; [repeat split|].
  assert (Hc : ADV_COUNT s1 = ADV_COUNT s).
  { subst s1. unfold reader_called, read_started, ADV_COUNT. cbn.
    rewrite !length_alter. reflexivity. }
  assert (Hev : ae_attr (bp_attr_event s1) = Some ix) by reflexivity.
  assert (Hlen : pa_length (attribute_at s1 (ae_attr (bp_attr_event s1))) = n).
  { rewrite Hev. subst s1. unfold reader_called. cbn.
    rewrite list_lookup_total_alter_eq; [reflexivity|].
    rewrite length_alter. exact Hix. }
  assert (Hrc : read_retcode s1 PE_NO_ERROR = 0).
  { unfold read_retcode. rewrite Hlen, Hev.
    destruct (Z.eqb_spec n 0); [contradiction|reflexivity]. }
  assert (Hreply : read_reply s1 PE_NO_ERROR =
    read_success_reply (bp_conn_handle s) (uint16 n) ix).
  { unfold read_reply. rewrite Hrc, Hlen, Hev. reflexivity. }
  assert (Hout : read_outcome s1 PE_NO_ERROR = s1).
  { unfold read_outcome. rewrite Hrc. reflexivity. }
  rewrite complete_read_req_run by lia.
  rewrite Hreply, Hout. unfold replies. run.
  destruct (_ =? NRF_SUCCESS); cbn; auto.
Qed.

Lemma read_deferred_then_completed_witness :
  let s := Scenario.device in
  let o1 := _adv_ble_read_req (Scenario.read_from 4) s in
  let s1 := final o1 in
  let o2 := _adv_ble_complete_read_req PE_NO_ERROR s1 in
  (returned o1 = true /\
   calls s1 = calls s ++ [pa_reader_call 4] /\
   bp_attr_event s1 =
     {| ae_data := NULL; ae_length := 0; ae_offset := 0;
        ae_attr := Some 4%nat |}) /\
  (replies s1 o2 (read_success_reply (bp_conn_handle s) (uint16 3) 4) /\
   on_return o2 (fun s2 => bp_attr_event s2 = no_event)).
Proof.
  apply (read_deferred_then_completed Scenario.device 4
           (Scenario.read_from 4) Scenario.late_reader 3).
  - constructor; try reflexivity; vm_compute; lia.
  - reflexivity.
  - reflexivity.
  - discriminate.
Defined.

(** X10: a read through a reader serves what the reader produced. For a read
    request in good standing whose reader returns [PE_NO_ERROR] and leaves a
    non-zero meaningful length [n], [_adv_ble_read_req] calls the reader
    once and then sends the success reply of [n] bytes from the attribute's
    storage; it returns exactly when the SoftDevice accepts the reply, with
    the pending record empty; the error record is unchanged. *)
Theorem read_with_reader (s : machine) (ix : nat)
    (rd : ble_gatts_evt_read_t) (reader : Z -> Z * Z) (n : Z) :
  read_accepted s ix rd ->
  pa_reader (bp_attributes s !!! ix) = Some reader ->
  reader (preset_length (bp_attributes s !!! ix)) = (PE_NO_ERROR : Z, n) ->
  n <> 0 ->
  let o := _adv_ble_read_req rd s in
  let reply := read_success_reply (bp_conn_handle s) (uint16 n) ix in
  calls (final o) = calls s ++ [pa_reader_call ix; reply] /\
  returned o = (softdevice s (calls s ++ [pa_reader_call ix]) reply
                =? NRF_SUCCESS) /\
  on_return o (fun s' => bp_attr_event s' = no_event) /\
  pa_length (bp_attributes (final o) !!! ix) = n /\
  pv_error (final o) = pv_error s.
Proof.
  intros Hacc Hreader Hrun Hn o. subst o. cbv zeta.
  rewrite (read_req_runs_reader s ix rd reader PE_NO_ERROR n Hacc Hreader Hrun).
  destruct Hacc as [Hix Hu Hu16 Hoff Hawake Hidle].
  change ((PE_NO_ERROR : Z) =? PE_DEFERRED) with false. cbn iota.
  set (s1 := reader_called ix n s).
  assert (Hc : ADV_COUNT s1 = ADV_COUNT s).
  { subst s1. unfold reader_called, read_started, ADV_COUNT. cbn.
    rewrite !length_alter. reflexivity. }
  assert (Hev : ae_attr (bp_attr_event s1) = Some ix) by reflexivity.
  assert (Hl : pa_length (bp_attributes s1 !!! ix) = n).
  { subst s1. unfold reader_called. cbn.
    rewrite list_lookup_total_alter_eq; [reflexivity|].
    rewrite length_alter. exact Hix. }
  assert (Hlen : pa_length (attribute_at s1 (ae_attr (bp_attr_event s1))) = n)
    by (rewrite Hev; exact Hl).
  assert (Hrc : read_retcode s1 PE_NO_ERROR = 0).
  { unfold read_retcode. rewrite Hlen, Hev.
    destruct (Z.eqb_spec n 0); [contradiction|reflexivity]. }
  assert (Hreply : read_reply s1 PE_NO_ERROR =
    read_success_reply (bp_conn_handle s) (uint16 n) ix).
  { unfold read_reply. rewrite Hrc, Hlen, Hev. reflexivity. }
  assert (Hout : read_outcome s1 PE_NO_ERROR = s1).
  { unfold read_outcome. rewrite Hrc. reflexivity. }
  rewrite complete_read_req_run by lia.
  rewrite Hreply, Hout. run.
  change (calls s1) with (calls s ++ [pa_reader_call ix]).
  change (softdevice s1) with (softdevice s).
  destruct (_ =? NRF_SUCCESS); cbn [final returned on_return];
    repeat split; try exact Hl;
    cbn; rewrite <- ?app_assoc; reflexivity.
Qed.

Lemma read_with_reader_witness :
  let s := Scenario.device in
  let o := _adv_ble_read_req (Scenario.read_from 3) s in
  let reply := read_success_reply (bp_conn_handle s) (uint16 3) 3 in
  calls (final o) = calls s ++ [pa_reader_call 3; reply] /\
  returned o = (softdevice s (calls s ++ [pa_reader_call 3]) reply
                =? NRF_SUCCESS) /\
  on_return o (fun s' => bp_attr_event s' = no_event) /\
  pa_length (bp_attributes (final o) !!! 3%nat) = 3 /\
  pv_error (final o) = pv_error s.
Proof.
  apply (read_with_reader Scenario.device 3 (Scenario.read_from 3)
           Scenario.ready_reader 3).
  - constructor; try reflexivity; vm_compute; lia.
  - reflexivity.
  - reflexivity.
  - discriminate.
Defined.

(** X12: a read the reader refuses is reported to the peer and recorded.
    For a read request in good standing whose reader returns a negative code
    other than the abort code, [_adv_ble_read_req] calls the reader once and
    then replies [BLE_GATT_STATUS_ATTERR_READ_NOT_PERMITTED]; the error
    record holds the reader's code and the attribute, and the pending record
    is empty when the routine returns. *)
Theorem read_req_reader_error (s : machine) (ix : nat)
    (rd : ble_gatts_evt_read_t) (reader : Z -> Z * Z) (rc n : Z) :
  read_accepted s ix rd ->
  pa_reader (bp_attributes s !!! ix) = Some reader ->
  reader (preset_length (bp_attributes s !!! ix)) = (rc, n) ->
  rc < 0 -> rc <> - PE_ABORT ->
  let o := _adv_ble_read_req rd s in
  let reply := read_refusal (bp_conn_handle s) in
  calls (final o) = calls s ++ [pa_reader_call ix; reply] /\
  returned o = (softdevice s (calls s ++ [pa_reader_call ix]) reply
                =? NRF_SUCCESS) /\
  on_return o (fun s' => bp_attr_event s' = no_event) /\
  pv_error (final o) = error_desc s rc ix.
Proof.
  intros Hacc Hreader Hrun Hneg Habort o. subst o. cbv zeta.
  rewrite (read_req_runs_reader s ix rd reader rc n Hacc Hreader Hrun).
  destruct Hacc as [Hix Hu Hu16 Hoff Hawake Hidle].
  destruct (Z.eqb_spec rc PE_DEFERRED) as [He|_];
    [unfold pa_errno in He; lia|].
  set (s1 := reader_called ix n s).
  assert (Hc : ADV_COUNT s1 = ADV_COUNT s).
  { subst s1. unfold reader_called, read_started, ADV_COUNT. cbn.
    rewrite !length_alter. reflexivity. }
  assert (Hev : ae_attr (bp_attr_event s1) = Some ix) by reflexivity.
  assert (Hnz : (rc =? 0) = false) by (apply Z.eqb_neq; lia).
  assert (Hab : negb (rc =? - PE_ABORT) = true)
    by (apply negb_true_iff, Z.eqb_neq; exact Habort).
  assert (Hrc : read_retcode s1 rc = rc).
  { unfold read_retcode. rewrite Hev.
    rewrite bool_decide_eq_true_2 by eauto. cbn [negb].
    rewrite Hnz. reflexivity. }
  assert (Hreply : read_reply s1 rc = read_refusal (bp_conn_handle s)).
  { unfold read_reply. rewrite Hrc, Hnz, Hab. reflexivity. }
  assert (Hout : read_outcome s1 rc = set_pv_error (error_desc s rc ix) s1).
  { unfold read_outcome. rewrite Hrc, Hnz, Hab, Hev.
    rewrite attribute_char_in_table by lia. reflexivity. }
  rewrite complete_read_req_run by lia.
  rewrite Hreply, Hout. run.
  change (calls (set_pv_error (error_desc s rc ix) s1))
    with (calls s ++ [pa_reader_call ix]).
  change (softdevice (set_pv_error (error_desc s rc ix) s1))
    with (softdevice s).
  destruct (_ =? NRF_SUCCESS); cbn [final returned on_return];
    repeat split; cbn; rewrite <- ?app_assoc; reflexivity.
Qed.

Lemma read_req_reader_error_witness :
  let s := Scenario.device in
  let o := _adv_ble_read_req (Scenario.read_from 6) s in
  let reply := read_refusal (bp_conn_handle s) in
  calls (final o) = calls s ++ [pa_reader_call 6; reply] /\
  returned o = (softdevice s (calls s ++ [pa_reader_call 6]) reply
                =? NRF_SUCCESS) /\
  on_return o (fun s' => bp_attr_event s' = no_event) /\
  pv_error (final o) = error_desc s (- PE_OUT_OF_RANGE) 6.
Proof.
  apply (read_req_reader_error Scenario.device 6 (Scenario.read_from 6)
           Scenario.failing_reader (- PE_OUT_OF_RANGE) 0).
  - constructor; try reflexivity; vm_compute; lia.
  - reflexivity.
  - reflexivity.
  - vm_compute. reflexivity.
  - vm_compute. discriminate.
Defined.

(** X13: once asleep, no read is served any more. After the advertiser has
    reported slow advertising, and whatever happened since (requests,
    disconnections, new connections, completions, timer expirations), every
    read request is refused with
    [BLE_GATT_STATUS_ATTERR_READ_NOT_PERMITTED] and leaves an error
    record. *)
Theorem reads_refused_once_asleep (l : list stimulus)
    (rd : ble_gatts_evt_read_t) (s : machine) :
  (0 < ADV_COUNT s)%nat ->
  let s1 := final (deliver_all (ADV_EVT BLE_ADV_EVT_SLOW :: l) s) in
  let o := _adv_ble_read_req rd s1 in
  replies s1 o (read_refusal (bp_conn_handle s1)) /\
  (pe_errno (pv_error (final o)) = - PE_INTERNAL \/
   pe_errno (pv_error (final o)) = - PE_BUSY).
Proof.
  intros Hn s1 o. subst o.
  assert (Hs1 : s1 = final (deliver_all l (_adv_ble_enter_sleep s)))
    by reflexivity.
  apply read_req_entering_sleep.
  - rewrite Hs1, deliver_all_count. exact Hn.
  - rewrite Hs1.
    apply (keeps_final (fun s => bp_entering_sleep s = true));
      [apply keeps_entering_sleep|reflexivity].
Qed.

Lemma reads_refused_once_asleep_witness :
  let s1 := final (deliver_all (ADV_EVT BLE_ADV_EVT_SLOW :: Scenario.session)
                     Scenario.device) in
  let o := _adv_ble_read_req (Scenario.read_from 3) s1 in
  replies s1 o (read_refusal (bp_conn_handle s1)) /\
  (pe_errno (pv_error (final o)) = - PE_INTERNAL \/
   pe_errno (pv_error (final o)) = - PE_BUSY).
Proof.
  apply (reads_refused_once_asleep Scenario.session (Scenario.read_from 3)
           Scenario.device).
  vm_compute. lia.
Defined.

(** ** Events *)

(** X14: without a connection, only link events are acted upon. While
    [bp_conn_handle] is invalid, every BLE event other than a connection or
    a disconnection leaves the machine untouched: no request is served, no
    call is made, no error is recorded. *)
Theorem events_without_connection_are_dropped (s : machine)
    (ble_evt : ble_evt_t) :
  bp_conn_handle s = BLE_CONN_HANDLE_INVALID ->
  link_event (evt_id ble_evt) = false ->
  _adv_ble_evt_handler ble_evt s = Ret tt s.
Proof.
  intros Hc Hid. unfold _adv_ble_evt_handler. run. rewrite Hc.
  change (BLE_CONN_HANDLE_INVALID =? BLE_CONN_HANDLE_INVALID) with true.
  cbn iota. destruct (evt_id ble_evt); try discriminate Hid; reflexivity.
Qed.

Lemma events_without_connection_are_dropped_witness :
  let evt := Scenario.authorize_read (Scenario.read_from ADV_ERROR) in
  _adv_ble_evt_handler evt adv_ble_start = Ret tt adv_ble_start.
Proof.
  apply (events_without_connection_are_dropped adv_ble_start
           (Scenario.authorize_read (Scenario.read_from ADV_ERROR)));
    reflexivity.
Defined.

(** X15: a connection event under another handle takes the link over.
    While connected, a [BLE_GAP_EVT_CONNECTED] event for another valid
    handle makes the handler ask the SoftDevice to disconnect that new
    handle and, when the SoftDevice accepts, adopt the very same handle as
    the current connection; an operation in flight stays in flight. *)
Theorem foreign_connection_replaces_current (s : machine) (h : Z) :
  bp_conn_handle s <> BLE_CONN_HANDLE_INVALID ->
  h <> bp_conn_handle s ->
  h <> BLE_CONN_HANDLE_INVALID ->
  let o := _adv_ble_evt_handler (connected_evt h) s in
  replies s o (sd_ble_gap_disconnect h) /\
  on_return o (fun s' => bp_conn_handle s' = h /\
                         bp_attr_event s' = bp_attr_event s).
Proof.
  intros Hc Hh Hv. cbv zeta.
  unfold _adv_ble_evt_handler, replies. run.
  cbn [evt_id conn_handle connected_evt].
  destruct (Z.eqb_spec (bp_conn_handle s) BLE_CONN_HANDLE_INVALID);
    [contradiction|].
  destruct (Z.eqb_spec h (bp_conn_handle s)); [contradiction|].
  destruct (Z.eqb_spec h BLE_CONN_HANDLE_INVALID); [contradiction|].
  cbn [negb]. run.
  destruct (_ =? NRF_SUCCESS); cbn; auto.
Qed.

Lemma foreign_connection_replaces_current_witness :
  let s := Fixture.writing_5 in
  let o := _adv_ble_evt_handler (connected_evt 1) s in
  replies s o (sd_ble_gap_disconnect 1) /\
  on_return o (fun s' => bp_conn_handle s' = 1 /\
                         bp_attr_event s' = bp_attr_event s).
Proof.
  apply (foreign_connection_replaces_current Fixture.writing_5 1);
    vm_compute; discriminate.
Defined.

(** ** The stall watchdog *)

Lemma idle_time_tick (s : machine) :
  we_enable (worker_engine s) = false ->
  idle_time s + ADV_BLE_WORKER_PACE_S <= ADV_BLE_STALL_DELAY_S ->
  let s' := _adv_ble_worker_timer_cb s in
  calls s' = calls s /\
  we_enable (worker_engine s') = false /\
  bp_conn_handle s' = bp_conn_handle s /\
  idle_time s' = idle_time s + ADV_BLE_WORKER_PACE_S.
Proof.
  intros Hen Hquiet. cbv zeta.
  assert (H : uint32 (uint32 (we_time (worker_engine s)
                              + ADV_BLE_WORKER_PACE_S)
                      - we_last_time (worker_engine s))
              = idle_time s + ADV_BLE_WORKER_PACE_S).
  { unfold idle_time, uint32 in *.
    unfold ADV_BLE_WORKER_PACE_S, ADV_BLE_STALL_DELAY_S in *.
    rewrite Zminus_mod_idemp_l.
    replace (we_time (worker_engine s) + 5 - we_last_time (worker_engine s))
      with ((we_time (worker_engine s) - we_last_time (worker_engine s)) + 5)
      by lia.
    rewrite <- Zplus_mod_idemp_l.
    pose proof (Z.mod_pos_bound
                  (we_time (worker_engine s)
                   - we_last_time (worker_engine s)) (2 ^ 32)
                  ltac:(lia)).
    apply Z.mod_small. lia. }
  assert (Hs : _adv_ble_worker_timer_cb s =
               on_worker_engine
                 (set_we_time (uint32 (we_time (worker_engine s)
                                       + ADV_BLE_WORKER_PACE_S))) s).
  { unfold _adv_ble_worker_timer_cb.
    cbn [worker_engine on_worker_engine set_worker_engine set_we_time
         we_enable bp_conn_handle we_time we_last_time].
    rewrite Hen. cbn [negb]. rewrite H.
    destruct (Z.ltb_spec ADV_BLE_STALL_DELAY_S
                (idle_time s + ADV_BLE_WORKER_PACE_S)); [lia|reflexivity]. }
  rewrite Hs. repeat split; [exact Hen|].
  unfold idle_time at 1. cbn. exact H.
Qed.

Lemma timer_ticks_quiet (n : nat) (s : machine) :
  we_enable (worker_engine s) = false ->
  idle_time s + ADV_BLE_WORKER_PACE_S * Z.of_nat n <= ADV_BLE_STALL_DELAY_S ->
  calls (timer_ticks n s) = calls s /\
  idle_time (timer_ticks n s)
    = idle_time s + ADV_BLE_WORKER_PACE_S * Z.of_nat n /\
  we_enable (worker_engine (timer_ticks n s)) = false /\
  bp_conn_handle (timer_ticks n s) = bp_conn_handle s.
Proof.
  revert s. induction n as [|n IH]; intros s Hen Hq; cbn [timer_ticks].
  - repeat split; [lia|exact Hen].
  - assert (H0 : 0 <= idle_time s)
      by (unfold idle_time, uint32; apply Z.mod_pos_bound; lia).
    unfold ADV_BLE_WORKER_PACE_S, ADV_BLE_STALL_DELAY_S in *.
    destruct (idle_time_tick s Hen) as (Hc & Hen' & Hh & Hi).
    { unfold ADV_BLE_WORKER_PACE_S, ADV_BLE_STALL_DELAY_S. lia. }
    unfold ADV_BLE_WORKER_PACE_S in Hi.
    destruct (IH (_adv_ble_worker_timer_cb s) Hen') as (IHc & IHi & IHe & IHh).
    { rewrite Hi. lia. }
    split; [rewrite IHc; exact Hc|].
    split; [rewrite IHi, Hi; lia|].
    split; [exact IHe|]. rewrite IHh. exact Hh.
Qed.

Lemma timer_ticks_succ (n : nat) (s : machine) :
  timer_ticks (S n) s = _adv_ble_worker_timer_cb (timer_ticks n s).
Proof.
  revert s. induction n as [|n IH]; intros s; [reflexivity|].
  cbn [timer_ticks] in *. rewrite <- IH. reflexivity.
Qed.

Lemma timer_cb_stalled (s : machine) :
  we_enable (worker_engine s) = false ->
  bp_conn_handle s <> BLE_CONN_HANDLE_INVALID ->
  ADV_BLE_STALL_DELAY_S <
    uint32 (uint32 (we_time (worker_engine s) + ADV_BLE_WORKER_PACE_S)
            - we_last_time (worker_engine s)) ->
  calls (_adv_ble_worker_timer_cb s) =
  calls s ++ [sd_ble_gap_disconnect (bp_conn_handle s)].
Proof.
  intros Hen Hc Hstall.
  unfold _adv_ble_worker_timer_cb, _adv_ble_disconnect.
  cbn [worker_engine on_worker_engine set_worker_engine set_we_time
       we_enable bp_conn_handle we_time we_last_time].
  rewrite Hen. cbn [negb].
  destruct (Z.ltb_spec ADV_BLE_STALL_DELAY_S
              (uint32 (uint32 (we_time (worker_engine s)
                               + ADV_BLE_WORKER_PACE_S)
                       - we_last_time (worker_engine s)))); [|lia].
  destruct (Z.eqb_spec (bp_conn_handle s) BLE_CONN_HANDLE_INVALID);
    [contradiction|reflexivity].
Qed.

Lemma timer_cb_idle_time (s : machine) :
  uint32 (uint32 (we_time (worker_engine s) + ADV_BLE_WORKER_PACE_S)
          - we_last_time (worker_engine s))
  = uint32 (idle_time s + ADV_BLE_WORKER_PACE_S).
Proof.
  unfold idle_time, uint32.
  rewrite Zminus_mod_idemp_l, Zplus_mod_idemp_l. f_equal. lia.
Qed.

(** X20: the stall deadline. On a connected device with the worker engine
    disabled, once activity has been noted ([_adv_ble_worker_feed]) the
    first 24 timer expirations make no call and the 25th asks the SoftDevice
    to disconnect the peer: a silent peer is dropped after 125 seconds, at
    the first expiration past [ADV_BLE_STALL_DELAY_S]. *)
Theorem watchdog_deadline (s : machine) :
  we_enable (worker_engine s) = false ->
  bp_conn_handle s <> BLE_CONN_HANDLE_INVALID ->
  let fed := _adv_ble_worker_feed s in
  (forall n, (n <= 24)%nat -> calls (timer_ticks n fed) = calls s) /\
  calls (timer_ticks 25 fed) =
    calls s ++ [sd_ble_gap_disconnect (bp_conn_handle s)].
Proof.
  intros Hen Hc fed.
  assert (Hen0 : we_enable (worker_engine fed) = false) by exact Hen.
  assert (Hi0 : idle_time fed = 0).
  { unfold idle_time, fed, _adv_ble_worker_feed, on_worker_engine.
    cbn [worker_engine set_worker_engine set_we_last_time we_time
         we_last_time].
    rewrite Z.sub_diag. reflexivity. }
  assert (Hc0 : calls fed = calls s) by reflexivity.
  assert (Hh0 : bp_conn_handle fed = bp_conn_handle s) by reflexivity.
  clearbody fed.
  split.
  - intros n Hn.
    destruct (timer_ticks_quiet n fed Hen0) as (Hcalls & _).
    { rewrite Hi0. unfold ADV_BLE_WORKER_PACE_S, ADV_BLE_STALL_DELAY_S. lia. }
    rewrite Hcalls. exact Hc0.
  - destruct (timer_ticks_quiet 24 fed Hen0) as (Hcalls & Hi & He & Hh).
    { rewrite Hi0. unfold ADV_BLE_WORKER_PACE_S, ADV_BLE_STALL_DELAY_S. lia. }
    rewrite Hi0 in Hi.
    rewrite (timer_ticks_succ 24 fed).
    remember (timer_ticks 24 fed) as s24 eqn:Hs24. clear Hs24.
    rewrite (timer_cb_stalled s24 He).
    + rewrite Hcalls, Hh, Hc0, Hh0. reflexivity.
    + rewrite Hh, Hh0. exact Hc.
    + rewrite timer_cb_idle_time, Hi. reflexivity.
Qed.

Lemma watchdog_deadline_witness :
  let s := Fixture.stalled in
  let fed := _adv_ble_worker_feed s in
  (forall n, (n <= 24)%nat -> calls (timer_ticks n fed) = calls s) /\
  calls (timer_ticks 25 fed) =
    calls s ++ [sd_ble_gap_disconnect (bp_conn_handle s)].
Proof.
  apply (watchdog_deadline Fixture.stalled).
  - reflexivity.
  - vm_compute. discriminate.
Defined.
Lemma write_attribute_refused_early (s : machine) (ix : nat)
    (wr : ble_gatts_evt_write_t) :
  wr_op wr <> BLE_GATTS_OP_WRITE_REQ \/
  wr_offset wr <> 0 \/
  ~ admissible_length (bp_attributes s !!! ix) (wr_len wr) \/
  pa_writer (bp_attributes s !!! ix) = None ->
  exists rc,
    _adv_ble_write_attribute ix wr s = Ret rc s /\ rc < 0.
Proof.
  intros H. unfold _adv_ble_write_attribute. run.
  destruct (decide (wr_op wr = BLE_GATTS_OP_WRITE_REQ)) as [Hop|Hop].
  2: { rewrite bool_decide_eq_false_2 by exact Hop.
       eexists. split; [reflexivity|]. reflexivity. }
  rewrite bool_decide_eq_true_2 by exact Hop. cbn [negb].
  destruct (Z.eqb_spec (wr_offset wr) 0) as [Hoff|Hoff]; cbn [negb].
  2: { eexists. split; [reflexivity|]. reflexivity. }
  unfold admissible_length in H.
  destruct (pa_varsize (bp_attributes s !!! ix)); cbn [negb andb].
  - destruct (Z.ltb_spec (pa_size (bp_attributes s !!! ix)) (wr_len wr)).
    { eexists. split; [reflexivity|]. reflexivity. }
    destruct (pa_writer (bp_attributes s !!! ix)).
    { destruct H as [H|[H|[H|H]]]; try contradiction; discriminate. }
    eexists. split; [reflexivity|]. reflexivity.
  - destruct (Z.eqb_spec (wr_len wr) (pa_size (bp_attributes s !!! ix)));
      cbn [negb].
    2: { eexists. split; [reflexivity|]. reflexivity. }
    destruct (pa_writer (bp_attributes s !!! ix)).
    { destruct H as [H|[H|[H|H]]]; try contradiction; discriminate. }
    eexists. split; [reflexivity|]. reflexivity.
Qed.

(** X21: the cause of an early refusal is lost. On an idle device, a plain
    write refused before its writer is reached (device entering sleep,
    unknown UUID, wrong operation, non-zero offset, inadmissible length or
    no writer) is answered [WRITE_NOT_PERMITTED] with no data; as the
    pending record names no attribute, [_adv_ble_complete_write_req]
    replaces the return code, and the error record ends with [-PE_INTERNAL]
    whatever the cause was. The attribute table and the idle pending record
    are unchanged. *)
Theorem refused_write_reports_internal (s : machine)
    (wr : ble_gatts_evt_write_t) :
  (0 < ADV_COUNT s)%nat ->
  prepared_op (wr_op wr) = false ->
  bp_attr_event s = no_event ->
  refused_early s wr ->
  let o := _adv_ble_write_req wr s in
  replies s o (write_refusal (bp_conn_handle s) 0 NULL) /\
  pe_errno (pv_error (final o)) = - PE_INTERNAL /\
  bp_attr_event (final o) = no_event /\
  bp_attributes (final o) = bp_attributes s.
Proof.
  intros Hn Hop Hidle Hearly o. subst o.
  destruct (retrieve_attribute_run s (wr_uuid wr) Hn) as (r & s1 & Hr & Hs1).
  assert (Hrun : exists rc, rc < 0 /\ _adv_ble_write_req wr s =
    (_adv_ble_complete_write_req rc;;
     s ← get;
     if (rc =? 0) && bp_reboot s
     then modify _adv_ble_disconnect else mret tt) s1).
  { assert (Hsleep1 : bp_entering_sleep s1 = bp_entering_sleep s)
      by (destruct Hs1 as [->| ->]; reflexivity).
    assert (Hkeep : forall rc, rc < 0 -> (rc =? PE_DEFERRED) = false).
    { intros rc Hrc. apply Z.eqb_neq. unfold pa_errno. lia. }
    unfold refused_early in Hearly.
    destruct (bp_entering_sleep s) eqn:Hsleep.
    - exists (- PE_ABORT). split; [reflexivity|].
      unfold _adv_ble_write_req.
      destruct (wr_op wr); try discriminate Hop;
        run; rewrite Hr, Hsleep1; reflexivity.
    - destruct Hearly as [Hs|Hearly]; [discriminate Hs|].
      destruct r as [ix|].
      + specialize (Hearly ix s1 Hr).
        assert (Hattrs : bp_attributes s1 = bp_attributes s)
          by (destruct Hs1 as [->| ->]; reflexivity).
        rewrite <- Hattrs in Hearly.
        destruct (write_attribute_refused_early s1 ix wr Hearly)
          as (rc & Hwa & Hrc).
        exists rc. split; [exact Hrc|].
        unfold _adv_ble_write_req.
        destruct (wr_op wr); try discriminate Hop;
          run; rewrite Hr, Hsleep1; run; rewrite Hwa, (Hkeep rc Hrc);
          reflexivity.
      + exists (- PE_INVALID_UUID). split; [reflexivity|].
        unfold _adv_ble_write_req.
        destruct (wr_op wr); try discriminate Hop;
          run; rewrite Hr, Hsleep1; reflexivity. }
  destruct Hrun as (rc & Hneg & Hrun). rewrite Hrun. run.
  assert (Hnz : (rc =? 0) = false) by (apply Z.eqb_neq; lia).
  assert (Hn1 : (0 < ADV_COUNT s1)%nat)
    by (destruct Hs1 as [->| ->]; exact Hn).
  assert (He1 : bp_attr_event s1 = no_event)
    by (destruct Hs1 as [->| ->]; exact Hidle).
  rewrite complete_write_req_run by exact Hn1.
  assert (Hrc : write_retcode s1 rc = - PE_INTERNAL)
    by (unfold write_retcode; rewrite He1; reflexivity).
  assert (Hreply : write_reply s1 rc
                   = write_refusal (bp_conn_handle s) 0 NULL).
  { unfold write_reply. rewrite Hrc, He1.
    destruct Hs1 as [->| ->]; reflexivity. }
  assert (Hout : pe_errno (pv_error (write_outcome s1 rc)) = - PE_INTERNAL
                 /\ bp_attributes (write_outcome s1 rc) = bp_attributes s).
  { unfold write_outcome. rewrite Hrc.
    destruct Hs1 as [->| ->]; split; reflexivity. }
  destruct Hout as [Herr Hattrs].
  assert (Hcalls : calls s1 = calls s)
    by (destruct Hs1 as [->| ->]; reflexivity).
  assert (Hsd : softdevice s1 = softdevice s)
    by (destruct Hs1 as [->| ->]; reflexivity).
  rewrite Hreply, Hsd, Hcalls. unfold replies, APP_ERROR_CHECK.
  rewrite Hnz. cbn [andb].
  destruct (_ =? NRF_SUCCESS);
    cbn [final returned log set_attr_event pv_error calls bp_attr_event
         bp_attributes];
    rewrite Herr, Hattrs, calls_write_outcome, Hcalls; auto.
Qed.

Lemma refused_write_reports_internal_witness :
  let s := Scenario.device in
  let wr := Scenario.write_to 1 [1; 2; 3] in
  let o := _adv_ble_write_req wr s in
  replies s o (write_refusal (bp_conn_handle s) 0 NULL) /\
  pe_errno (pv_error (final o)) = - PE_INTERNAL /\
  bp_attr_event (final o) = no_event /\
  bp_attributes (final o) = bp_attributes s.
Proof.
  apply (refused_write_reports_internal Scenario.device
           (Scenario.write_to 1 [1; 2; 3])).
  - vm_compute. lia.
  - reflexivity.
  - reflexivity.
  - right. intros ix s1 Hr. vm_compute in Hr. injection Hr as <- _.
    right. right. left. vm_compute. discriminate.
Defined.
(** * The trace module ([adv_trace.c]) *)

(** ** Trace levels *)

Lemma mask_pos_src (source : Z) :
  0 <= source < PTM_COUNT ->
  mask_pos source = Z.to_nat (source / 8) /\
  mask_src source = 4 * (source mod 8).
Proof.
  unfold PTM_COUNT, mask_pos, mask_src, PTL_BITS, PTS_SHIFT, PTS_MASK,
    PTS_BITS, uint32. intros H.
  rewrite (Z.mod_small source) by lia.
  rewrite (Z.mod_small (4 * source)) by lia.
  rewrite Z.shiftr_div_pow2 by lia.
  change (8 * 4 - 1) with (Z.ones 5). rewrite Z.land_ones by lia.
  change (2 ^ 5) with 32. split.
  - f_equal. rewrite (Z.div_mod source 8) at 1 by lia.
    replace (4 * (8 * (source / 8) + source mod 8))
      with (source mod 8 * 4 + source / 8 * 32) by lia.
    rewrite Z.div_add by lia.
    pose proof (Z.mod_pos_bound source 8 ltac:(lia)).
    rewrite (Z.div_small (source mod 8 * 4)) by lia. lia.
  - rewrite (Z.div_mod source 8) at 1 by lia.
    replace (4 * (8 * (source / 8) + source mod 8))
      with (source mod 8 * 4 + source / 8 * 32) by lia.
    rewrite Z.mod_add by lia.
    pose proof (Z.mod_pos_bound source 8 ltac:(lia)).
    rewrite Z.mod_small by lia. lia.
Qed.

(** The level field of a mask word after the source's field was rewritten. *)
Lemma level_field_same (w level src : Z) :
  0 <= src -> src + 3 <= 32 -> 0 <= level < 8 ->
  Z.land
    (Z.shiftr
       (Z.lor (Z.land w (uint32 (Z.lnot (Z.shiftl PTL_MASK src))))
          (uint32 (Z.shiftl level src))) src) PTL_MASK = level.
Proof.
  intros Hsrc Hfit Hlevel. unfold uint32.
  change PTL_MASK with (Z.ones 3).
  apply Z.bits_inj'. intros i Hi.
  rewrite Z.land_spec, Z.shiftr_spec, Z.lor_spec, Z.land_spec by lia.
  destruct (Z.lt_ge_cases i 3) as [Hlt|Hge].
  - rewrite Z.ones_spec_low by lia.
    rewrite !Z.mod_pow2_bits_low by lia.
    rewrite Z.lnot_spec, !Z.shiftl_spec by lia.
    replace (i + src - src) with i by lia.
    rewrite Z.ones_spec_low by lia.
    cbn [negb]. rewrite andb_false_r, andb_true_r. reflexivity.
  - rewrite Z.ones_spec_high by lia. rewrite andb_false_r.
    symmetry. apply Z.bits_above_log2; [lia|].
    destruct (Z.eq_dec level 0) as [->|]; [cbn; lia|].
    apply Z.log2_lt_pow2; [lia|].
    assert (2 ^ 3 <= 2 ^ i) by (apply Z.pow_le_mono_r; lia). lia.
Qed.

Lemma level_field_other (w level src src' : Z) :
  0 <= src -> 0 <= src' -> src' + 3 <= 32 -> 0 <= level < 8 ->
  src' + 3 <= src \/ src + 3 <= src' ->
  Z.land
    (Z.shiftr
       (Z.lor (Z.land w (uint32 (Z.lnot (Z.shiftl PTL_MASK src))))
          (uint32 (Z.shiftl level src))) src') PTL_MASK
  = Z.land (Z.shiftr w src') PTL_MASK.
Proof.
  intros Hsrc Hsrc' Hfit Hlevel Hapart. unfold uint32.
  change PTL_MASK with (Z.ones 3).
  apply Z.bits_inj'. intros i Hi.
  rewrite !Z.land_spec, !Z.shiftr_spec, Z.lor_spec, Z.land_spec by lia.
  destruct (Z.lt_ge_cases i 3) as [Hlt|Hge].
  - rewrite Z.ones_spec_low by lia.
    rewrite !Z.mod_pow2_bits_low by lia.
    rewrite Z.lnot_spec by lia.
    assert (Hm : Z.testbit (Z.shiftl (Z.ones 3) src) (i + src') = false).
    { destruct (Z.lt_ge_cases (i + src') src).
      - apply Z.shiftl_spec_low. lia.
      - rewrite Z.shiftl_spec by lia. apply Z.ones_spec_high. lia. }
    assert (Hl : Z.testbit (Z.shiftl level src) (i + src') = false).
    { destruct (Z.lt_ge_cases (i + src') src).
      - apply Z.shiftl_spec_low. lia.
      - rewrite Z.shiftl_spec by lia.
        destruct (Z.eq_dec level 0) as [->|]; [apply Z.bits_0|].
        apply Z.bits_above_log2; [lia|].
        apply Z.log2_lt_pow2; [lia|].
        assert (2 ^ 3 <= 2 ^ (i + src' - src))
          by (apply Z.pow_le_mono_r; lia). lia. }
    rewrite Hm, Hl. cbn [negb]. rewrite andb_true_r, orb_false_r. reflexivity.
  - rewrite Z.ones_spec_high by lia. rewrite !andb_false_r. reflexivity.
Qed.

Lemma get_source_alter (source : Z) (t : pa_trace) (f : Z -> Z) (pos : nat) :
  pos <> mask_pos source ->
  pt_masks (set_pt_masks (alter f pos (pt_masks t)) t) !!! mask_pos source
  = pt_masks t !!! mask_pos source.
Proof.
  intros Hne. cbn. apply list_lookup_total_alter_ne. exact Hne.
Qed.

Lemma get_set_source (t : pa_trace) (source source' level : Z) :
  Z.of_nat (length (pt_masks t)) = PTN_WORDS ->
  0 <= source < PTM_COUNT ->
  0 <= source' < PTM_COUNT ->
  0 <= level < PTL_COUNT ->
  pa_trace_get_source source' (pa_trace_set_source source level t) =
  if source' =? source then level else pa_trace_get_source source' t.
Proof.
  intros Hwords Hs Hs' Hl.
  destruct (mask_pos_src source Hs) as [Hpos Hsrc].
  destruct (mask_pos_src source' Hs') as [Hpos' Hsrc'].
  unfold PTM_COUNT, PTL_COUNT in *.
  assert (Hu : uint32 level = level)
    by (unfold uint32; apply Z.mod_small; lia).
  change PTN_WORDS with 4 in Hwords.
  pose proof (Z.mod_pos_bound source 8 ltac:(lia)) as Hm.
  pose proof (Z.mod_pos_bound source' 8 ltac:(lia)) as Hm'.
  assert (Hin : (mask_pos source < length (pt_masks t))%nat).
  { rewrite Hpos. apply Nat2Z.inj_lt. rewrite Z2Nat.id by (apply Z.div_pos; lia).
    rewrite Hwords. apply Z.div_lt_upper_bound; lia. }
  unfold pa_trace_get_source, pa_trace_set_source. cbv zeta.
  rewrite Hu. unfold PTM_COUNT, PTL_COUNT.
  destruct (Z.leb_spec 32 source); [lia|].
  destruct (Z.leb_spec 6 level); [lia|].
  cbn [pt_masks set_pt_masks].
  destruct (Z.eqb_spec source' source) as [->|Hne].
  - rewrite !list_lookup_total_alter_eq
      by (rewrite ?length_alter; exact Hin).
    apply level_field_same; lia.
  - destruct (decide (mask_pos source' = mask_pos source)) as [Heq|Hpne].
    + rewrite Heq.
      rewrite !list_lookup_total_alter_eq
        by (rewrite ?length_alter; exact Hin).
      apply level_field_other; try lia.
      rewrite Hpos, Hpos' in Heq.
      apply Z2Nat.inj in Heq; try (apply Z.div_pos; lia).
      rewrite Hsrc, Hsrc'.
      assert (source mod 8 <> source' mod 8).
      { intros Hmod. apply Hne.
        rewrite (Z.div_mod source' 8), (Z.div_mod source 8) by lia. lia. }
      lia.
    + rewrite !list_lookup_total_alter_ne by (intros Heq; apply Hpne; symmetry; exact Heq).
      reflexivity.
Qed.

Lemma set_source_frame (source level : Z) (t : pa_trace) :
  pt_initialized (pa_trace_set_source source level t) = pt_initialized t /\
  length (pt_masks (pa_trace_set_source source level t))
    = length (pt_masks t) /\
  pt_que (pa_trace_set_source source level t) = pt_que t /\
  uarte_tx (pa_trace_set_source source level t) = uarte_tx t.
Proof.
  unfold pa_trace_set_source. cbv zeta.
  destruct (PTM_COUNT <=? source); [auto|].
  destruct (PTL_COUNT <=? uint32 level); [auto|].
  cbn. rewrite !length_alter. auto.
Qed.

Lemma is_traceable_get_source (source level : Z) (t : pa_trace) :
  source < PTM_COUNT -> pt_initialized t = true ->
  pa_trace_is_traceable source level t
  = (pa_trace_get_source source t <=? uint32 level).
Proof.
  intros Hs Hi. unfold pa_trace_is_traceable, pa_trace_get_source.
  cbv zeta. rewrite Hi. destruct (Z.leb_spec PTM_COUNT source); [lia|reflexivity].
Qed.

(** X22: a level that was set is the level read back and the threshold
    applied. For sources and a level of the interface's ranges, after
    [pa_trace_set_source source level] the level of [source] is [level] and
    that of every other source is unchanged: the 4-bit fields of the mask
    words do not overlap. Once the module is initialised, a message of
    [source] at level [l] is traceable exactly when [level] is at most [l]
    taken as the unsigned value the function receives, so that a negative
    [l] is always traceable. *)
Theorem trace_level_round_trip (t : pa_trace) (source source' level : Z) :
  Z.of_nat (length (pt_masks t)) = PTN_WORDS ->
  0 <= source < PTM_COUNT ->
  0 <= source' < PTM_COUNT ->
  0 <= level < PTL_COUNT ->
  let t' := pa_trace_set_source source level t in
  pa_trace_get_source source' t' =
    (if source' =? source then level else pa_trace_get_source source' t) /\
  (pt_initialized t = true ->
   forall l,
     pa_trace_is_traceable source' l t' =
     if source' =? source then level <=? uint32 l
     else pa_trace_is_traceable source' l t).
Proof.
  intros Hwords Hs Hs' Hl t'. subst t'.
  pose proof (get_set_source t source source' level Hwords Hs Hs' Hl) as Hget.
  split; [exact Hget|]. intros Hi l.
  destruct (set_source_frame source level t) as (Hi' & _).
  rewrite !is_traceable_get_source by (rewrite ?Hi'; auto; lia).
  rewrite Hget. destruct (source' =? source); reflexivity.
Qed.

Lemma trace_level_round_trip_witness :
  let t' := pa_trace_set_source 9 PTL_WARN trace_start in
  pa_trace_get_source 9 t' =
    (if 9 =? 9 then PTL_WARN else pa_trace_get_source 9 trace_start) /\
  (pt_initialized trace_start = true ->
   forall l,
     pa_trace_is_traceable 9 l t' =
     if 9 =? 9 then PTL_WARN <=? uint32 l
     else pa_trace_is_traceable 9 l trace_start).
Proof.
  apply (trace_level_round_trip trace_start 9 9 PTL_WARN).
  - reflexivity.
  - vm_compute. split; [discriminate|reflexivity].
  - vm_compute. split; [discriminate|reflexivity].
  - vm_compute. split; [discriminate|reflexivity].
Defined.

(** ** The message queue *)

Lemma queue_mask (z : Z) : Z.land z MSG_QUEUE_MASK = z mod MSG_QUEUE_SIZE.
Proof. change MSG_QUEUE_MASK with (Z.ones 7). apply Z.land_ones. lia. Qed.

Lemma queue_next (p : Z) :
  0 <= p < MSG_QUEUE_SIZE ->
  Z.land (p + 1) MSG_QUEUE_MASK =
  if p + 1 =? MSG_QUEUE_SIZE then 0 else p + 1.
Proof.
  intros Hp. rewrite queue_mask. change MSG_QUEUE_SIZE with 128 in *.
  destruct (Z.eqb_spec (p + 1) 128) as [->|Hne]; [reflexivity|].
  apply Z.mod_small. lia.
Qed.

Ltac queue_arith :=
  unfold _pa_trace_queue_is_full, _pa_trace_queue_is_empty,
    _pa_trace_queue_count_free, _pa_trace_queue_count_avail, queue_ok,
    _pa_trace_queue_w_next, _pa_trace_queue_r_next in *;
  cbn [tq_read_p tq_write_p set_tq_read_p set_tq_write_p] in *;
  change MSG_QUEUE_SIZE with 128 in *;
  repeat match goal with
         | H : context [?a <=? ?b] |- _ => destruct (Z.leb_spec a b)
         | H : context [?a <? ?b] |- _ => destruct (Z.ltb_spec a b)
         | H : context [?a =? ?b] |- _ => destruct (Z.eqb_spec a b)
         | |- context [?a <=? ?b] => destruct (Z.leb_spec a b)
         | |- context [?a <? ?b] => destruct (Z.ltb_spec a b)
         | |- context [?a =? ?b] => destruct (Z.eqb_spec a b)
         end; try discriminate; try lia.

Lemma count_avail_range (que : pa_trace_queue) :
  queue_ok que -> 0 <= _pa_trace_queue_count_avail que <= MSG_QUEUE_SIZE - 1.
Proof. intros [Hr Hw]. queue_arith. Qed.

Lemma count_free_avail (que : pa_trace_queue) :
  queue_ok que ->
  _pa_trace_queue_count_free que + _pa_trace_queue_count_avail que
  = MSG_QUEUE_SIZE - 1.
Proof. intros [Hr Hw]. queue_arith. Qed.

Lemma is_empty_avail (que : pa_trace_queue) :
  queue_ok que ->
  _pa_trace_queue_is_empty que = (_pa_trace_queue_count_avail que =? 0).
Proof. intros [Hr Hw]. queue_arith. Qed.

Lemma is_full_avail (que : pa_trace_queue) :
  queue_ok que ->
  _pa_trace_queue_is_full que
  = (_pa_trace_queue_count_avail que =? MSG_QUEUE_SIZE - 1).
Proof. intros [Hr Hw]. queue_arith. Qed.

Lemma w_next_ok (que : pa_trace_queue) :
  queue_ok que -> queue_ok (_pa_trace_queue_w_next que).
Proof.
  intros [Hr Hw]. unfold queue_ok, _pa_trace_queue_w_next.
  cbn [tq_read_p tq_write_p set_tq_write_p]. rewrite (queue_next _ Hw).
  queue_arith.
Qed.

Lemma r_next_ok (que : pa_trace_queue) :
  queue_ok que -> queue_ok (_pa_trace_queue_r_next que).
Proof.
  intros [Hr Hw]. unfold queue_ok, _pa_trace_queue_r_next.
  cbn [tq_read_p tq_write_p set_tq_read_p]. rewrite (queue_next _ Hr).
  queue_arith.
Qed.

Lemma w_next_avail (que : pa_trace_queue) :
  queue_ok que -> _pa_trace_queue_is_full que = false ->
  _pa_trace_queue_count_avail (_pa_trace_queue_w_next que)
  = _pa_trace_queue_count_avail que + 1.
Proof.
  intros [Hr Hw] Hfull.
  unfold _pa_trace_queue_w_next, _pa_trace_queue_count_avail at 1.
  cbn [tq_read_p tq_write_p set_tq_write_p]. rewrite (queue_next _ Hw).
  queue_arith.
Qed.

Lemma r_next_avail (que : pa_trace_queue) :
  queue_ok que -> _pa_trace_queue_is_empty que = false ->
  _pa_trace_queue_count_avail (_pa_trace_queue_r_next que)
  = _pa_trace_queue_count_avail que - 1.
Proof.
  intros [Hr Hw] Hempty.
  unfold _pa_trace_queue_r_next, _pa_trace_queue_count_avail at 1.
  cbn [tq_read_p tq_write_p set_tq_read_p]. rewrite (queue_next _ Hr).
  queue_arith.
Qed.

(** X23: the arithmetic of the message queue. With both indices in the
    array, free and available slots add up to [MSG_QUEUE_SIZE - 1]: the
    queue holds at most 127 messages, one slot always stays unused. The
    queue is empty exactly when no message is available and full exactly
    when 127 are; committing a slot of a queue that is not full, and
    releasing one of a queue that is not empty, keep the indices in the
    array and move the count by one, wrap-around of the indices
    included. *)
Theorem queue_counts (que : pa_trace_queue) :
  queue_ok que ->
  let avail := _pa_trace_queue_count_avail que in
  _pa_trace_queue_count_free que + avail = MSG_QUEUE_SIZE - 1 /\
  0 <= avail <= MSG_QUEUE_SIZE - 1 /\
  _pa_trace_queue_is_empty que = (avail =? 0) /\
  _pa_trace_queue_is_full que = (avail =? MSG_QUEUE_SIZE - 1) /\
  (_pa_trace_queue_is_full que = false ->
   queue_ok (_pa_trace_queue_w_next que) /\
   _pa_trace_queue_count_avail (_pa_trace_queue_w_next que) = avail + 1) /\
  (_pa_trace_queue_is_empty que = false ->
   queue_ok (_pa_trace_queue_r_next que) /\
   _pa_trace_queue_count_avail (_pa_trace_queue_r_next que) = avail - 1).
Proof.
  intros Hok. cbv zeta.
  split; [apply count_free_avail, Hok|].
  split; [apply count_avail_range, Hok|].
  split; [apply is_empty_avail, Hok|].
  split; [apply is_full_avail, Hok|].
  split; intros H.
  - split; [apply w_next_ok, Hok|apply w_next_avail; assumption].
  - split; [apply r_next_ok, Hok|apply r_next_avail; assumption].
Qed.

Lemma queue_counts_witness :
  let que := {| tq_read_p := 120; tq_write_p := 5; tq_msgs := [] |} in
  let avail := _pa_trace_queue_count_avail que in
  _pa_trace_queue_count_free que + avail = MSG_QUEUE_SIZE - 1 /\
  0 <= avail <= MSG_QUEUE_SIZE - 1 /\
  _pa_trace_queue_is_empty que = (avail =? 0) /\
  _pa_trace_queue_is_full que = (avail =? MSG_QUEUE_SIZE - 1) /\
  (_pa_trace_queue_is_full que = false ->
   queue_ok (_pa_trace_queue_w_next que) /\
   _pa_trace_queue_count_avail (_pa_trace_queue_w_next que) = avail + 1) /\
  (_pa_trace_queue_is_empty que = false ->
   queue_ok (_pa_trace_queue_r_next que) /\
   _pa_trace_queue_count_avail (_pa_trace_queue_r_next que) = avail - 1).
Proof.
  apply (queue_counts {| tq_read_p := 120; tq_write_p := 5; tq_msgs := [] |}).
  split; vm_compute; (split; [discriminate|reflexivity]).
Defined.

(** ** Transmission *)

Lemma pop_queue_loop (fuel : nat) (t : pa_trace) :
  queue_ok (pt_que t) ->
  _pa_trace_queue_count_avail (pt_que t) < Z.of_nat fuel ->
  exists t',
    _pa_trace_pop_queue fuel t = Some t' /\
    queue_ok (pt_que t') /\
    tq_write_p (pt_que t') = tq_write_p (pt_que t) /\
    tq_msgs (pt_que t') = tq_msgs (pt_que t) /\
    _pa_trace_queue_count_avail (pt_que t')
      <= _pa_trace_queue_count_avail (pt_que t) /\
    pt_masks t' = pt_masks t /\
    pt_initialized t' = pt_initialized t /\
    pt_count t' = pt_count t /\
    nrfx_uarte_tx t' = nrfx_uarte_tx t /\
    pt_que_active t' = negb (_pa_trace_queue_is_empty (pt_que t')) /\
    uarte_tx t' =
      uarte_tx t ++
      (if pt_que_active t'
       then [msg_bytes (tq_msgs (pt_que t')
                          !!! Z.to_nat (tq_read_p (pt_que t')))]
       else []).
Proof.
  revert t. induction fuel as [|fuel IH]; intros t Hok Hfuel.
  - pose proof (count_avail_range _ Hok). lia.
  - cbn [_pa_trace_pop_queue].
    destruct (_pa_trace_queue_is_empty (pt_que t)) eqn:Hempty.
    + eexists. split; [reflexivity|].
      cbn [pt_que set_pt_que_active pt_que_active pt_masks pt_initialized
           pt_count nrfx_uarte_tx uarte_tx].
      rewrite Hempty, app_nil_r. repeat split; try apply Hok; lia.
    + cbn [nrfx_uarte_tx uarte_tx set_pt_que_active].
      destruct (_ =? NRF_SUCCESS).
      * eexists. split; [reflexivity|].
        cbn [pt_que set_pt_que_active pt_que_active pt_masks pt_initialized
             pt_count nrfx_uarte_tx uarte_tx log_tx].
        rewrite Hempty. repeat split; try apply Hok; lia.
      * destruct (IH (on_pt_que _pa_trace_queue_r_next
                        (set_pt_que_active true t)))
          as (t' & Hrun & Hok' & Hw & Hmsgs & Hle & Hm & Hi & Hc & Hu & Ha & Htx).
        { apply r_next_ok, Hok. }
        { cbn [pt_que on_pt_que set_pt_que_active].
          rewrite r_next_avail by assumption. lia. }
        exists t'. split; [exact Hrun|].
        cbn [pt_que on_pt_que set_pt_que_active pt_masks pt_initialized
             pt_count nrfx_uarte_tx uarte_tx] in *.
        rewrite r_next_avail in Hle by assumption.
        repeat split; try apply Hok'; try assumption; lia.
Qed.

(** X24: [_pa_trace_pop_queue] returns. Whatever the driver answers, the
    loop ends within [MSG_QUEUE_SIZE] iterations: every refused message is
    dropped, and the queue holds fewer than that. On return the write index
    is unchanged, the queue is marked active exactly when it is not empty,
    and in that case one transfer has been started, that of the message at
    the read index. *)
Theorem pop_queue_returns (t : pa_trace) :
  queue_ok (pt_que t) ->
  exists t',
    pop_queue t = Some t' /\
    queue_ok (pt_que t') /\
    tq_write_p (pt_que t') = tq_write_p (pt_que t) /\
    pt_que_active t' = negb (_pa_trace_queue_is_empty (pt_que t')) /\
    uarte_tx t' =
      uarte_tx t ++
      (if pt_que_active t'
       then [msg_bytes (tq_msgs (pt_que t')
                          !!! Z.to_nat (tq_read_p (pt_que t')))]
       else []).
Proof.
  intros Hok.
  destruct (pop_queue_loop (Z.to_nat MSG_QUEUE_SIZE) t Hok)
    as (t' & Hrun & Hok' & Hw & _ & _ & _ & _ & _ & _ & Ha & Htx).
  { pose proof (count_avail_range _ Hok).
    change MSG_QUEUE_SIZE with 128 in *. lia. }
  exists t'. auto.
Qed.

Lemma pop_queue_returns_witness :
  let t := on_pt_que (set_tq_write_p 3) trace_start in
  exists t',
    pop_queue t = Some t' /\
    queue_ok (pt_que t') /\
    tq_write_p (pt_que t') = tq_write_p (pt_que t) /\
    pt_que_active t' = negb (_pa_trace_queue_is_empty (pt_que t')) /\
    uarte_tx t' =
      uarte_tx t ++
      (if pt_que_active t'
       then [msg_bytes (tq_msgs (pt_que t')
                          !!! Z.to_nat (tq_read_p (pt_que t')))]
       else []).
Proof.
  apply (pop_queue_returns (on_pt_que (set_tq_write_p 3) trace_start)).
  split; vm_compute; (split; [discriminate|reflexivity]).
Defined.

Lemma pa_print_returns (ipsr : Z) (message : list Z) (len : Z)
    (t : pa_trace) :
  queue_ok (pt_que t) ->
  exists ret t',
    pa_print ipsr message len t = Some (ret, t') /\
    queue_ok (pt_que t') /\
    pt_masks t' = pt_masks t /\
    pt_initialized t' = pt_initialized t.
Proof.
  intros Hok. unfold pa_print.
  destruct (negb (pt_initialized t)); [eauto 10|].
  destruct (negb (_pa_trace_context ipsr =? 0)); [eauto 10|].
  destruct (_pa_trace_queue_is_full (pt_que t)) eqn:Hfull; [eauto 10|].
  cbv zeta. unfold _pa_trace_start_queue.
  match goal with
  | |- context [pop_queue ?s] => set (t1 := s)
  end.
  assert (Hok1 : queue_ok (pt_que t1)).
  { subst t1. cbn [pt_que on_pt_que set_pt_count].
    apply w_next_ok. exact Hok. }
  destruct (negb (pt_que_active t1)).
  - destruct (pop_queue_loop (Z.to_nat MSG_QUEUE_SIZE) t1 Hok1)
      as (t' & Hrun & Hok' & _ & _ & _ & Hm & Hi & _).
    { pose proof (count_avail_range _ Hok1).
      change MSG_QUEUE_SIZE with 128 in *. lia. }
    unfold pop_queue. rewrite Hrun. cbn. eauto 10.
  - cbn. eauto 10.
Qed.

Lemma get_source_disabled (source : Z) (t : pa_trace) :
  0 <= source < PTM_COUNT ->
  Z.of_nat (length (pt_masks t)) = PTN_WORDS ->
  pa_trace_get_source source
    (set_pt_masks ((fun _ => DISABLE_ALL_TRACES_MASK) <$> pt_masks t) t)
  = PTL_MASK.
Proof.
  intros Hs Hwords. destruct (mask_pos_src source Hs) as [Hpos Hsrc].
  unfold pa_trace_get_source. cbn [pt_masks set_pt_masks].
  unfold PTM_COUNT in *. change PTN_WORDS with 4 in Hwords.
  pose proof (Z.mod_pos_bound source 8 ltac:(lia)) as Hm.
  assert (Hin : (mask_pos source < length (pt_masks t))%nat).
  { rewrite Hpos. apply Nat2Z.inj_lt.
    rewrite Z2Nat.id by (apply Z.div_pos; lia).
    rewrite Hwords. apply Z.div_lt_upper_bound; lia. }
  rewrite (list_lookup_total_fmap _ _ _ Hin).
  rewrite Hsrc. change DISABLE_ALL_TRACES_MASK with (Z.ones 32).
  change PTL_MASK with (Z.ones 3).
  rewrite Z.shiftr_div_pow2, Z.ones_div_pow2 by lia.
  rewrite Z.land_ones by lia. apply Z.ones_mod_pow2. lia.
Qed.

(** X25: the levels after start-up. [pa_trace_init] returns, and afterwards
    the sources [PTM_MAIN] and [PTM_SYS] trace from [PTL_DEBUG] on,
    [PTM_BLE] traces every level, and no other source traces anything, a
    fatal message included: the sources without default keep the all-ones
    field of [DISABLE_ALL_TRACES_MASK], above every level, and a source
    past [PTM_COUNT] is never traceable. *)
Theorem init_levels (ipsr : Z) (banner : list Z) (t : pa_trace) :
  Z.of_nat (length (pt_masks t)) = PTN_WORDS ->
  queue_ok (pt_que t) ->
  exists t',
    pa_trace_init ipsr banner t = Some t' /\
    forall source level,
      0 <= source -> 0 <= level <= PTL_FUNC ->
      pa_trace_is_traceable source level t' =
      if source <? PTM_BLE then PTL_DEBUG <=? level else source =? PTM_BLE.
Proof.
  intros Hwords Hok. unfold pa_trace_init.
  set (t0 := set_pt_initialized true _).
  assert (Hok0 : queue_ok (pt_que t0)) by exact Hok.
  destruct (pa_print_returns ipsr banner (Z.of_nat (length banner)) t0 Hok0)
    as (ret & t1 & Hrun & _ & Hm1 & Hi1).
  rewrite Hrun. cbn [mbind option_bind].
  eexists. split; [reflexivity|].
  intros source level Hs Hl.
  cbn [ADV_TRACE_DEFAULT_LEVELS length seq foldl].
  change (ADV_TRACE_DEFAULT_LEVELS !!! 0%nat) with PTL_DEBUG.
  change (ADV_TRACE_DEFAULT_LEVELS !!! 1%nat) with PTL_DEBUG.
  change (ADV_TRACE_DEFAULT_LEVELS !!! 2%nat) with PTL_CHATTY.
  change (Z.of_nat 0) with 0. change (Z.of_nat 1) with 1.
  change (Z.of_nat 2) with 2.
  set (ta := pa_trace_set_source 0 PTL_DEBUG t1).
  set (tb := pa_trace_set_source 1 PTL_DEBUG ta).
  set (tc := pa_trace_set_source 2 PTL_CHATTY tb).
  assert (Hw1 : Z.of_nat (length (pt_masks t1)) = PTN_WORDS).
  { rewrite Hm1. subst t0. cbn. rewrite length_fmap. exact Hwords. }
  destruct (set_source_frame 0 PTL_DEBUG t1) as (Hia & Hla & _).
  destruct (set_source_frame 1 PTL_DEBUG ta) as (Hib & Hlb & _).
  destruct (set_source_frame 2 PTL_CHATTY tb) as (Hic & Hlc & _).
  fold ta in Hia, Hla. fold tb in Hib, Hlb. fold tc in Hic, Hlc.
  assert (Hinit : pt_initialized tc = true)
    by (rewrite Hic, Hib, Hia, Hi1; reflexivity).
  unfold PTM_BLE, PTL_FUNC, PTL_COUNT, PTL_DEBUG in *.
  assert (Hu : uint32 level = level)
    by (unfold uint32; apply Z.mod_small; lia).
  destruct (Z.lt_ge_cases source 32) as [Hlt|Hge].
  - rewrite is_traceable_get_source by (unfold PTM_COUNT; auto; lia).
    rewrite Hu.
    unfold tc. rewrite get_set_source;
      [|rewrite Hlb, Hla; exact Hw1
       |cbv [PTM_COUNT PTL_COUNT PTL_CHATTY PTL_DEBUG]; lia..].
    unfold tb. rewrite get_set_source;
      [|rewrite Hla; exact Hw1
       |cbv [PTM_COUNT PTL_COUNT PTL_CHATTY PTL_DEBUG]; lia..].
    unfold ta. rewrite get_set_source;
      [|exact Hw1
       |cbv [PTM_COUNT PTL_COUNT PTL_CHATTY PTL_DEBUG]; lia..].
    assert (Hdis : pa_trace_get_source source t1 = PTL_MASK).
    { unfold pa_trace_get_source. rewrite Hm1.
      apply (get_source_disabled source t); [unfold PTM_COUNT; lia|].
      exact Hwords. }
    rewrite Hdis. unfold PTL_CHATTY, PTL_DEBUG. change PTL_MASK with 7.
    destruct (Z.eqb_spec source 2) as [->|]; [cbn; destruct (Z.leb_spec 0 level); [reflexivity|lia]|].
    destruct (Z.eqb_spec source 1) as [->|]; [reflexivity|].
    destruct (Z.eqb_spec source 0) as [->|]; [reflexivity|].
    destruct (Z.ltb_spec source 2); [lia|].
    destruct (Z.leb_spec 7 level); [lia|reflexivity].
  - unfold pa_trace_is_traceable. cbv zeta.
    destruct (Z.leb_spec PTM_COUNT source); [|unfold PTM_COUNT in *; lia].
    cbn [orb].
    destruct (Z.ltb_spec source 2); [lia|].
    destruct (Z.eqb_spec source 2); [lia|reflexivity].
Qed.

Lemma init_levels_witness :
  exists t',
    pa_trace_init 0 tick_text trace_start = Some t' /\
    forall source level,
      0 <= source -> 0 <= level <= PTL_FUNC ->
      pa_trace_is_traceable source level t' =
      if source <? PTM_BLE then PTL_DEBUG <=? level else source =? PTM_BLE.
Proof.
  apply (init_levels 0 tick_text trace_start).
  - reflexivity.
  - split; vm_compute; (split; [discriminate|reflexivity]).
Defined.

(** ** The queue is a first-in first-out buffer *)

Lemma write_index (que : pa_trace_queue) :
  queue_ok que ->
  tq_write_p que
  = (tq_read_p que + _pa_trace_queue_count_avail que) mod MSG_QUEUE_SIZE.
Proof.
  intros [Hr Hw]. unfold _pa_trace_queue_count_avail.
  change MSG_QUEUE_SIZE with 128 in *.
  destruct (Z.ltb_spec (tq_write_p que - tq_read_p que) 0).
  - replace (tq_read_p que + (tq_write_p que - tq_read_p que + 128))
      with (tq_write_p que + 1 * 128) by lia.
    rewrite Z.mod_add by lia. symmetry. apply Z.mod_small. lia.
  - replace (tq_read_p que + (tq_write_p que - tq_read_p que))
      with (tq_write_p que) by lia.
    symmetry. apply Z.mod_small. lia.
Qed.

Lemma slot_index_range (r i : Z) :
  0 <= (r + i) mod MSG_QUEUE_SIZE < MSG_QUEUE_SIZE.
Proof. apply Z.mod_pos_bound. reflexivity. Qed.

Lemma slot_index_ne (r i n : Z) :
  0 <= i < MSG_QUEUE_SIZE -> 0 <= n < MSG_QUEUE_SIZE -> i <> n ->
  (r + i) mod MSG_QUEUE_SIZE <> (r + n) mod MSG_QUEUE_SIZE.
Proof.
  change MSG_QUEUE_SIZE with 128. intros Hi Hn Hne Heq.
  apply Hne.
  assert (H : (i - n) mod 128 = 0).
  { replace (i - n) with ((r + i) - (r + n)) by lia.
    rewrite Zminus_mod, Heq, Z.sub_diag. reflexivity. }
  apply Z.mod_divide in H; [|lia]. destruct H as [k Hk]. lia.
Qed.

Lemma slot_index_succ (r i : Z) :
  0 <= r < MSG_QUEUE_SIZE ->
  (Z.land (r + 1) MSG_QUEUE_MASK + i) mod MSG_QUEUE_SIZE
  = (r + (i + 1)) mod MSG_QUEUE_SIZE.
Proof.
  intros Hr. rewrite queue_mask. rewrite Zplus_mod_idemp_l.
  f_equal. lia.
Qed.

Lemma holds_not_full (t : pa_trace) (f : fifo) :
  holds t f ->
  _pa_trace_queue_is_full (pt_que t)
  = (MSG_QUEUE_SIZE - 1 <=? Z.of_nat (length (fifo_pending f))).
Proof.
  intros H. rewrite is_full_avail by apply H. rewrite (h_avail _ _ H).
  pose proof (count_avail_range _ (h_queue _ _ H)) as Hr.
  rewrite (h_avail _ _ H) in Hr.
  destruct (Z.eqb_spec (Z.of_nat (length (fifo_pending f)))
              (MSG_QUEUE_SIZE - 1));
    destruct (Z.leb_spec (MSG_QUEUE_SIZE - 1)
                (Z.of_nat (length (fifo_pending f)))); lia.
Qed.

Lemma holds_empty (t : pa_trace) (f : fifo) :
  holds t f ->
  _pa_trace_queue_is_empty (pt_que t) = bool_decide (fifo_pending f = []).
Proof.
  intros H. rewrite is_empty_avail by apply H. rewrite (h_avail _ _ H).
  destruct (fifo_pending f); [reflexivity|].
  rewrite bool_decide_eq_false_2 by discriminate. cbn [length].
  apply Z.eqb_neq. lia.
Qed.

(** A submission that is dropped. *)
Lemma drop_holds (t : pa_trace) (f : fifo) :
  holds t f ->
  holds (set_pt_count (uint8 (pt_count t + 1)) t)
    {| fifo_count := uint8 (fifo_count f + 1); fifo_sent := fifo_sent f;
       fifo_pending := fifo_pending f |}.
Proof.
  intros [Hi Hu Hq Hs Hb Hc Ha Hp Hact Htx].
  constructor; cbn; try assumption. rewrite Hc. reflexivity.
Qed.

(** A submission that is accepted: the message is stored, committed, and
    its transfer started when none is under way. *)
Lemma enqueue_holds (t : pa_trace) (f : fifo) (msg : pa_trace_msg)
    (text : list Z) :
  holds t f ->
  _pa_trace_queue_is_full (pt_que t) = false ->
  msg_bytes msg = text ->
  Z.of_nat (length (tm_msg msg)) = ADV_TRACE_MSG_LENGTH ->
  exists t',
    _pa_trace_start_queue
      (on_pt_que _pa_trace_queue_w_next
         (on_pt_que (store_msg msg)
            (set_pt_count (uint8 (pt_count t + 1)) t))) = Some t' /\
    holds t'
      {| fifo_count := uint8 (fifo_count f + 1); fifo_sent := fifo_sent f;
         fifo_pending := fifo_pending f ++ [text] |}.
Proof.
  intros H Hfull Hmsg Hlen.
  pose proof H as [Hi Hu Hq Hs Hb Hc Ha Hp Hact Htx].
  pose proof (write_index _ Hq) as Hw.
  pose proof (count_avail_range _ Hq) as Hrange.
  pose proof (holds_not_full _ _ H) as Hnf. rewrite Hfull in Hnf.
  symmetry in Hnf. apply Z.leb_gt in Hnf.
  rewrite Ha in Hw, Hrange.
  set (n := length (fifo_pending f)) in *.
  set (r := tq_read_p (pt_que t)) in *.
  set (w := tq_write_p (pt_que t)) in *.
  assert (Hwr : 0 <= w < MSG_QUEUE_SIZE) by apply Hq.
  assert (Hwin : (Z.to_nat w < length (tq_msgs (pt_que t)))%nat) by lia.
  set (t1 := on_pt_que _ _).
  set (f1 := Build_fifo _ _ _).
  assert (H1 : forall a : bool,
             a = negb (bool_decide (fifo_pending f ++ [text] = [])) ->
             forall tx,
             tx = fifo_sent f ++ take 1 (fifo_pending f ++ [text]) ->
             holds {| pt_masks := pt_masks t1;
                      pt_initialized := pt_initialized t1;
                      pt_count := pt_count t1; pt_que_active := a;
                      pt_que := pt_que t1; uarte_tx := tx;
                      nrfx_uarte_tx := nrfx_uarte_tx t1 |} f1).
  { intros a Hactive tx Htx'. constructor; cbn -[Z.of_nat]; fold r w.
    - exact Hi.
    - exact Hu.
    - apply (w_next_ok (store_msg msg (pt_que t))). exact Hq.
    - rewrite length_insert. exact Hs.
    - apply Forall_insert; assumption.
    - rewrite Hc. reflexivity.
    - change (_pa_trace_queue_count_avail
                (_pa_trace_queue_w_next (store_msg msg (pt_que t)))
              = Z.of_nat (length (fifo_pending f ++ [text]))).
      rewrite w_next_avail by (try exact Hq; exact Hfull).
      change (_pa_trace_queue_count_avail (store_msg msg (pt_que t)))
        with (_pa_trace_queue_count_avail (pt_que t)).
      rewrite Ha, length_app. cbn [length]. lia.
    - intros i text' Hlook.
      destruct (decide (i < n)%nat) as [Hlt|Hge].
      + rewrite lookup_app_l in Hlook by exact Hlt.
        rewrite list_lookup_total_insert_ne.
        * apply Hp. exact Hlook.
        * rewrite Hw. intros Heq. apply Z2Nat.inj in Heq;
            try apply slot_index_range.
          symmetry in Heq. revert Heq. apply slot_index_ne; lia.
      + apply lookup_lt_Some in Hlook as Hlt.
        rewrite length_app in Hlt. cbn [length] in Hlt.
        assert (i = n) by (fold n in Hlt; lia). subst i.
        rewrite lookup_app_r, Nat.sub_diag in Hlook by (fold n; lia).
        injection Hlook as <-.
        rewrite <- Hw, list_lookup_total_insert_eq by exact Hwin.
        exact Hmsg.
    - exact Hactive.
    - exact Htx'. }
  unfold _pa_trace_start_queue.
  assert (Hact1 : pt_que_active t1 = pt_que_active t) by reflexivity.
  rewrite Hact1, Hact.
  destruct (fifo_pending f) as [|m p] eqn:Hpend.
  - (* nothing under way: the transfer of the message starts *)
    cbn [bool_decide negb]. rewrite bool_decide_eq_true_2 by reflexivity.
    cbn [negb]. unfold pop_queue.
    change (Z.to_nat MSG_QUEUE_SIZE) with (S 127).
    cbn [_pa_trace_pop_queue].
    assert (Hrw : r = w).
    { subst n. cbn [length] in Hw. rewrite Z.add_0_r in Hw.
      rewrite Hw. symmetry. apply Z.mod_small. apply Hq. }
    assert (Hne : _pa_trace_queue_is_empty (pt_que t1) = false).
    { unfold _pa_trace_queue_is_empty. subst t1.
      cbn [pt_que on_pt_que set_pt_count _pa_trace_queue_w_next store_msg
           tq_read_p tq_write_p set_tq_write_p set_tq_msgs].
      fold r w. rewrite (queue_next _ Hwr).
      change MSG_QUEUE_SIZE with 128 in *.
      destruct (Z.eqb_spec (w + 1) 128); apply Z.eqb_neq; lia. }
    rewrite Hne.
    assert (Hhead : tq_msgs (pt_que t1) !!! Z.to_nat (tq_read_p (pt_que t1))
                    = msg).
    { subst t1.
      cbn [pt_que on_pt_que set_pt_count _pa_trace_queue_w_next store_msg
           tq_read_p tq_write_p tq_msgs set_tq_write_p set_tq_msgs].
      fold r w. rewrite Hrw. apply list_lookup_total_insert_eq. exact Hwin. }
    rewrite Hhead. cbn [nrfx_uarte_tx set_pt_que_active].
    change (nrfx_uarte_tx t1) with (nrfx_uarte_tx t). rewrite Hu.
    change (NRF_SUCCESS =? NRF_SUCCESS) with true. cbn iota.
    eexists. split; [reflexivity|].
    apply (H1 true).
    + cbn [app]. rewrite bool_decide_eq_false_2 by discriminate. reflexivity.
    + cbn [log_tx uarte_tx set_pt_que_active].
      change (uarte_tx t1) with (uarte_tx t). rewrite Htx, Hmsg.
      cbn [take app]. rewrite app_nil_r. reflexivity.
  - rewrite bool_decide_eq_false_2 by discriminate. cbn [negb].
    eexists. split; [reflexivity|].
    assert (Ht1 : t1 = {| pt_masks := pt_masks t1;
                          pt_initialized := pt_initialized t1;
                          pt_count := pt_count t1;
                          pt_que_active := pt_que_active t1;
                          pt_que := pt_que t1; uarte_tx := uarte_tx t1;
                          nrfx_uarte_tx := nrfx_uarte_tx t1 |})
      by reflexivity.
    rewrite Ht1. apply H1.
    + rewrite Hact1, Hact.
      rewrite !bool_decide_eq_false_2 by discriminate. reflexivity.
    + change (uarte_tx t1) with (uarte_tx t). rewrite Htx. reflexivity.
Qed.

(** The end of a transfer: the message leaves the queue and the transfer of
    the next one starts. *)
Lemma transfer_done_holds (t : pa_trace) (f : fifo) (m : list Z)
    (p : list (list Z)) :
  holds t f ->
  fifo_pending f = m :: p ->
  exists t',
    pop_queue (on_pt_que _pa_trace_queue_r_next t) = Some t' /\
    holds t'
      {| fifo_count := fifo_count f; fifo_sent := fifo_sent f ++ [m];
         fifo_pending := p |}.
Proof.
  intros H Hpend.
  pose proof H as [Hi Hu Hq Hs Hb Hc Ha Hp Hact Htx].
  pose proof (holds_empty _ _ H) as Hempty.
  rewrite Hpend in Ha, Hp, Hact, Htx, Hempty.
  rewrite bool_decide_eq_false_2 in Hempty by discriminate.
  cbn [length] in Ha.
  pose proof (count_avail_range _ Hq) as Hrange. rewrite Ha in Hrange.
  assert (Hr : 0 <= tq_read_p (pt_que t) < MSG_QUEUE_SIZE) by apply Hq.
  set (t1 := on_pt_que _pa_trace_queue_r_next t).
  assert (Hq1 : queue_ok (pt_que t1)) by (apply r_next_ok; exact Hq).
  assert (Ha1 : _pa_trace_queue_count_avail (pt_que t1)
                = Z.of_nat (length p)).
  { subst t1. cbn [pt_que on_pt_que].
    rewrite r_next_avail by assumption. lia. }
  assert (Hp1 : forall (i : nat) text,
             p !! i = Some text ->
             msg_bytes (tq_msgs (pt_que t1)
                          !!! Z.to_nat ((tq_read_p (pt_que t1) + Z.of_nat i)
                                        mod MSG_QUEUE_SIZE)) = text).
  { intros i text Hlook. subst t1.
    cbn [pt_que on_pt_que _pa_trace_queue_r_next tq_read_p tq_msgs
         set_tq_read_p].
    rewrite slot_index_succ by exact Hr.
    replace (Z.of_nat i + 1) with (Z.of_nat (S i)) by lia.
    apply Hp. exact Hlook. }
  assert (H1 : forall (a : bool), a = negb (bool_decide (p = [])) ->
             forall tx, tx = (fifo_sent f ++ [m]) ++ take 1 p ->
             holds {| pt_masks := pt_masks t1;
                      pt_initialized := pt_initialized t1;
                      pt_count := pt_count t1; pt_que_active := a;
                      pt_que := pt_que t1; uarte_tx := tx;
                      nrfx_uarte_tx := nrfx_uarte_tx t1 |}
               {| fifo_count := fifo_count f;
                  fifo_sent := fifo_sent f ++ [m]; fifo_pending := p |}).
  { intros a Hactive tx Htx'. constructor; cbn -[Z.of_nat]; assumption. }
  unfold pop_queue. change (Z.to_nat MSG_QUEUE_SIZE) with (S 127).
  cbn [_pa_trace_pop_queue].
  rewrite (is_empty_avail _ Hq1), Ha1.
  destruct p as [|m' p].
  - cbn [length]. change (Z.of_nat 0 =? 0) with true. cbn iota.
    eexists. split; [reflexivity|].
    apply H1; [reflexivity|].
    cbn [uarte_tx set_pt_que_active take]. rewrite app_nil_r.
    change (uarte_tx t1) with (uarte_tx t). rewrite Htx. reflexivity.
  - destruct (Z.eqb_spec (Z.of_nat (length (m' :: p))) 0) as [He|_];
      [cbn [length] in He; lia|].
    cbn [nrfx_uarte_tx set_pt_que_active].
    change (nrfx_uarte_tx t1) with (nrfx_uarte_tx t). rewrite Hu.
    change (NRF_SUCCESS =? NRF_SUCCESS) with true. cbn iota.
    eexists. split; [reflexivity|].
    apply H1; [rewrite bool_decide_eq_false_2 by discriminate; reflexivity|].
    cbn [log_tx uarte_tx set_pt_que_active].
    change (uarte_tx t1) with (uarte_tx t). rewrite Htx.
    specialize (Hp1 0%nat m' eq_refl).
    rewrite Z.add_0_r, Z.mod_small in Hp1 by apply Hq1.
    rewrite Hp1. reflexivity.
Qed.

Lemma msg_bytes_memcpy (dst message : list Z) (len : Z) :
  0 <= len <= Z.of_nat (length message) ->
  Z.of_nat (length dst) = ADV_TRACE_MSG_LENGTH ->
  let n := uint8 (if len <? ADV_TRACE_MSG_LENGTH
                  then len else ADV_TRACE_MSG_LENGTH) in
  msg_bytes {| tm_msg := memcpy dst message n; tm_length := n |}
    = take (Z.to_nat (Z.min len ADV_TRACE_MSG_LENGTH)) message /\
  Z.of_nat (length (memcpy dst message n)) = ADV_TRACE_MSG_LENGTH.
Proof.
  intros Hlen Hdst n.
  assert (Hn : n = Z.min len ADV_TRACE_MSG_LENGTH).
  { subst n. unfold uint8, ADV_TRACE_MSG_LENGTH in *.
    destruct (Z.ltb_spec len 127); rewrite Z.mod_small; lia. }
  rewrite Hn. unfold msg_bytes, memcpy. cbn [tm_msg tm_length].
  unfold ADV_TRACE_MSG_LENGTH in *. split.
  - rewrite take_app_le by (rewrite length_take; lia).
    apply take_idemp.
  - rewrite length_app, length_take, length_drop. lia.
Qed.

(** [pa_print] against the buffer. *)
Lemma pa_print_holds (t : pa_trace) (f : fifo) (ipsr : Z)
    (message : list Z) (len : Z) :
  holds t f ->
  0 <= len <= Z.of_nat (length message) ->
  exists ret t',
    pa_print ipsr message len t = Some (ret, t') /\
    holds t' (fifo_step (PRINT ipsr message len) f).
Proof.
  intros H Hlen. unfold pa_print, fifo_step, fifo_submit, pa_trace_is_irq.
  rewrite (h_initialized _ _ H). cbn [negb].
  destruct (negb (_pa_trace_context ipsr =? 0)); cbn [orb].
  { eexists _, _. split; [reflexivity|]. apply drop_holds, H. }
  rewrite <- (holds_not_full _ _ H).
  destruct (_pa_trace_queue_is_full (pt_que t)) eqn:Hfull.
  { eexists _, _. split; [reflexivity|]. apply drop_holds, H. }
  cbv zeta.
  set (slot := tq_msgs (pt_que t) !!! Z.to_nat (tq_write_p (pt_que t))).
  assert (Hslot : Z.of_nat (length (tm_msg slot)) = ADV_TRACE_MSG_LENGTH).
  { pose proof (h_buffers _ _ H) as Hb.
    rewrite Forall_forall in Hb. apply Hb.
    apply list_elem_of_lookup_total_2.
    pose proof (h_slots _ _ H). pose proof (h_queue _ _ H) as [_ Hw]. lia. }
  destruct (msg_bytes_memcpy (tm_msg slot) message len Hlen Hslot)
    as [Hbytes Hsize].
  match goal with
  | |- context [_pa_trace_start_queue ?s] =>
    destruct (enqueue_holds t f _ _ H Hfull Hbytes Hsize) as (t' & Hrun & H')
  end.
  match goal with
  | |- context [_pa_trace_start_queue ?s] =>
    match type of Hrun with
    | _pa_trace_start_queue ?s' = _ => change s with s'
    end
  end.
  rewrite Hrun. cbn. eauto.
Qed.

(** *** The line of a trace *)

Lemma length_fmt_0x (n : nat) (v : Z) : length (fmt_0x n v) = n.
Proof.
  revert v. induction n as [|n IH]; intros v; cbn [fmt_0x]; [reflexivity|].
  rewrite length_app, IH. cbn. lia.
Qed.

Lemma length_trace_header (rt count : Z) :
  length (trace_header rt count) = 14%nat.
Proof.
  unfold trace_header. rewrite !length_app, !length_fmt_0x. reflexivity.
Qed.

Lemma ellipsis_insert (l : list Z) (a b c d e : Z) :
  length l = 127%nat ->
  <[126%nat:=e]> (<[125%nat:=d]> (<[124%nat:=c]> (<[123%nat:=b]>
    (<[122%nat:=a]> l)))) = take 122 l ++ [a; b; c; d; e].
Proof.
  intros Hl. rewrite <- (take_drop 122 l) at 1.
  assert (Hd : length (drop 122 l) = 5%nat) by (rewrite length_drop; lia).
  assert (Ht : length (take 122 l) = 122%nat) by (rewrite length_take; lia).
  destruct (drop 122 l) as [|x1 [|x2 [|x3 [|x4 [|x5 [|]]]]]];
    try discriminate Hd.
  rewrite !insert_app_r_alt by (rewrite ?length_app, ?length_insert; lia).
  rewrite Ht. reflexivity.
Qed.

(** The buffer of a message once the text has been formatted into it, from
    a buffer that starts with [head]: what [vsnprintf] and the ellipsis of
    [pa_trace_printf] leave. *)
Lemma body_formatted (head rest body : list Z) :
  let h := length head in
  (h <= 16)%nat -> length rest = (127 - h)%nat ->
  let buf := fst (snprintf (head ++ rest) (Z.of_nat h)
                    (uint32 (ADV_TRACE_MSG_LENGTH - Z.of_nat h - 1)) body) in
  let ret := Z.of_nat h + Z.of_nat (length body) in
  let out :=
    if ADV_TRACE_MSG_LENGTH <=? ret
    then (<[Z.to_nat (ADV_TRACE_MSG_LENGTH - 1) := 0]>
            (<[Z.to_nat (ADV_TRACE_MSG_LENGTH - 2) := 10]>
               (<[Z.to_nat (ADV_TRACE_MSG_LENGTH - 3) := 46]>
                  (<[Z.to_nat (ADV_TRACE_MSG_LENGTH - 4) := 46]>
                     (<[Z.to_nat (ADV_TRACE_MSG_LENGTH - 5) := 46]> buf)))),
          ADV_TRACE_MSG_LENGTH)
    else (buf, ret) in
  length (fst out) = 127%nat /\
  0 <= snd out <= 127 /\
  take (Z.to_nat (snd out)) (fst out) =
    (if (length body <=? 127 - h - 2)%nat then head ++ body
     else if (length body =? 127 - h - 1)%nat
     then head ++ take (127 - h - 2) body ++ [0]
     else head ++ take (127 - h - 5) body ++ [46; 46; 46; 10; 0]).
Proof.
  intros h Hh Hrest buf ret out. subst h.
  assert (Hsize : uint32 (ADV_TRACE_MSG_LENGTH - Z.of_nat (length head) - 1)
                  = Z.of_nat (126 - length head)).
  { unfold uint32, ADV_TRACE_MSG_LENGTH. rewrite Z.mod_small; lia. }
  assert (Hbuf : buf = head ++ take (125 - length head) body ++ [0]
                       ++ drop (length (take (125 - length head) body) + 1)
                            rest).
  { subst buf. unfold snprintf. rewrite Hsize. cbn [fst].
    destruct (Z.ltb_spec 0 (Z.of_nat (126 - length head))); [|lia].
    unfold write_at. rewrite Nat2Z.id.
    replace (Z.to_nat (Z.of_nat (126 - length head) - 1))
      with (125 - length head)%nat by lia.
    rewrite take_app_length.
    rewrite <- app_assoc. f_equal. f_equal. f_equal.
    rewrite drop_app_ge by lia. f_equal.
    rewrite length_app. cbn [length]. lia. }
  assert (Hlen : length buf = 127%nat).
  { rewrite Hbuf. rewrite !length_app, length_drop, length_take.
    cbn [length]. lia. }
  subst out ret. unfold ADV_TRACE_MSG_LENGTH.
  destruct (Z.leb_spec 127 (Z.of_nat (length head)
                            + Z.of_nat (length body))) as [Hbig|Hsmall];
    cbn [fst snd].
  - change (Z.to_nat (127 - 1)) with 126%nat.
    change (Z.to_nat (127 - 2)) with 125%nat.
    change (Z.to_nat (127 - 3)) with 124%nat.
    change (Z.to_nat (127 - 4)) with 123%nat.
    change (Z.to_nat (127 - 5)) with 122%nat.
    rewrite ellipsis_insert by exact Hlen.
    change (Z.to_nat 127) with 127%nat.
    split; [rewrite length_app, length_take; cbn [length]; lia|].
    split; [lia|].
    destruct (Nat.leb_spec (length body) (127 - length head - 2)); [lia|].
    destruct (Nat.eqb_spec (length body) (127 - length head - 1)); [lia|].
    rewrite take_ge by (rewrite length_app, length_take; cbn [length]; lia).
    rewrite Hbuf. rewrite take_app_ge by lia.
    rewrite <- app_assoc. f_equal.
    rewrite take_app_le by (rewrite length_take; lia).
    rewrite take_take. f_equal. f_equal. lia.
  - split; [exact Hlen|]. split; [lia|].
    rewrite Hbuf.
    replace (Z.to_nat (Z.of_nat (length head) + Z.of_nat (length body)))
      with (length head + length body)%nat by lia.
    rewrite take_app_add' by reflexivity. f_equal.
    destruct (Nat.leb_spec (length body) (127 - length head - 2))
      as [Hfit|Hcut].
    + rewrite (take_ge body) by lia.
      rewrite take_app_length. reflexivity.
    + destruct (Nat.eqb_spec (length body) (127 - length head - 1))
        as [Heq|]; [|lia].
      rewrite app_assoc.
      rewrite take_app_length'
        by (rewrite length_app, length_take; cbn [length]; lia).
      replace (127 - length head - 2)%nat with (125 - length head)%nat by lia.
      reflexivity.
Qed.

Lemma header_written (buf0 header : list Z) :
  length buf0 = 127%nat -> length header = 14%nat ->
  snprintf buf0 0 ADV_TRACE_MSG_LENGTH header
  = (header ++ [0] ++ drop 15 buf0, 14).
Proof.
  intros Hbuf Hhead. unfold snprintf, write_at, ADV_TRACE_MSG_LENGTH.
  cbn [Z.ltb Z.compare]. rewrite Hhead.
  rewrite (take_ge header) by (rewrite Hhead; cbn; lia).
  rewrite length_app, Hhead. cbn [take length Z.to_nat Nat.add app].
  rewrite <- app_assoc. reflexivity.
Qed.

Lemma marker_written (buf0 header : list Z) (a b : Z) :
  length buf0 = 127%nat -> length header = 14%nat ->
  <[15%nat:=b]> (<[14%nat:=a]> (header ++ [0] ++ drop 15 buf0))
  = (header ++ [a; b]) ++ drop 16 buf0.
Proof.
  intros Hbuf Hhead.
  assert (Hd : length (drop 15 buf0) = 112%nat) by (rewrite length_drop; lia).
  assert (Hdd : drop 16 buf0 = drop 1 (drop 15 buf0))
    by (rewrite drop_drop; reflexivity).
  rewrite Hdd. destruct (drop 15 buf0) as [|x rest]; [discriminate Hd|].
  rewrite !insert_app_r_alt by (rewrite ?length_app, ?length_insert; lia).
  rewrite Hhead. cbn. rewrite <- app_assoc. reflexivity.
Qed.

(** [pa_trace_printf] when the trace is accepted: the line is queued and
    its length returned. *)
Lemma pa_trace_printf_accepted (t : pa_trace) (f : fifo) (ipsr rt level : Z)
    (body : list Z) :
  holds t f ->
  0 <= level ->
  pa_trace_is_irq ipsr = false ->
  _pa_trace_queue_is_full (pt_que t) = false ->
  exists t',
    pa_trace_printf ipsr rt level body t
    = Some (Z.of_nat (length (trace_line rt (pt_count t) level body)), t') /\
    holds t'
      {| fifo_count := uint8 (fifo_count f + 1); fifo_sent := fifo_sent f;
         fifo_pending :=
           fifo_pending f ++ [trace_line rt (pt_count t) level body] |} /\
    (length (trace_line rt (pt_count t) level body) <= 127)%nat.
Proof.
  intros H Hlevel Hirq Hfull.
  unfold pa_trace_printf. unfold pa_trace_is_irq in Hirq.
  rewrite (h_initialized _ _ H), Hirq, Hfull. cbn [negb].
  cbv zeta.
  set (slot := tq_msgs (pt_que t) !!! Z.to_nat (tq_write_p (pt_que t))).
  assert (Hslot : length (tm_msg slot) = 127%nat).
  { pose proof (h_buffers _ _ H) as Hb.
    rewrite Forall_forall in Hb.
    assert (Hin : slot ∈ tq_msgs (pt_que t)).
    { apply list_elem_of_lookup_total_2.
      pose proof (h_slots _ _ H). pose proof (h_queue _ _ H) as [_ Hw].
      lia. }
    specialize (Hb _ Hin). unfold ADV_TRACE_MSG_LENGTH in Hb. lia. }
  set (header := trace_header rt (pt_count t)).
  assert (Hhead : length header = 14%nat) by apply length_trace_header.
  rewrite (header_written _ _ Hslot Hhead).
  set (head := header ++ (if uint32 level <? PTL_COUNT
                          then [ADV_TRACE_LOGLEVELS !!! Z.to_nat (uint32 level); 32]
                          else [])).
  assert (Hbuf : exists rest,
             (if (uint32 level <? PTL_COUNT) && (14 <? ADV_TRACE_MSG_LENGTH - 2)
              then (<[Z.to_nat (14 + 1) := 32]>
                      (<[Z.to_nat 14
                         := ADV_TRACE_LOGLEVELS !!! Z.to_nat (uint32 level)]>
                         (header ++ [0] ++ drop 15 (tm_msg slot))),
                    14 + 2)
              else (header ++ [0] ++ drop 15 (tm_msg slot), 14))
             = (head ++ rest, Z.of_nat (length head)) /\
             (length head <= 16)%nat /\
             length rest = (127 - length head)%nat).
  { subst head. destruct (uint32 level <? PTL_COUNT); cbn [andb].
    - change (14 <? ADV_TRACE_MSG_LENGTH - 2) with true. cbn iota.
      change (Z.to_nat (14 + 1)) with 15%nat.
      change (Z.to_nat 14) with 14%nat.
      rewrite marker_written by assumption.
      exists (drop 16 (tm_msg slot)).
      rewrite length_app, Hhead, length_drop, Hslot. cbn [length].
      split; [reflexivity|]. lia.
    - exists ([0] ++ drop 15 (tm_msg slot)).
      rewrite app_nil_r, length_app, Hhead, length_drop, Hslot.
      cbn [length]. split; [reflexivity|]. lia. }
  destruct Hbuf as (rest & -> & Hh & Hrest).
  pose proof (body_formatted head rest body Hh Hrest) as Hfmt.
  cbv zeta in Hfmt.
  destruct (snprintf (head ++ rest) (Z.of_nat (length head))
              (uint32 (ADV_TRACE_MSG_LENGTH - Z.of_nat (length head) - 1))
              body) as [buf n] eqn:Hsn.
  assert (Hn : n = Z.of_nat (length body)).
  { pose proof (f_equal snd Hsn) as Hsnd. exact (eq_sym Hsnd). }
  subst n. cbn [fst] in Hfmt.
  match type of Hfmt with
  | context [if ?c then ?a else ?b] =>
    match goal with
    | |- context [let '(msg_buf, ret) := if c then ?a' else ?b' in _] =>
      change a' with a; change b' with b; destruct (if c then a else b)
        as [out ret'] eqn:Hout
    end
  end.
  cbn [fst snd] in Hfmt. destruct Hfmt as (Hlen & Hret & Htext).
  assert (Hbytes : msg_bytes {| tm_msg := out; tm_length := uint8 ret' |}
                   = trace_line rt (pt_count t) level body).
  { unfold msg_bytes. cbn [tm_msg tm_length].
    unfold uint8. rewrite Z.mod_small by lia. rewrite Htext.
    unfold trace_line. cbv zeta. fold header. fold head.
    change (Z.to_nat ADV_TRACE_MSG_LENGTH) with 127%nat.
    replace (127 - length head - 1 - 1)%nat with (127 - length head - 2)%nat
      by lia.
    reflexivity. }
  assert (Hsize : Z.of_nat (length (tm_msg {| tm_msg := out;
                                              tm_length := uint8 ret' |}))
                  = ADV_TRACE_MSG_LENGTH).
  { cbn [tm_msg]. rewrite Hlen. reflexivity. }
  destruct (enqueue_holds t f _ _ H Hfull Hbytes Hsize) as (t' & Hrun & H').
  assert (Hret' : Z.to_nat ret'
                  = length (trace_line rt (pt_count t) level body)).
  { rewrite <- Hbytes. unfold msg_bytes. cbn [tm_msg tm_length].
    unfold uint8. rewrite Z.mod_small by lia.
    rewrite length_take. lia. }
  rewrite Hrun. cbn. exists t'.
  rewrite <- Hret', Z2Nat.id by lia.
  split; [reflexivity|]. split; [exact H'|]. lia.
Qed.

(** [pa_trace_printf] against the buffer. *)
Lemma pa_trace_printf_holds (t : pa_trace) (f : fifo) (ipsr rt level : Z)
    (body : list Z) :
  holds t f ->
  0 <= level ->
  exists ret t',
    pa_trace_printf ipsr rt level body t = Some (ret, t') /\
    holds t' (fifo_step (PRINTF ipsr rt level body) f).
Proof.
  intros H Hlevel. cbn [fifo_step]. unfold fifo_submit.
  destruct (pa_trace_is_irq ipsr) eqn:Hirq; cbn [orb].
  { unfold pa_trace_printf. unfold pa_trace_is_irq in Hirq.
    rewrite (h_initialized _ _ H), Hirq. cbn [negb].
    eexists _, _. split; [reflexivity|]. apply drop_holds, H. }
  rewrite <- (holds_not_full _ _ H).
  destruct (_pa_trace_queue_is_full (pt_que t)) eqn:Hfull.
  { unfold pa_trace_printf. unfold pa_trace_is_irq in Hirq.
    rewrite (h_initialized _ _ H), Hirq, Hfull. cbn [negb].
    eexists _, _. split; [reflexivity|]. apply drop_holds, H. }
  destruct (pa_trace_printf_accepted t f ipsr rt level body H Hlevel Hirq
              Hfull) as (t' & Hrun & H' & _).
  rewrite (h_count _ _ H) in H'. eauto.
Qed.



Lemma deliver_holds (i : trace_stimulus) (t : pa_trace) (f : fifo) :
  holds t f -> timely i f = true ->
  exists t', trace_deliver i t = Some t' /\ holds t' (fifo_step i f).
Proof.
  intros H Hi. destruct i as [ipsr message len|ipsr rt level body|type].
  - cbn [timely] in Hi. apply andb_true_iff in Hi as [H0 Hlen].
    apply Z.leb_le in H0, Hlen.
    destruct (pa_print_holds t f ipsr message len H) as (ret & t' & Hrun & H');
      [lia|].
    exists t'. cbn [trace_deliver]. rewrite Hrun. auto.
  - cbn [timely] in Hi. apply Z.leb_le in Hi.
    destruct (pa_trace_printf_holds t f ipsr rt level body H Hi)
      as (ret & t' & Hrun & H').
    exists t'. cbn [trace_deliver]. rewrite Hrun. auto.
  - destruct type; cbn [timely] in Hi; cbn [trace_deliver fifo_step
      _nd_trace_uart_event_handler]; try (exists t; auto; fail);
      destruct (fifo_pending f) as [|m p] eqn:Hpend;
      try (rewrite bool_decide_eq_true_2 in Hi by reflexivity;
           discriminate Hi);
      apply (transfer_done_holds t f m p H Hpend).
Qed.

Lemma run_holds (l : list trace_stimulus) (t : pa_trace) (f : fifo) :
  holds t f -> all_timely l f = true ->
  exists t', trace_run l t = Some t' /\ holds t' (fifo_run l f).
Proof.
  revert t f. induction l as [|i l IH]; intros t f H Hl.
  - exists t. auto.
  - cbn [all_timely] in Hl. apply andb_true_iff in Hl as [Hi Hl].
    destruct (deliver_holds i t f H Hi) as (t1 & Hrun1 & H1).
    destruct (IH t1 (fifo_step i f) H1 Hl) as (t' & Hrun & H').
    exists t'. cbn [trace_run fifo_run]. rewrite Hrun1. auto.
Qed.

(** X26: the line [pa_trace_printf] queues. In thread mode, on an
    initialised module with fewer than 127 lines pending, a trace of body
    [body] at time [rt] queues exactly [trace_line]: a caret, the time on
    eight hexadecimal digits, a colon and the count of the messages
    submitted so far (modulo 256) on two digits, the level letter, then the
    body; a line of more than 126 characters is cut and ends with an
    ellipsis, a line feed and a terminator. The call returns the length of
    the line, at most 127. Handlers are atomic in this model: the UART
    interrupt does not preempt the call. *)
Theorem trace_printf_line (t : pa_trace) (f : fifo) (ipsr rt level : Z)
    (body : list Z) :
  holds t f ->
  0 <= level ->
  pa_trace_is_irq ipsr = false ->
  Z.of_nat (length (fifo_pending f)) < MSG_QUEUE_SIZE - 1 ->
  let line := trace_line rt (fifo_count f) level body in
  exists t',
    pa_trace_printf ipsr rt level body t
    = Some (Z.of_nat (length line), t') /\
    (length line <= 127)%nat /\
    holds t' (fifo_step (PRINTF ipsr rt level body) f) /\
    fifo_pending (fifo_step (PRINTF ipsr rt level body) f)
    = fifo_pending f ++ [line].
Proof.
  intros H Hlevel Hirq Hroom line. subst line.
  assert (Hfull : _pa_trace_queue_is_full (pt_que t) = false).
  { rewrite (holds_not_full _ _ H). apply Z.leb_gt. exact Hroom. }
  destruct (pa_trace_printf_accepted t f ipsr rt level body H Hlevel Hirq
              Hfull) as (t' & Hrun & H' & Hlen).
  rewrite (h_count _ _ H) in Hrun, H', Hlen.
  exists t'. split; [exact Hrun|]. split; [exact Hlen|].
  cbn [fifo_step]. unfold fifo_submit. rewrite Hirq. cbn [orb].
  destruct (Z.leb_spec (MSG_QUEUE_SIZE - 1)
              (Z.of_nat (length (fifo_pending f)))); [lia|].
  split; [exact H'|reflexivity].
Qed.

Lemma trace_printf_line_witness :
  let line := trace_line 4096 (fifo_count fifo_start) PTL_INFO tick_text in
  exists t',
    pa_trace_printf 0 4096 PTL_INFO tick_text trace_start
    = Some (Z.of_nat (length line), t') /\
    (length line <= 127)%nat /\
    holds t' (fifo_step (PRINTF 0 4096 PTL_INFO tick_text) fifo_start) /\
    fifo_pending (fifo_step (PRINTF 0 4096 PTL_INFO tick_text) fifo_start)
    = fifo_pending fifo_start ++ [line].
Proof.
  apply (trace_printf_line trace_start fifo_start 0 4096 PTL_INFO tick_text).
  - constructor;
      [reflexivity
      |intros; reflexivity
      |split; vm_compute; (split; [discriminate|reflexivity])
      |reflexivity
      |apply Forall_replicate; reflexivity
      |reflexivity
      |reflexivity
      |intros i text Hlook; discriminate Hlook
      |reflexivity
      |reflexivity].
  - vm_compute. discriminate.
  - reflexivity.
  - reflexivity.
Defined.

(** X27: the trace queue is a bounded FIFO. Over any sequence of prints,
    formatted traces and UART events in which a transfer ends only when
    one is under way, the module returns from every call and stays in
    relation with the abstract queue [fifo]: the transfers started are, in
    order, those of the lines accepted, each one once, the last one being
    that of the oldest pending line. A line is dropped only when it comes
    from an interrupt handler or finds 127 lines pending; the counter
    counts it all the same. The UART accepts every transfer here, and
    handlers are atomic. *)
Theorem trace_queue_is_fifo (l : list trace_stimulus) (t : pa_trace)
    (f : fifo) :
  holds t f ->
  all_timely l f = true ->
  exists t',
    trace_run l t = Some t' /\
    holds t' (fifo_run l f) /\
    uarte_tx t'
    = fifo_sent (fifo_run l f) ++ take 1 (fifo_pending (fifo_run l f)).
Proof.
  intros H Hl. destruct (run_holds l t f H Hl) as (t' & Hrun & H').
  exists t'. split; [exact Hrun|]. split; [exact H'|]. apply H'.
Qed.

Lemma trace_queue_is_fifo_witness :
  exists t',
    trace_run trace_session trace_start = Some t' /\
    holds t' (fifo_run trace_session fifo_start) /\
    uarte_tx t'
    = fifo_sent (fifo_run trace_session fifo_start)
      ++ take 1 (fifo_pending (fifo_run trace_session fifo_start)).
Proof.
  apply (trace_queue_is_fifo trace_session trace_start fifo_start).
  - constructor;
      [reflexivity
      |intros; reflexivity
      |split; vm_compute; (split; [discriminate|reflexivity])
      |reflexivity
      |apply Forall_replicate; reflexivity
      |reflexivity
      |reflexivity
      |intros i text Hlook; discriminate Hlook
      |reflexivity
      |reflexivity].
  - vm_compute. reflexivity.
Defined.

Example trace_session_on_the_wire :
  uarte_tx <$> trace_run trace_session trace_start
  = Some [ [94; 48; 48; 48; 48; 49; 48; 48; 48; 32; 58; 48; 48; 32;
            73; 32; 116; 105; 99; 107];
           [116; 105; 99; 107] ].
Proof. vm_compute. reflexivity. Qed.

(** A level of -1 reaches the module as 4294967295: on an initialised module
    it is traceable for every source in range, whatever the threshold;
    [pa_trace_set_source] refuses it; [pa_trace_printf] gives it no level
    letter. *)
Example negative_level_is_a_large_one :
  pa_trace_is_traceable PTM_MAIN (-1) trace_start = true /\
  pa_trace_set_source PTM_MAIN (-1) trace_start = trace_start /\
  fst <$> pa_trace_printf 0 4096 (-1) tick_text trace_start
  = Some (Z.of_nat (length (trace_header 4096 0 ++ tick_text))).
Proof. vm_compute. repeat split. Qed.
(** * Text formatting *)

(** * Strings *)

Lemma snprintf_fits (str text : list Z) (pos rem : Z) :
  Z.of_nat (length text) < rem < 2 ^ 32 ->
  snprintf str pos (uint32 (Z.max 0 rem)) text
  = (write_at str pos (text ++ [0]), Z.of_nat (length text)).
Proof.
  intros Hrem. unfold snprintf, uint32.
  rewrite Z.max_r, Z.mod_small by lia.
  destruct (Z.ltb_spec 0 rem); [|lia].
  rewrite take_ge by lia. reflexivity.
Qed.

Lemma write_at_tail (head tail bytes : list Z) :
  write_at (head ++ tail) (Z.of_nat (length head)) bytes
  = head ++ bytes ++ drop (length bytes) tail.
Proof.
  unfold write_at. rewrite Nat2Z.id, take_app_length.
  rewrite drop_app_ge by lia. do 3 f_equal. lia.
Qed.

(** ** [_adv_ble_mac_addr_to_str] *)

Lemma mac_addr_loop_texts (n : nat) (bix : Z) (addr str : list Z)
    (pos rem : Z) :
  mac_addr_loop n bix addr str pos rem
  = texts_loop (mac_text_list n bix addr) str pos rem.
Proof.
  revert bix str pos rem.
  induction n as [|n IH]; intros bix str pos rem; [reflexivity|].
  cbn [mac_addr_loop mac_text_list texts_loop].
  destruct (snprintf _ _ _ _) as [str' len].
  destruct (rem <? len); [reflexivity|]. apply IH.
Qed.

Lemma texts_loop_cons (text : list Z) (texts : list (list Z)) (str : list Z)
    (pos rem : Z) :
  texts_loop (text :: texts) str pos rem =
  let r := snprintf str pos (uint32 (Z.max 0 rem)) text in
  if rem <? r.2 then write_at r.1 pos [0]
  else texts_loop texts r.1 (pos + r.2) (rem - r.2).
Proof. reflexivity. Qed.

Lemma texts_loop_fits (texts : list (list Z)) (text : list Z)
    (head tail : list Z) (rem : Z) :
  Z.of_nat (length (concat (text :: texts))) < rem < 2 ^ 31 ->
  texts_loop (text :: texts) (head ++ tail) (Z.of_nat (length head)) rem
  = head ++ concat (text :: texts) ++ [0]
    ++ drop (length (concat (text :: texts)) + 1) tail.
Proof.
  revert text head tail rem.
  induction texts as [|text' texts IH]; intros text head tail rem Hrem;
    rewrite texts_loop_cons; cbn [concat] in *; rewrite length_app in Hrem;
    rewrite snprintf_fits by lia; cbv zeta; cbn [fst snd];
    (destruct (Z.ltb_spec rem (Z.of_nat (length text))); [lia|]);
    rewrite write_at_tail.
  - cbn [texts_loop]. rewrite app_nil_r, length_app.
    cbn [length]. rewrite <- app_assoc. reflexivity.
  - replace (Z.of_nat (length head) + Z.of_nat (length text))
      with (Z.of_nat (length (head ++ text)))
      by (rewrite length_app; lia).
    replace (head ++ (text ++ [0]) ++ drop (length (text ++ [0])) tail)
      with ((head ++ text) ++ [0] ++ drop (length (text ++ [0])) tail)
      by (rewrite <- !app_assoc; reflexivity).
    rewrite (IH text' (head ++ text)) by (cbn [concat]; lia).
    cbn [concat]. rewrite <- !app_assoc. do 3 f_equal.
    rewrite !length_app. cbn [length app].
    rewrite Nat.add_1_r. cbn [drop]. rewrite drop_drop. do 3 f_equal. lia.
Qed.

Lemma mac_texts_text (addr : list Z) :
  length addr = 6%nat ->
  concat (mac_text_list 6 0 addr) = mac_text addr /\
  length (mac_text addr) = 17%nat.
Proof.
  intros Hlen.
  destruct addr as [|b0 [|b1 [|b2 [|b3 [|b4 [|b5 [|]]]]]]];
    try discriminate Hlen.
  split; reflexivity.
Qed.

(** X28: with room for the text, the address is formatted in full. For a
    buffer of at least 18 bytes, [_adv_ble_mac_addr_to_str] writes the six
    bytes of the address from the last one to the first, two lower-case
    hexadecimal digits each, colons in between, and the final NUL: 18
    bytes, nothing beyond. *)
Theorem mac_addr_to_str_formats (str addr : list Z) (length_ : Z) :
  18 <= length_ < 2 ^ 31 ->
  length addr = 6%nat ->
  _adv_ble_mac_addr_to_str str length_ addr
  = mac_text addr ++ [0] ++ drop 18 str.
Proof.
  intros Hlen Haddr. unfold _adv_ble_mac_addr_to_str.
  assert (Hrem : int32 length_ = length_).
  { unfold int32. rewrite Z.mod_small; lia. }
  rewrite Hrem. change (Z.to_nat BLE_GAP_ADDR_LEN) with 6%nat.
  destruct (mac_texts_text addr Haddr) as [Htext Hsize].
  rewrite mac_addr_loop_texts.
  change (mac_text_list 6 0 addr)
    with ((fmt_0x 2 (uint8 (addr !!! 5%nat)) ++ [58])
          :: mac_text_list 5 1 addr) in *.
  change (texts_loop ?l str 0 length_)
    with (texts_loop l ([] ++ str) (Z.of_nat (length (@nil Z))) length_).
  rewrite texts_loop_fits by (rewrite Htext, Hsize; lia).
  rewrite Htext, Hsize. reflexivity.
Qed.

Lemma mac_addr_to_str_formats_witness :
  _adv_ble_mac_addr_to_str sample_memory 20 sample_addr
  = mac_text sample_addr ++ [0] ++ drop 18 sample_memory.
Proof.
  apply (mac_addr_to_str_formats sample_memory sample_addr 20).
  - lia.
  - reflexivity.
Defined.

(** X29: a buffer that is too small. For a length of at most 16 the
    function gives up and leaves a text cut at a multiple of three
    characters: a NUL at index [n = 3 * (length / 3)], before it the first
    [n - 1] characters of the address. When the length is itself a multiple
    of three, this NUL is written at index [length], one byte past the
    buffer; nothing further is touched. *)
Theorem mac_addr_to_str_short_buffer (str addr : list Z) (length_ : Z) :
  0 <= length_ <= 16 ->
  (19 <= length str)%nat ->
  length addr = 6%nat ->
  let out := _adv_ble_mac_addr_to_str str length_ addr in
  let n := Z.to_nat (3 * (length_ / 3)) in
  out !! n = Some 0 /\
  take (n - 1) out = take (n - 1) (mac_text addr) /\
  drop (Z.to_nat length_ + 1) out = drop (Z.to_nat length_ + 1) str.
Proof.
  intros Hlen Hstr Haddr.
  destruct addr as [|b0 [|b1 [|b2 [|b3 [|b4 [|b5 [|]]]]]]];
    try discriminate Haddr.
  do 19 (destruct str as [|? str]; [cbn [length] in Hstr; lia|]).
  clear Hstr Haddr.
  assert (Hcases : length_ = 0 \/ length_ = 1 \/ length_ = 2 \/ length_ = 3
                   \/ length_ = 4 \/ length_ = 5 \/ length_ = 6 \/ length_ = 7
                   \/ length_ = 8 \/ length_ = 9 \/ length_ = 10
                   \/ length_ = 11 \/ length_ = 12 \/ length_ = 13
                   \/ length_ = 14 \/ length_ = 15 \/ length_ = 16) by lia.
  unfold _adv_ble_mac_addr_to_str, mac_text. rewrite mac_addr_loop_texts.
  change (Z.to_nat BLE_GAP_ADDR_LEN) with 6%nat.
  change (mac_text_list 6 0 [b0; b1; b2; b3; b4; b5])
    with [fmt_0x 2 (uint8 b5) ++ [58]; fmt_0x 2 (uint8 b4) ++ [58];
          fmt_0x 2 (uint8 b3) ++ [58]; fmt_0x 2 (uint8 b2) ++ [58];
          fmt_0x 2 (uint8 b1) ++ [58]; fmt_0x 2 (uint8 b0) ++ []].
  cbn [rev app flat_map drop fmt_0x].
  generalize (hex_digit (uint8 b0 / 16 mod 16)) (hex_digit (uint8 b0 mod 16))
    (hex_digit (uint8 b1 / 16 mod 16)) (hex_digit (uint8 b1 mod 16))
    (hex_digit (uint8 b2 / 16 mod 16)) (hex_digit (uint8 b2 mod 16))
    (hex_digit (uint8 b3 / 16 mod 16)) (hex_digit (uint8 b3 mod 16))
    (hex_digit (uint8 b4 / 16 mod 16)) (hex_digit (uint8 b4 mod 16))
    (hex_digit (uint8 b5 / 16 mod 16)) (hex_digit (uint8 b5 mod 16)).
  intros h0 l0 h1 l1 h2 l2 h3 l3 h4 l4 h5 l5.
  repeat (destruct Hcases as [->|Hcases]); try subst length_;
    (split; [|split]); vm_compute; reflexivity.
Qed.

Lemma mac_addr_to_str_short_buffer_witness :
  let out := _adv_ble_mac_addr_to_str sample_memory 6 sample_addr in
  let n := Z.to_nat (3 * (6 / 3)) in
  out !! n = Some 0 /\
  take (n - 1) out = take (n - 1) (mac_text sample_addr) /\
  drop (Z.to_nat 6 + 1) out = drop (Z.to_nat 6 + 1) sample_memory.
Proof.
  apply (mac_addr_to_str_short_buffer sample_memory sample_addr 6).
  - lia.
  - vm_compute. lia.
  - reflexivity.
Defined.

(** ** [pa_trace_build_hex] *)

Lemma length_write_at (buf bytes : list Z) (off : Z) :
  0 <= off -> off + Z.of_nat (length bytes) <= Z.of_nat (length buf) ->
  length (write_at buf off bytes) = length buf.
Proof.
  intros Hoff Hfit. unfold write_at.
  rewrite !length_app, length_take, length_drop. lia.
Qed.

Lemma take_write_at (buf bytes : list Z) (off : Z) :
  0 <= off <= Z.of_nat (length buf) ->
  take (Z.to_nat off) (write_at buf off bytes) = take (Z.to_nat off) buf.
Proof.
  intros Hoff. unfold write_at.
  rewrite take_app_le by (rewrite length_take; lia).
  rewrite take_take. f_equal. lia.
Qed.

Lemma drop_write_at (buf bytes : list Z) (off : Z) (n : nat) :
  0 <= off -> off + Z.of_nat (length bytes) <= Z.of_nat n ->
  Z.of_nat n <= Z.of_nat (length buf) ->
  drop n (write_at buf off bytes) = drop n buf.
Proof.
  intros Hoff Hfit Hn. unfold write_at.
  rewrite drop_app_ge by (rewrite length_take; lia).
  rewrite length_take.
  rewrite drop_app_ge by lia.
  rewrite drop_drop. f_equal. lia.
Qed.

Lemma length_hex_bytes (buffer : list Z) :
  length (hex_bytes buffer) = (3 * length buffer)%nat.
Proof.
  induction buffer as [|b buffer IH]; [reflexivity|].
  unfold hex_bytes in *. cbn [flat_map].
  rewrite !length_app, length_fmt_0x, IH. cbn [length]. lia.
Qed.

Lemma build_hex_loop_spec (buffer dst : list Z) (hexp rem : Z) :
  0 <= hexp -> 1 <= rem < 2 ^ 31 ->
  hexp + rem <= Z.of_nat (length dst) ->
  let j := Z.min (Z.of_nat (length buffer)) ((rem - 1) / 3) in
  let r := build_hex_loop buffer dst hexp rem in
  r.2 = hexp + 3 * j /\
  take (Z.to_nat (hexp + 3 * j)) r.1
  = take (Z.to_nat hexp) dst ++ hex_bytes (take (Z.to_nat j) buffer) /\
  length r.1 = length dst /\
  drop (Z.to_nat (hexp + rem)) r.1 = drop (Z.to_nat (hexp + rem)) dst.
Proof.
  revert dst hexp rem.
  induction buffer as [|b buffer IH]; intros dst hexp rem Hhexp Hrem Hfit;
    cbv zeta.
  - cbn [build_hex_loop length fst snd].
    assert (Hj : Z.min (Z.of_nat 0) ((rem - 1) / 3) = 0).
    { apply Z.min_l. apply Z.div_pos; lia. }
    rewrite Hj, Z.mul_0_r, Z.add_0_r. cbn [Z.to_nat take hex_bytes flat_map].
    rewrite app_nil_r. auto.
  - cbn [build_hex_loop].
    set (text := fmt_0x 2 (uint8 b) ++ [32]).
    assert (Ht : length text = 3%nat).
    { subst text. rewrite length_app, length_fmt_0x. reflexivity. }
    destruct (Z.le_gt_cases rem 3) as [Hbreak|Hgo].
    + (* no room for this byte *)
      assert (Hsn : snprintf dst hexp (uint32 (Z.max 0 rem)) text
                    = (write_at dst hexp
                         (take (Z.to_nat (rem - 1)) text ++ [0]), 3)).
      { unfold snprintf, uint32. rewrite Z.max_r, Z.mod_small by lia.
        destruct (Z.ltb_spec 0 rem); [|lia]. rewrite Ht. reflexivity. }
      rewrite Hsn. destruct (Z.leb_spec rem 3); [|lia]. cbn [fst snd].
      assert (Hj : Z.min (Z.of_nat (length (b :: buffer))) ((rem - 1) / 3)
                   = 0).
      { rewrite Z.div_small by lia. apply Z.min_r. lia. }
      rewrite Hj, Z.mul_0_r, Z.add_0_r.
      cbn [Z.to_nat take hex_bytes flat_map]. rewrite app_nil_r.
      assert (Hl : length (take (Z.to_nat (rem - 1)) text ++ [0])
                   = Z.to_nat rem).
      { rewrite length_app, length_take, Ht. cbn [length]. lia. }
      split; [reflexivity|].
      split; [apply take_write_at; lia|].
      split; [apply length_write_at; lia|].
      apply drop_write_at; lia.
    + (* the byte is stored *)
      rewrite snprintf_fits by lia. rewrite Ht.
      destruct (Z.leb_spec rem (Z.of_nat 3)); [lia|].
      set (dst1 := write_at dst hexp (text ++ [0])).
      assert (Hl1 : length dst1 = length dst).
      { apply length_write_at; [lia|].
        rewrite length_app, Ht. cbn [length]. lia. }
      destruct (IH dst1 (hexp + Z.of_nat 3) (rem - Z.of_nat 3))
        as (Hr & Htake & Hlen & Hdrop); try lia.
      cbv zeta in Hr, Htake.
      set (r := build_hex_loop buffer dst1 (hexp + Z.of_nat 3)
                  (rem - Z.of_nat 3)) in *.
      assert (Hj : Z.min (Z.of_nat (length (b :: buffer))) ((rem - 1) / 3)
                   = Z.min (Z.of_nat (length buffer))
                       ((rem - Z.of_nat 3 - 1) / 3) + 1).
      { cbn [length].
        replace (rem - 1) with (rem - Z.of_nat 3 - 1 + 1 * 3) by lia.
        rewrite Z.div_add by lia. lia. }
      set (j := Z.min (Z.of_nat (length buffer))
                  ((rem - Z.of_nat 3 - 1) / 3)) in *.
      assert (Hj0 : 0 <= j).
      { subst j. apply Z.min_glb; [lia|]. apply Z.div_pos; lia. }
      rewrite Hj.
      split; [rewrite Hr; lia|].
      split.
      * replace (hexp + 3 * (j + 1)) with (hexp + Z.of_nat 3 + 3 * j) by lia.
        rewrite Htake.
        replace (Z.to_nat (j + 1)) with (S (Z.to_nat j)) by lia.
        cbn [take hex_bytes flat_map]. fold text.
        fold (hex_bytes (take (Z.to_nat j) buffer)).
        rewrite app_assoc. f_equal.
        subst dst1. unfold write_at.
        replace (Z.to_nat (hexp + Z.of_nat 3))
          with (length (take (Z.to_nat hexp) dst) + 3)%nat
          by (rewrite length_take; lia).
        rewrite take_app_add' by reflexivity. reflexivity.
      * split; [rewrite Hlen; exact Hl1|].
        replace (hexp + Z.of_nat 3 + (rem - Z.of_nat 3)) with (hexp + rem)
          in Hdrop by lia.
        rewrite Hdrop. subst dst1. apply drop_write_at; try lia.
        rewrite length_app, Ht. cbn [length]. lia.
Qed.

(** X30: [pa_trace_build_hex] dumps as many bytes as fit. For a
    destination of [dlen >= 1] bytes, the function writes the first
    [k = min blen ((dlen - 1) / 3)] bytes of the buffer, two hexadecimal
    digits each, separated by spaces, and a NUL in place of the last space;
    it returns the count of characters written, NUL included ([3 * k], or 1
    when nothing fits), and changes nothing at or past [dlen]. *)
Theorem build_hex_spec (dst buffer : list Z) (dlen blen : Z) :
  1 <= dlen < 2 ^ 31 ->
  dlen <= Z.of_nat (length dst) ->
  0 <= blen <= Z.of_nat (length buffer) ->
  let k := Z.min blen ((dlen - 1) / 3) in
  let out := (pa_trace_build_hex dst dlen buffer blen).1 in
  let n := (pa_trace_build_hex dst dlen buffer blen).2 in
  n = (if k =? 0 then 1 else 3 * k) /\
  take (Z.to_nat n) out = hex_text (take (Z.to_nat k) buffer) ++ [0] /\
  length out = length dst /\
  drop (Z.to_nat dlen) out = drop (Z.to_nat dlen) dst.
Proof.
  intros Hdlen Hmem Hblen. cbv zeta. unfold pa_trace_build_hex.
  assert (Hrem : int32 dlen = dlen).
  { unfold int32. rewrite Z.mod_small; lia. }
  rewrite Hrem.
  destruct (build_hex_loop_spec (take (Z.to_nat blen) buffer) dst 0 dlen)
    as (Hr & Htake & Hlen & Hdrop); try lia.
  cbv zeta in Hr, Htake.
  rewrite length_take in Hr, Htake.
  replace (Z.of_nat (Z.to_nat blen `min` length buffer)) with blen
    in Hr, Htake by lia.
  set (k := Z.min blen ((dlen - 1) / 3)) in *.
  assert (Hk : 0 <= k <= blen /\ 3 * k < dlen).
  { subst k. split; [split; [apply Z.min_glb; [lia|apply Z.div_pos; lia]|lia]|].
    assert (3 * ((dlen - 1) / 3) <= dlen - 1)
      by (apply Z.mul_div_le; lia). lia. }
  rewrite take_take in Htake.
  replace (Z.to_nat k `min` Z.to_nat blen)%nat with (Z.to_nat k) in Htake
    by lia.
  change (Z.to_nat 0) with 0%nat in Htake. rewrite take_0 in Htake.
  cbn [app] in Htake. rewrite Z.add_0_l in Hr, Htake.
  destruct (build_hex_loop (take (Z.to_nat blen) buffer) dst 0 dlen)
    as [dst' hexp] eqn:Hloop.
  cbn [fst snd] in *. subst hexp.
  assert (Hhb : length (hex_bytes (take (Z.to_nat k) buffer))
                = Z.to_nat (3 * k)).
  { rewrite length_hex_bytes, length_take. lia. }
  destruct (Z.eqb_spec k 0) as [Hk0|Hk0].
  - rewrite Hk0. change (3 * 0) with 0. change (0 <? 0) with false.
    cbn iota. change (Z.to_nat (0 + 1)) with 1%nat.
    change (Z.to_nat 0) with 0%nat.
    unfold hex_text. cbn [take hex_bytes flat_map length Nat.sub app].
    split; [reflexivity|].
    split; [unfold write_at; destruct dst'; reflexivity|].
    split; [rewrite length_write_at; [exact Hlen|lia|cbn [length]; lia]|].
    rewrite drop_write_at; [exact Hdrop|lia|cbn [length]; lia|lia].
  - destruct (Z.ltb_spec 0 (3 * k)); [|lia].
    replace (3 * k - 1 + 1) with (3 * k) by lia.
    split; [reflexivity|].
    split.
    + unfold write_at, hex_text. rewrite Hhb.
      replace (Z.to_nat (3 * k)) with (Z.to_nat (3 * k - 1) + 1)%nat by lia.
      rewrite take_app_add'
        by (rewrite length_take; lia).
      assert (Hpre : take (Z.to_nat (3 * k - 1)) dst'
                     = take (Z.to_nat (3 * k - 1))
                         (hex_bytes (take (Z.to_nat k) buffer))).
      { rewrite <- Htake, take_take. f_equal. lia. }
      rewrite Hpre.
      replace (Z.to_nat (3 * k - 1) + 1 - 1)%nat with (Z.to_nat (3 * k - 1))
        by lia.
      reflexivity.
    + split; [rewrite length_write_at; [exact Hlen|lia|cbn [length]; lia]|].
      rewrite drop_write_at; [exact Hdrop|lia|cbn [length]; lia|lia].
Qed.

Lemma build_hex_spec_witness :
  let dst := sample_memory in
  let k := Z.min 6 ((10 - 1) / 3) in
  let out := (pa_trace_build_hex dst 10 sample_addr 6).1 in
  let n := (pa_trace_build_hex dst 10 sample_addr 6).2 in
  n = (if k =? 0 then 1 else 3 * k) /\
  take (Z.to_nat n) out = hex_text (take (Z.to_nat k) sample_addr) ++ [0] /\
  length out = length dst /\
  drop (Z.to_nat 10) out = drop (Z.to_nat 10) dst.
Proof.
  apply (build_hex_spec sample_memory sample_addr 10 6).
  - lia.
  - vm_compute. discriminate.
  - vm_compute. split; discriminate.
Defined.
